(** * TableDiff: the [compare] routine of [my_python.py]

    A shallow embedding of [compare(x, y, names, dups, same, comment,
    highlight)] and of the pandas operations it calls, followed by the
    properties of the comparison result.

    Scope of the model.  A data frame is a list of column labels and a list
    of labelled rows.  Cells are Python scalars: ints, strings, the missing
    value NaN, and floats of integral value (what pandas leaves in an int64
    column once a missing value enters it).  The dtype of a column is read
    off its cells, an int column being int64: [merge] compares an int64
    key with a float64 key as float64 and refuses a number against a
    string, [concat] stores the ints of a column as floats when a float or
    a missing value joins them, and [duplicated] finds nothing in a frame
    without columns.  Within a column of one dtype cells are compared
    structurally, with NaN equal to NaN.  Python's [None] is not told
    apart from NaN, and ints that do not fit int64 are outside the model:
    the general statements about the tables are made for tables of
    strings and of ints that fit ([same_kinds], [exact_table]).  Python
    objects live in a store and a frame is passed around as a reference
    into it; the state also carries the printed lines and the local
    dictionary.  Arguments are dynamically typed values, [names] being a
    list of strings when it is a list.  Module-level names are looked up
    in an explicit table of globals. *)

From Stdlib Require Import List Ascii.
From stdpp Require Import gmap strings list sorting pretty.

Local Open Scope string_scope.
Local Open Scope list_scope.

(** ** Cells, rows and frames *)

Inductive value :=
| VInt (z : Z)
| VFloat (z : Z)
| VStr (s : string)
| VNaN.

#[global] Instance value_eq_dec : EqDecision value.
Proof. solve_decision. Defined.

Definition row := list value.

Record DataFrame := mkDF {
  columns : list string;
  rows : list (nat * row)
}.

#[global] Instance DataFrame_eq_dec : EqDecision DataFrame.
Proof. solve_decision. Defined.

Definition cells (df : DataFrame) : list row := map snd (rows df).
Definition labels (df : DataFrame) : list nat := map fst (rows df).

(** [df.shape] *)
Definition shape (df : DataFrame) : nat * nat :=
  (length (rows df), length (columns df)).

(** A frame as [pd.DataFrame(list of dicts)] builds it: distinct column
    labels and one cell per column in every row. *)
Definition wf_frame (df : DataFrame) : Prop :=
  NoDup (columns df) /\ Forall (fun r => length r = length (columns df)) (cells df).

(** Position of a column label, and the cell of a row under that label. *)
Fixpoint col_pos (c : string) (cols : list string) : option nat :=
  match cols with
  | [] => None
  | c' :: cols' => if bool_decide (c' = c) then Some 0 else S <$> col_pos c cols'
  end.

Definition get_cell (cols : list string) (r : row) (c : string) : option value :=
  match col_pos c cols with
  | Some i => r !! i
  | None => None
  end.

Definition memb {A} `{EqDecision A} (a : A) (l : list A) : bool :=
  bool_decide (a ∈ l).

(** ** pandas operations *)

Module pd.

(** [keep] argument of [duplicated] / [drop_duplicates]: ['first'] (the
    default) or [False]. *)
Inductive keep := KeepFirst | KeepFalse.

(** [duplicated(keep='first')]: a row is flagged when an equal row occurs
    before it. *)
Fixpoint duplicated_first (seen : list row) (rs : list row) : list bool :=
  match rs with
  | [] => []
  | r :: rs' => memb r seen :: duplicated_first (r :: seen) rs'
  end.

(** How many times a row occurs. *)
Definition occurrences (r : row) (rs : list row) : nat :=
  length (List.filter (fun r' => bool_decide (r' = r)) rs).

(** [duplicated(keep=False)]: a row is flagged when an equal row occurs
    anywhere else. *)
Definition duplicated_all (rs : list row) : list bool :=
  map (fun r => bool_decide (2 <= occurrences r rs)) rs.

(** [df.duplicated(keep=k)].  On a frame without columns pandas answers
    with an empty mask. *)
Definition duplicated (k : keep) (df : DataFrame) : list bool :=
  if bool_decide (columns df = []) then []
  else match k with
       | KeepFirst => duplicated_first [] (cells df)
       | KeepFalse => duplicated_all (cells df)
       end.

(** Boolean indexing [df[mask]]: the rows whose flag is set, labels kept. *)
Fixpoint select {A} (mask : list bool) (l : list A) : list A :=
  match mask, l with
  | b :: mask', a :: l' => if b then a :: select mask' l' else select mask' l'
  | _, _ => []
  end.

Definition boolean_index (df : DataFrame) (mask : list bool) : DataFrame :=
  mkDF (columns df) (select mask (rows df)).

(** [df.drop_duplicates(keep=k)] is [df[~df.duplicated(keep=k)]]; a frame
    without columns is returned as it is. *)
Definition drop_duplicates (k : keep) (df : DataFrame) : DataFrame :=
  if bool_decide (columns df = []) then df
  else boolean_index df (map negb (duplicated k df)).

(** Fresh [RangeIndex] labels [0 .. n-1]. *)
Definition range_index {A} (l : list A) : list (nat * A) :=
  combine (seq 0 (length l)) l.

(** *** Column dtypes

    pandas stores a column of ints as int64, a column of numbers with a
    float or a missing value among them as float64, and anything else (a
    column without cells too) as object.  The dtype is read off the cells. *)
Inductive dtype := Int64 | Float64 | Object.

Definition is_int (v : value) : bool :=
  match v with VInt _ => true | _ => false end.

Definition is_text (v : value) : bool :=
  match v with VStr _ => true | _ => false end.

Definition is_floating (v : value) : bool :=
  match v with VFloat _ | VNaN => true | _ => false end.

Definition numeric (v : value) : bool :=
  match v with
  | VStr _ => false
  | _ => true
  end.

Definition dtype_of (vs : list value) : dtype :=
  if bool_decide (vs = []) then Object
  else if forallb is_int vs then Int64
  else if forallb numeric vs then Float64
  else Object.

(** The float64 nearest to an integer: 53 significant bits, ties to the
    even mantissa (magnitudes below 2^1024). *)
Definition round53 (z : Z) : Z :=
  let a := Z.abs z in
  let e := (Z.log2 a - 52)%Z in
  if (e <=? 0)%Z then z
  else
    let q := Z.shiftr a e in
    let r := (a - Z.shiftl q e)%Z in
    let half := Z.shiftl 1 (e - 1) in
    let q' := if (r <? half)%Z then q
              else if (half <? r)%Z then (q + 1)%Z
              else if Z.even q then q else (q + 1)%Z in
    (Z.sgn z * Z.shiftl q' e)%Z.

(** A cell stored in a float64 column. *)
Definition to_float (v : value) : value :=
  match v with
  | VInt z => VFloat (round53 z)
  | _ => v
  end.

Definition column_at {A} (j : nat) (rs : list (list A)) : list A :=
  omap (fun r => r !! j) rs.

(** The cells of the column labelled [c]. *)
Definition column_of (df : DataFrame) (c : string) : list value :=
  omap (fun r => get_cell (columns df) r c) (cells df).

(** [pd.concat([a, b], ignore_index=True)]: the columns of [a] followed by
    the new columns of [b]; cells of a column a frame lacks are NaN.  A
    column of numbers in which a float or a missing value meets an int is
    stored as float64, so its ints become floats. *)
Definition reindex_row (from_cols to_cols : list string) (r : row) : row :=
  map (fun c => default VNaN (get_cell from_cols r c)) to_cols.

Definition upcast (rs : list row) : list row :=
  let up j := forallb numeric (column_at j rs) && existsb is_floating (column_at j rs) in
  map (imap (fun j v => if up j then to_float v else v)) rs.

Definition concat (a b : DataFrame) : DataFrame :=
  let cols := columns a ++ List.filter (fun c => negb (memb c (columns a))) (columns b) in
  mkDF cols
       (range_index (upcast (map (reindex_row (columns a) cols) (cells a)
                             ++ map (reindex_row (columns b) cols) (cells b)))).

(** *** Join keys

    Before it joins, [merge] looks at the dtypes of each pair of key
    columns.  Equal dtypes are compared as they are.  int64 against float64
    is compared as float64.  When one side is object and the other a
    number, pandas infers what the object column holds and raises
    [ValueError] for strings against numbers; otherwise the keys are
    compared as Python objects.  Nothing is checked when exactly one of
    the two columns has no cell. *)
Inductive inferred := IInteger | IFloating | IString | IMixedInteger | IMixed | IEmpty.

Definition infer (vs : list value) : inferred :=
  match dtype_of vs with
  | Int64 => IInteger
  | Float64 => IFloating
  | Object =>
      if bool_decide (vs = []) then IEmpty
      else if forallb is_text vs then IString
      else if existsb is_int vs then IMixedInteger
      else IMixed
  end.

Definition bool_like (i : inferred) : bool :=
  match i with IInteger | IMixedInteger | IEmpty => true | _ => false end.

Definition string_like (i : inferred) : bool :=
  match i with IString | IMixed | IEmpty => true | _ => false end.

Inductive key_mode := AsIs | AsFloat | AsObject.

(** [None] stands for the [ValueError].  A pair with exactly one empty side
    is not looked at. *)
Definition key_mode_of (la lb : list value) : option key_mode :=
  if xorb (bool_decide (la = [])) (bool_decide (lb = [])) then Some AsObject
  else
  match dtype_of la, dtype_of lb with
  | Int64, Int64 => Some AsIs
  | Object, Object => Some AsObject
  | Object, _ | _, Object =>
      if bool_like (infer la) && bool_like (infer lb) then Some AsObject
      else if xorb (string_like (infer la)) (string_like (infer lb)) then None
      else Some AsObject
  | _, _ => Some AsFloat
  end.

(** The key a cell is compared by: as a float64, or as a Python object (an
    int and a float of the same value are equal objects). *)
Definition key_norm (m : key_mode) (v : value) : value :=
  match m with
  | AsIs => v
  | AsFloat => to_float v
  | AsObject => match v with VFloat z => VInt z | _ => v end
  end.

(** [pd.merge(a, b, how='inner')] with no [on]: the join keys are the
    columns the two frames share.  pandas raises [MergeError] when there is
    none, or when a shared label is repeated in either frame, and
    [ValueError] for a pair of key columns it cannot compare.  The result
    keeps the order and the values of the left keys, has the columns of [a]
    followed by the other columns of [b], and fresh labels. *)
Definition common_cols (a b : DataFrame) : list string :=
  List.filter (fun c => memb c (columns b)) (columns a).

Definition key_of (modes : list key_mode) (cols on : list string) (r : row)
    : list (option value) :=
  zip_with (fun m c => key_norm m <$> get_cell cols r c) modes on.

Definition unique_b (l : list string) : bool := bool_decide (NoDup l).

(** How each pair of key columns is compared; [None] when a pair cannot be. *)
Definition key_modes (a b : DataFrame) : option (list key_mode) :=
  mapM (fun c => key_mode_of (column_of a c) (column_of b c)) (common_cols a b).

Definition merge (a b : DataFrame) : option DataFrame :=
  let on := common_cols a b in
  let on_b := List.filter (fun c => memb c on) (columns b) in
  if bool_decide (on = []) then None
  else if negb (unique_b on && unique_b on_b) then None
  else
    match key_modes a b with
    | None => None
    | Some modes =>
        let rest := List.filter (fun c => negb (memb c on)) (columns b) in
        Some (mkDF (columns a ++ rest)
          (range_index
            (flat_map (fun ra =>
               map (fun rb => ra ++ map (fun c => default VNaN (get_cell (columns b) rb c)) rest)
                   (List.filter
                      (fun rb => bool_decide (key_of modes (columns b) on rb
                                              = key_of modes (columns a) on ra))
                      (cells b)))
               (cells a))))
    end.

(** [df.copy()] builds an equal frame (a new object, see [new] below). *)
Definition copy (df : DataFrame) : DataFrame := df.

(** Row of a frame under a label (labels are unique in every frame
    [compare] builds). *)
Definition row_at (df : DataFrame) (l : nat) : option row :=
  snd <$> List.find (fun lr => bool_decide (fst lr = l)) (rows df).

(** Elementwise [==]: NaN differs from everything, itself included. *)
Definition cell_eq (u v : value) : bool :=
  match u with
  | VNaN => false
  | _ => bool_decide (u = v)
  end.

(** [a.isin(b)] for a frame [b]: the cell at label [l], column [c] is True
    when [b] has an equal cell at [l], [c].  pandas raises [ValueError]
    when a label or a column of [b] is repeated. *)
Definition isin (a b : DataFrame) : option (list (list bool)) :=
  if bool_decide (NoDup (columns b)) && bool_decide (NoDup (labels b)) then
    Some (map (fun lr =>
            imap (fun j v =>
                    match columns a !! j, row_at b (fst lr) with
                    | Some c, Some rb =>
                        match get_cell (columns b) rb c with
                        | Some w => cell_eq v w
                        | None => false
                        end
                    | _, _ => false
                    end) (snd lr))
          (rows a))
  else None.

(** [~mask] *)
Definition invert (mask : list (list bool)) : list (list bool) :=
  map (map negb) mask.

(** [df[mask]] for a boolean frame [mask] is [df.where(mask)]: cells whose
    flag is False become NaN.  A column of numbers that receives a NaN is
    stored as float64, so its ints become floats. *)
Definition where_ (df : DataFrame) (mask : list (list bool)) : DataFrame :=
  let upcast j :=
    forallb numeric (column_at j (cells df)) && existsb negb (column_at j mask) in
  mkDF (columns df)
    (zip_with (fun lr m =>
       (fst lr,
        imap (fun j v =>
                if default false (m !! j)
                then (if upcast j then to_float v else v)
                else VNaN) (snd lr)))
       (rows df) mask).

Definition map_cells (f : value -> value) (df : DataFrame) : DataFrame :=
  mkDF (columns df) (map (fun lr => (fst lr, map f (snd lr))) (rows df)).

(** [df.fillna(s)] *)
Definition fillna (s : string) : DataFrame -> DataFrame :=
  map_cells (fun v => match v with VNaN => VStr s | _ => v end).

(** [df.replace(old, new)] on whole cells *)
Definition replace (old new : string) : DataFrame -> DataFrame :=
  map_cells (fun v => if bool_decide (v = VStr old) then VStr new else v).

(** A [Series]: labelled values. *)
Definition Series := list (nat * value).

(** [df[c]]: [None] stands for [KeyError]. *)
Definition getitem (df : DataFrame) (c : string) : option Series :=
  match col_pos c (columns df) with
  | Some j => Some (map (fun lr => (fst lr, default VNaN (snd lr !! j))) (rows df))
  | None => None
  end.

(** [str(v)] of a cell; floats are those of integral value, printed with a
    trailing [.0] (below 1e16 in magnitude). *)
Definition str (v : value) : string :=
  match v with
  | VInt z => pretty z
  | VFloat z => pretty z +:+ ".0"
  | VStr s => s
  | VNaN => "nan"
  end.

(** [s.astype(str)] *)
Definition astype_str (s : Series) : Series :=
  map (fun lv => (fst lv, VStr (str (snd lv)))) s.

(** [+] on cells holding strings; anything else is missing. *)
Definition add_cell (u v : value) : value :=
  match u, v with
  | VStr a, VStr b => VStr (a +:+ b)
  | _, _ => VNaN
  end.

(** [s + c] for a string [c] *)
Definition add_str (s : Series) (c : string) : Series :=
  map (fun lv => (fst lv, add_cell (snd lv) (VStr c))) s.

Definition series_at (s : Series) (l : nat) : option value :=
  snd <$> List.find (fun lv => bool_decide (fst lv = l)) s.

(** [s1 + s2]: aligned on labels; a label one side lacks gives NaN.  When
    the labels differ the result carries their sorted union. *)
Definition add_series (s1 s2 : Series) : Series :=
  let ls :=
    if bool_decide (map fst s1 = map fst s2) then map fst s1
    else merge_sort Nat.le (remove_dups (map fst s1 ++ map fst s2)) in
  map (fun l =>
         (l, match series_at s1 l, series_at s2 l with
             | Some u, Some v => add_cell u v
             | _, _ => VNaN
             end)) ls.

(** [df[c] = s] for an existing column [c]: the series is aligned to the
    labels of [df]. *)
Definition setitem (df : DataFrame) (c : string) (s : Series) : DataFrame :=
  match col_pos c (columns df) with
  | Some j =>
      mkDF (columns df)
        (map (fun lr => (fst lr, <[j := default VNaN (series_at s (fst lr))]> (snd lr)))
             (rows df))
  | None =>
      mkDF (columns df ++ [c])
        (map (fun lr => (fst lr, snd lr ++ [default VNaN (series_at s (fst lr))]))
             (rows df))
  end.

End pd.

(** ** Python values, the object store and exceptions *)

Definition loc := nat.

(** The values [compare] can be called with.  [PFrame l] is a reference to
    the frame stored at [l]; [PList] is a list of strings. *)
Inductive pyval :=
| PNone
| PBool (b : bool)
| PInt (z : Z)
| PStr (s : string)
| PList (l : list string)
| PFrame (l : loc).

#[global] Instance pyval_eq_dec : EqDecision pyval.
Proof. solve_decision. Defined.

Inductive exn :=
| ValueError (msg : string)
| KeyError (key : string)
| IndexError
| TypeError
| NameError (name : string)
| AttributeError
| MergeError.

(** What a module-level name is bound to: a dict from strings to values, or
    some other object (a module, a function). *)
Inductive gobj :=
| GDict (d : gmap string pyval)
| GOther.

(** The machine state: the frames of the object store, the text printed so
    far, and the local dict [dict_temp]. *)
Record state := mkState {
  heap : list DataFrame;
  stdout : list string;
  dict_temp : gmap string pyval
}.

Inductive result (A : Type) :=
| Ok (a : A)
| Raise (e : exn).
Arguments Ok {A} a.
Arguments Raise {A} e.

(** Computations that read and update the state and may raise. *)
Definition M (A : Type) : Type := state -> result A * state.

#[global] Instance M_ret : MRet M := fun A a s => (Ok a, s).
#[global] Instance M_bind : MBind M := fun A B f m s =>
  match m s with
  | (Ok a, s') => f a s'
  | (Raise e, s') => (Raise e, s')
  end.

Definition raise {A} (e : exn) : M A := fun s => (Raise e, s).

(** [try: body except: handler] with a bare [except]. *)
Definition try_except (body handler : M unit) : M unit := fun s =>
  match body s with
  | (Ok _, s') => (Ok tt, s')
  | (Raise _, s') => handler s'
  end.

Definition print (line : string) : M unit := fun s =>
  (Ok tt, mkState (heap s) (stdout s ++ [line]) (dict_temp s)).

(** A pandas call returns a new object. *)
Definition new (df : DataFrame) : M pyval := fun s =>
  (Ok (PFrame (length (heap s))), mkState (heap s ++ [df]) (stdout s) (dict_temp s)).

(** The frame behind a value; methods of a frame on any other value raise. *)
Definition load (v : pyval) : M DataFrame := fun s =>
  match v with
  | PFrame l =>
      match heap s !! l with
      | Some df => (Ok df, s)
      | None => (Raise AttributeError, s)
      end
  | _ => (Raise AttributeError, s)
  end.

(** In-place update of the frame behind [v] (as [df[c] = ...] does). *)
Definition store (v : pyval) (df : DataFrame) : M unit := fun s =>
  match v with
  | PFrame l => (Ok tt, mkState (<[l := df]> (heap s)) (stdout s) (dict_temp s))
  | _ => (Raise TypeError, s)
  end.

(** [dict_temp = {}], [dict_temp[k]] and [dict_temp[k] = v] *)
Definition dict_new : M unit := fun s =>
  (Ok tt, mkState (heap s) (stdout s) ∅).

Definition dict_get (k : string) : M pyval := fun s =>
  match dict_temp s !! k with
  | Some v => (Ok v, s)
  | None => (Raise (KeyError k), s)
  end.

(** [return dict_temp] *)
Definition dict_return : M (gmap string pyval) := fun s => (Ok (dict_temp s), s).

Definition dict_set (k : string) (v : pyval) : M unit := fun s =>
  (Ok tt, mkState (heap s) (stdout s) (<[k := v]> (dict_temp s))).

Definition of_option {A} (e : exn) (o : option A) : M A :=
  match o with
  | Some a => mret a
  | None => raise e
  end.

(** [names[i]] *)
Definition names_at (names : pyval) (i : nat) : M string :=
  match names with
  | PList l => of_option IndexError (l !! i)
  | _ => raise TypeError
  end.

(** [if v == True:] -- the test of a flag.  [1 == True] holds in Python; a
    frame compares cell by cell and its truth value raises. *)
Definition eq_True (v : pyval) : M bool :=
  match v with
  | PBool b => mret b
  | PInt z => mret (bool_decide (z = 1%Z))
  | PFrame _ =>
      raise (ValueError ("The truth value of a DataFrame is ambiguous. "
                         +:+ "Use a.empty, a.bool(), a.item(), a.any() or a.all()."))
  | _ => mret false
  end.

(** [v.shape] *)
Definition shape_of (v : pyval) : M (nat * nat) :=
  df ← load v; mret (shape df).

(** The names bound at module level in [my_python.py]: its imports and its
    functions.  [dict_comp] is not among them. *)
Definition module_globals : gmap string gobj :=
  list_to_map
    ((fun n => (n, GOther)) <$>
       ["pd"; "os"; "monthrange"; "np"; "datetime"; "relativedelta"; "re";
        "file_search"; "compare"; "add_time"; "isPalindrome"; "wrap";
        "module_import"; "fracture_list"]).

(** Reading the global [name] and subscripting it with [k]. *)
Definition global_item (g : gmap string gobj) (name k : string) : M pyval :=
  match g !! name with
  | None => raise (NameError name)
  | Some GOther => raise TypeError
  | Some (GDict d) => of_option (KeyError k) (d !! k)
  end.

(** ** [compare] *)

Definition is_frame (v : pyval) : bool := match v with PFrame _ => true | _ => false end.
Definition is_list (v : pyval) : bool := match v with PList _ => true | _ => false end.
Definition is_bool (v : pyval) : bool := match v with PBool _ => true | _ => false end.

(** Lines 147-160: the [isinstance] chain. *)
Definition validate (x y names dups same comment : pyval) : M unit :=
  if negb (is_frame x) then raise (ValueError "Please input x as a pandas.DataFrame")
  else if negb (is_frame y) then raise (ValueError "Please input y as a pandas.DataFrame")
  else if negb (is_list names) then raise (ValueError "Please input names as a list")
  else if negb (is_bool dups) then raise (ValueError "Please input dups as a bool")
  else if negb (is_bool same) then raise (ValueError "Please input same as a bool")
  else if negb (is_bool comment) then raise (ValueError "Please input comment as a bool")
  else mret tt.

(** Lines 164-167. *)
Definition join_body (x y : pyval) : M unit :=
  X ← load x;
  Y ← load y;
  m ← of_option MergeError
        (pd.merge (pd.drop_duplicates pd.KeepFirst X) (pd.drop_duplicates pd.KeepFirst Y));
  r ← new m;
  dict_set "same_values" r.

(** [pd.concat([v, dict_temp['same_values']], ignore_index = True).drop_duplicates(keep = False)] *)
Definition not_in_same (v : pyval) : M pyval :=
  V ← load v;
  s ← dict_get "same_values";
  J ← load s;
  new (pd.drop_duplicates pd.KeepFalse (pd.concat V J)).

(** [names[i] + '_not_' + names[j]] and [names[i] + '_dups'] *)
Definition not_key (names : pyval) (i j : nat) : M string :=
  a ← names_at names i;
  b ← names_at names j;
  mret (a +:+ "_not_" +:+ b).

Definition dups_key (names : pyval) (i : nat) : M string :=
  a ← names_at names i;
  mret (a +:+ "_dups").

(** Lines 168-172.  An assignment evaluates its right-hand side first. *)
Definition outliers_body (x y names : pyval) : M unit :=
  r ← not_in_same x;
  k ← not_key names 0 1;
  dict_set k r;;
  r ← not_in_same y;
  k ← not_key names 1 0;
  dict_set k r.

(** [v[v.duplicated() == True]] *)
Definition duplicates_of (v : pyval) : M pyval :=
  V ← load v;
  new (pd.boolean_index V (pd.duplicated pd.KeepFirst V)).

(** Lines 174-179. *)
Definition dups_body (x y names : pyval) : M unit :=
  r ← duplicates_of x;
  k ← dups_key names 0;
  dict_set k r;;
  r ← duplicates_of y;
  k ← dups_key names 1;
  dict_set k r.

(** Lines 180-187.  [&] evaluates both operands. *)
Definition same_body (x y : pyval) : M unit :=
  sx ← shape_of x;
  sy ← shape_of y;
  sx' ← shape_of x;
  s ← dict_get "same_values";
  ss ← shape_of s;
  if bool_decide (sx = sy) && bool_decide (sx' = ss)
  then dict_set "Same" (PBool true)
  else dict_set "Same" (PBool false).

(** Lines 197-198: [d[a].copy()[~d[a].copy().isin(d[b].copy())].fillna('-')]
    for the global dict [d = dict_comp]. *)
Definition masked_copy (g : gmap string gobj) (a b : string) : M pyval :=
  v1 ← global_item g "dict_comp" a;
  D1 ← load v1;
  c1 ← new (pd.copy D1);
  v2 ← global_item g "dict_comp" a;
  D2 ← load v2;
  c2 ← new (pd.copy D2);
  v3 ← global_item g "dict_comp" b;
  D3 ← load v3;
  c3 ← new (pd.copy D3);
  C2 ← load c2;
  C3 ← load c3;
  mask ← of_option (ValueError "cannot compute isin with a duplicate axis.") (pd.isin C2 C3);
  C1 ← load c1;
  new (pd.fillna "-" (pd.where_ C1 (pd.invert mask))).

(** Lines 200-201: the loop over [df_t.columns], updating [df_t] in place. *)
Fixpoint highlight_loop (df_t df_k : pyval) (cols : list string) : M unit :=
  match cols with
  | [] => mret tt
  | i :: cols' =>
      T ← load df_t;
      st ← of_option (KeyError i) (pd.getitem T i);
      K ← load df_k;
      sk ← of_option (KeyError i) (pd.getitem K i);
      store df_t
        (pd.setitem T i
           (pd.add_series (pd.add_str (pd.astype_str st) "/") (pd.astype_str sk)));;
      highlight_loop df_t df_k cols'
  end.

(** Lines 190-203. *)
Definition highlight_body (g : gmap string gobj) : M unit :=
  df_t ← masked_copy g "df1_not_df2" "df2_not_df1";
  df_k ← masked_copy g "df2_not_df1" "df1_not_df2";
  T ← load df_t;
  highlight_loop df_t df_k (columns T);;
  T ← load df_t;
  r ← new (pd.replace "-/-" "-" T);
  dict_set "highlight" r.

(** [str(dict_temp[k].shape[0])] *)
Definition count_str (k : string) : M string :=
  v ← dict_get k;
  sh ← shape_of v;
  mret (pretty (fst sh)).

(** Lines 208-220. *)
Definition comment_body (names dups same comment : pyval) : M unit :=
  c ← eq_True comment;
  if (c : bool) then
    n ← count_str "same_values";
    print ("same values: " +:+ n);;
    a ← names_at names 0;
    k ← not_key names 0 1;
    n ← count_str k;
    print ("outliers in " +:+ a +:+ ": " +:+ n);;
    b ← names_at names 1;
    k ← not_key names 1 0;
    n ← count_str k;
    print ("outliers in " +:+ b +:+ ": " +:+ n);;
    d ← eq_True dups;
    (if (d : bool) then
       a ← names_at names 0;
       k ← dups_key names 0;
       n ← count_str k;
       print ("duplicates in " +:+ a +:+ ": " +:+ n);;
       b ← names_at names 1;
       k ← dups_key names 1;
       n ← count_str k;
       print ("duplicates in " +:+ b +:+ ": " +:+ n)
     else mret tt);;
    e ← eq_True same;
    (if (e : bool) then
       v ← dict_get "Same";
       t ← eq_True v;
       print ("DataFrames are " +:+ (if (t : bool) then "the same" else "not the same"))
     else mret tt)
  else mret tt.

(** A guarded step: [if flag == True: try: body except: print(msg)]. *)
Definition when_flag (flag : pyval) (body : M unit) (msg : string) : M unit :=
  b ← eq_True flag;
  if (b : bool) then try_except body (print msg) else mret tt.

Definition compare (g : gmap string gobj)
    (x y names dups same comment highlight : pyval) : M (gmap string pyval) :=
  validate x y names dups same comment;;
  dict_new;;
  try_except (join_body x y) (print "Unable to identify same values");;
  try_except (outliers_body x y names) (print "Unable to find outliers");;
  when_flag dups (dups_body x y names) "Unable to find duplicates";;
  when_flag same (same_body x y)
    "Unable to determine whether the Dataframes are the same";;
  when_flag highlight (highlight_body g) "Unable to calculate highlight";;
  try_except (comment_body names dups same comment) (print "Unable to print commentary");;
  dict_return.


(** ** Reading a result *)

(** The frame a result dictionary holds under [k], read from the store. *)
Definition table_of (d : gmap string pyval) (s : state) (k : string) : option DataFrame :=
  match d !! k with
  | Some (PFrame l) => heap s !! l
  | _ => None
  end.

(** A call from a fresh state holding the two input frames, with what it
    returns: the dictionary (if no exception escaped) and the final state. *)
Definition call (g : gmap string gobj) (X Y : DataFrame)
    (names dups same comment highlight : pyval) : result (gmap string pyval) * state :=
  compare g (PFrame 0) (PFrame 1) names dups same comment highlight (mkState [X; Y] [] ∅).

Definition returned (r : result (gmap string pyval) * state) : option (gmap string pyval) :=
  match fst r with
  | Ok d => Some d
  | Raise _ => None
  end.

Definition entry (r : result (gmap string pyval) * state) (k : string) : option pyval :=
  d ← returned r; d !! k.

Definition table (r : result (gmap string pyval) * state) (k : string) : option DataFrame :=
  d ← returned r; table_of d (snd r) k.

(** Rows written as lists of cells, labelled [0 .. n-1]. *)
Definition frame (cols : list string) (rs : list row) : DataFrame :=
  mkDF cols (pd.range_index rs).

(** ** Notions used in the statements *)

(** The rows [drop_duplicates()] keeps: the first occurrence of each. *)
Fixpoint first_occ (seen l : list row) : list row :=
  match l with
  | [] => []
  | r :: l' =>
      if memb r seen then first_occ (r :: seen) l' else r :: first_occ (r :: seen) l'
  end.

Definition once (l : list row) (r : row) : bool :=
  negb (bool_decide (2 <= pd.occurrences r l)).

(** The join of two well-formed frames over the same set of columns: a row
    of [a] is repeated once for every row of [b] that reads the same in the
    column order of [a]. *)
Definition join_rows (f : row -> row) (ca cb : list row) : list row :=
  flat_map (fun ra => map (fun _ => ra) (List.filter (fun rb => bool_decide (f rb = ra)) cb)) ca.

(** [l'] still holds everything [l] held, at the same positions. *)
Definition list_le {A} (l l' : list A) : Prop :=
  forall i a, l !! i = Some a -> l' !! i = Some a.

(** From [s] to [s']: stored frames and printed lines are kept, and only
    entries of [dict_temp] under a key in [K] may have changed. *)
Definition extends (K : string -> Prop) (s s' : state) : Prop :=
  list_le (heap s) (heap s') /\ list_le (stdout s) (stdout s') /\
  forall k, ~ K k -> dict_temp s' !! k = dict_temp s !! k.

(** A computation that, from any state, only [extends] it. *)
Definition grows (K : string -> Prop) {A} (m : M A) : Prop :=
  forall s, extends K s (snd (m s)).

(** The keys the outlier and duplicate steps can store under. *)
Definition not_keys (names : pyval) : list string :=
  match names with
  | PList l =>
      match l !! 0, l !! 1 with
      | Some a, Some b => [a +:+ "_not_" +:+ b; b +:+ "_not_" +:+ a]
      | _, _ => []
      end
  | _ => []
  end.

Definition dups_keys (names : pyval) : list string :=
  match names with
  | PList l =>
      match l !! 0 with
      | Some a =>
          (a +:+ "_dups") :: match l !! 1 with Some b => [b +:+ "_dups"] | None => [] end
      | None => []
      end
  | _ => []
  end.

(** A computation whose result is a reference to an object that did not
    exist in the state it started from. *)
Definition fresh_result (m : M pyval) : Prop :=
  forall s v, fst (m s) = Ok v -> exists l, v = PFrame l /\ length (heap s) <= l.

(** A computation that changes nothing but the frame stored at [lt]. *)
Definition updates_only (lt : loc) {A} (m : M A) : Prop :=
  forall s,
    (forall l, l <> lt -> heap (snd (m s)) !! l = heap s !! l) /\
    stdout (snd (m s)) = stdout s /\ dict_temp (snd (m s)) = dict_temp s.

Fixpoint count_char (c : ascii) (s : string) : nat :=
  match s with
  | EmptyString => 0
  | String c' s' => (if bool_decide (c' = c) then 1 else 0) + count_char c s'
  end.

(** A computation that never raises. *)
Definition total {A} (m : M A) : Prop := forall s, exists a, fst (m s) = Ok a.

(** Lines 174-224 of [compare]: the steps after the outliers. *)
Definition later_steps (g : gmap string gobj)
    (x y names dups same comment highlight : pyval) : M (gmap string pyval) :=
  when_flag dups (dups_body x y names) "Unable to find duplicates";;
  when_flag same (same_body x y)
    "Unable to determine whether the Dataframes are the same";;
  when_flag highlight (highlight_body g) "Unable to calculate highlight";;
  try_except (comment_body names dups same comment) (print "Unable to print commentary");;
  dict_return.

Definition later_keys (names : pyval) (k : string) : Prop :=
  k ∈ dups_keys names \/ k = "Same" \/ k = "highlight".

(** The frame [compare] stores for the rows of [V] "not in" the join [J]:
    [pd.concat([V, J], ignore_index = True).drop_duplicates(keep = False)]. *)
Definition residual (V J : DataFrame) : DataFrame :=
  pd.drop_duplicates pd.KeepFalse (pd.concat V J).

(** The state after the join step. *)
Definition after_join (X Y : DataFrame) (s : state) : state :=
  match pd.merge (pd.drop_duplicates pd.KeepFirst X) (pd.drop_duplicates pd.KeepFirst Y) with
  | Some J =>
      mkState (heap s ++ [J]) (stdout s) {["same_values" := PFrame (length (heap s))]}
  | None => mkState (heap s) (stdout s ++ ["Unable to identify same values"]) ∅
  end.

(** The state after the outlier step, when the join succeeded and [names]
    has two entries. *)
Definition after_outliers (X Y J : DataFrame) (n0 n1 : string) (s : state) : state :=
  let n := length (heap s) in
  mkState (heap s ++ [J; residual X J; residual Y J]) (stdout s)
    (<[n1 +:+ "_not_" +:+ n0 := PFrame (n + 2)]>
       (<[n0 +:+ "_not_" +:+ n1 := PFrame (n + 1)]>
          {["same_values" := PFrame n]})).


(** The state a guarded step leaves: that of its body, with the failure
    message printed when the body raised. *)
Definition caught (body : M unit) (msg : string) (s : state) : state :=
  snd (try_except body (print msg) s).

(** Whether [flag == True] holds, for a flag that is not a frame. *)
Definition flag_on (flag : pyval) : bool :=
  match flag with
  | PBool b => b
  | PInt z => bool_decide (z = 1%Z)
  | _ => false
  end.

Definition guarded (flag : pyval) (body : M unit) (msg : string) (s : state) : state :=
  if flag_on flag then caught body msg s else s.


Section Steps.

Variable g : gmap string gobj.
Variables x y names dups same comment highlight : pyval.
Variable s : state.

(** The states between the steps of one call. *)
Definition st0 : state := mkState (heap s) (stdout s) ∅.
Definition st1 : state :=
  caught (join_body x y) "Unable to identify same values" st0.
Definition st2 : state :=
  caught (outliers_body x y names) "Unable to find outliers" st1.
Definition st3 : state :=
  guarded dups (dups_body x y names) "Unable to find duplicates" st2.
Definition st4 : state :=
  guarded same (same_body x y)
    "Unable to determine whether the Dataframes are the same" st3.
Definition st5 : state :=
  guarded highlight (highlight_body g) "Unable to calculate highlight" st4.
Definition st6 : state :=
  caught (comment_body names dups same comment) "Unable to print commentary" st5.

End Steps.

(** The equality flag of a call with [same = True]. *)
Definition shapes_agree (X Y J : DataFrame) : bool :=
  bool_decide (shape X = shape Y) && bool_decide (shape X = shape J).

(** After the join only the entries of the later steps are added. *)
Definition step_keys (names : pyval) (k : string) : Prop :=
  k ∈ not_keys names \/ k ∈ dups_keys names \/ k = "Same" \/ k = "highlight".

(** An int that fits a column of dtype int64. *)
Definition in_int64 (z : Z) : bool := (- 2 ^ 63 <=? z)%Z && (z <? 2 ^ 63)%Z.

(** Tables of ints and strings.  Column [j] of the rows holds ints only,
    each of them fitting int64, or strings only. *)
Definition one_kind (j : nat) (rs : list row) : bool :=
  forallb (fun r => match r !! j with Some (VInt z) => in_int64 z | _ => false end) rs
  || forallb (fun r => match r !! j with Some (VStr _) => true | _ => false end) rs.

(** A cell that pandas holds and compares as it is given: a string, or an
    int that fits int64. *)
Definition exact_cell (v : value) : bool :=
  match v with VInt z => in_int64 z | VStr _ => true | _ => false end.

(** A table of such cells. *)
Definition exact_table (df : DataFrame) : bool :=
  forallb (forallb exact_cell) (cells df).

(** Two tables over the same columns, each column of ints in both or of
    strings in both: pandas then compares every cell as it is, coerces no
    key and changes the dtype of no column. *)
Definition same_kinds (X Y : DataFrame) : bool :=
  forallb (fun j => one_kind j (cells X ++ cells Y)) (seq 0 (length (columns X))).

Definition plain_at (j : nat) (rs : list row) : Prop :=
  (forall r, r ∈ rs -> exists z, r !! j = Some (VInt z)) \/
  (forall r, r ∈ rs -> exists t, r !! j = Some (VStr t)).

Definition plain_cell (v : value) : bool :=
  match v with VInt _ | VStr _ => true | _ => false end.

(** Every row is as wide as [n] and holds ints and strings only. *)
Definition plain_rows (n : nat) (rs : list row) : Prop :=
  forall r, r ∈ rs -> length r = n /\ Forall (fun v => plain_cell v = true) r.

(** The column [c] of a table holds ints (strings): the table has a row
    and every row has an int (a string) under [c]. *)
Definition int_column (df : DataFrame) (c : string) : Prop :=
  cells df <> [] /\
  forall r, r ∈ cells df -> exists z, get_cell (columns df) r c = Some (VInt z).

Definition str_column (df : DataFrame) (c : string) : Prop :=
  cells df <> [] /\
  forall r, r ∈ cells df -> exists t, get_cell (columns df) r c = Some (VStr t).

(** Under [c] the rows of both tables hold ints, or the rows of both hold
    strings. *)
Definition kinds_agree (X Y : DataFrame) (c : string) : Prop :=
  ((forall r, r ∈ cells X -> exists z, get_cell (columns X) r c = Some (VInt z)) /\
   (forall r, r ∈ cells Y -> exists z, get_cell (columns Y) r c = Some (VInt z))) \/
  ((forall r, r ∈ cells X -> exists t, get_cell (columns X) r c = Some (VStr t)) /\
   (forall r, r ∈ cells Y -> exists t, get_cell (columns Y) r c = Some (VStr t))).

(** The rows that repeat an earlier row, under their labels: the row at
    position [i] is one of them when its cells are those of one of the
    first [i] rows. *)
Definition later_copies (rs : list (nat * row)) : list (nat * row) :=
  omap (fun i =>
          lr ← rs !! i;
          if memb (snd lr) (take i (map snd rs)) then Some lr else None)
       (seq 0 (length rs)).




(** ** Scenarios *)

(** The two tables of the worked scenario. *)
Definition spec_A : DataFrame :=
  frame ["id"; "v"] [[VInt 1; VStr "a"]; [VInt 2; VStr "b"]].
Definition spec_B : DataFrame :=
  frame ["id"; "v"] [[VInt 1; VStr "a"]; [VInt 2; VStr "c"]].

(** One-column tables. *)
Definition column_x (zs : list Z) : DataFrame := frame ["x"] (map (fun z => [VInt z]) zs).

(** A module-level [dict_comp] whose two tables are the inputs themselves:
    the highlight step then runs to its end, in-place updates included. *)
Definition aliasing_globals : gmap string gobj :=
  <["dict_comp" := GDict (<["df1_not_df2" := PFrame 0]> {["df2_not_df1" := PFrame 1]})]>
    module_globals.

(** An int that float64 cannot hold, and the float it rounds to. *)
Definition int_above_2_53 : DataFrame := frame ["x"] [[VInt 9007199254740993]].
Definition float_2_53 : DataFrame := frame ["x"] [[VFloat 9007199254740992]].

(** Two tables that share the column [id] only. *)
Definition left_iv : DataFrame := frame ["id"; "v"] [[VInt 1; VStr "a"]].
Definition right_iw : DataFrame := frame ["id"; "w"] [[VInt 1; VStr "b"]].

(** ** The other functions of [my_python.py] *)

(** Exceptions of the helper functions. *)
Inductive error :=
| EValueError (msg : string)
| EAssertionError (msg : string)
| EZeroDivisionError
| ERecursionError
| EOSError.

Inductive outcome (A : Type) :=
| Return (a : A)
| Throw (e : error).
Arguments Return {A} a.
Arguments Throw {A} e.

(** A Python [str] as the list of its characters (code points below 256). *)
Definition pystr := list ascii.

(** *** Slices and ranges *)

(** A slice bound [i] of a sequence of length [n]: a negative bound counts
    from the end, and bounds are clamped to [0 .. n]. *)
Definition clamp (n : nat) (i : Z) : nat :=
  if (i <? 0)%Z then Z.to_nat (Z.max 0 (Z.of_nat n + i)) else Nat.min (Z.to_nat i) n.

(** [l[a:b]] *)
Definition py_slice {A} (l : list A) (a b : Z) : list A :=
  take (clamp (length l) b - clamp (length l) a) (drop (clamp (length l) a) l).

(** [range(start, stop, step)]: [ValueError] for a zero step. *)
Fixpoint range_up (fuel : nat) (start stop step : Z) : list Z :=
  match fuel with
  | 0 => []
  | S fuel' =>
      if (start <? stop)%Z then start :: range_up fuel' (start + step) stop step else []
  end.

Fixpoint range_down (fuel : nat) (start stop step : Z) : list Z :=
  match fuel with
  | 0 => []
  | S fuel' =>
      if (stop <? start)%Z then start :: range_down fuel' (start + step) stop step else []
  end.

Definition py_range (start stop step : Z) : outcome (list Z) :=
  if (step =? 0)%Z then Throw (EValueError "range() arg 3 must not be zero")
  else if (0 <? step)%Z then Return (range_up (Z.to_nat (stop - start)) start stop step)
  else Return (range_down (Z.to_nat (start - stop)) start stop step).

(** [sep.join(parts)] *)
Fixpoint join {A} (sep : list A) (parts : list (list A)) : list A :=
  match parts with
  | [] => []
  | [p] => p
  | p :: parts' => p ++ sep ++ join sep parts'
  end.

Definition newline : ascii := "010"%char.

(** *** [wrap], lines 242-244 *)

Definition wrap (string : pystr) (max_width : Z) : outcome pystr :=
  match py_range 0 (Z.of_nat (length string)) max_width with
  | Throw e => Throw e
  | Return ts =>
      Return (join [newline] (map (fun t => py_slice string t (t + max_width)) ts))
  end.

(** *** [fracture_list], lines 256-260 *)

Definition fracture_list {A} (l : list A) (n : Z) : outcome (list (list A)) :=
  if negb (n <=? Z.of_nat (length l))%Z
  then Throw (EAssertionError
                ("Length of list must be greater or equal than number of elements in each split: "
                 +:+ pretty n))
  else if (n =? 0)%Z then Throw EZeroDivisionError
  else
    match py_range 0 (- (- Z.of_nat (length l) / n)) 1 with
    | Throw e => Throw e
    | Return is_ => Return (map (fun i => py_slice l (n * i) (n * (i + 1))) is_)
    end.

(** *** [isPalindrome], lines 233-240 *)

(** [c.lower()]: the capital letters [A-Z], and those of Latin-1 ([À-Ö],
    [Ø-Þ]), move 32 code points up. *)
Definition lower_char (c : ascii) : ascii :=
  let n := nat_of_ascii c in
  if ((65 <=? n)%nat && (n <=? 90)%nat)
     || ((192 <=? n)%nat && (n <=? 222)%nat && negb (n =? 215)%nat)
  then ascii_of_nat (n + 32)
  else c.

Definition space : ascii := " "%char.

(** [''.join(string.lower().split(' '))]: lowered, every space removed. *)
Definition squash (string : pystr) : pystr :=
  List.filter (fun c => negb (bool_decide (c = space))) (map lower_char string).

(** [depth] is the number of calls the interpreter still allows; beyond it
    a call raises [RecursionError]. *)
Fixpoint isPalindrome (depth : nat) (string : pystr) : outcome bool :=
  match depth with
  | 0 => Throw ERecursionError
  | S depth' =>
      let s := squash string in
      if memb (length s) [0; 1] then Return true
      else if bool_decide (s !! 0 = last s)
           then isPalindrome depth' (py_slice s 1 (-1))
           else Return false
  end.

(** *** [file_search], lines 10-80 *)

(** [file.split('.')[-1]]: what follows the last dot, the whole name when
    it has none. *)
Fixpoint last_component (acc : string) (file : string) : string :=
  match file with
  | EmptyString => acc
  | String c rest =>
      if bool_decide (c = "."%char) then last_component "" rest
      else last_component (acc +:+ String c "") rest
  end.

(** [x in file] for two strings *)
Fixpoint contains (x file : string) : bool :=
  String.prefix x file ||
  match file with
  | EmptyString => false
  | String _ rest => contains x rest
  end.

Definition is_str (v : pyval) : bool := match v with PStr _ => true | _ => false end.

(** [listdir] stands for [os.listdir]: the names in a directory, [None]
    when it cannot be listed. *)
Definition file_search (listdir : string -> option (list string))
    (path doctype like strict : pyval) : outcome (list string) :=
  match path, doctype, like, strict with
  | PStr p, PStr ext, PList words, PBool b =>
      match listdir p with
      | None => Throw EOSError
      | Some files =>
          Return
            (List.filter
               (fun file =>
                  String.eqb (last_component "" file) ext
                  && (if b then forallb (fun x => contains x file) words
                      else existsb (fun x => contains x file) words))
               files)
      end
  | PStr _, PStr _, PList _, _ => Throw (EValueError "Please input strict as a bool")
  | PStr _, PStr _, _, _ => Throw (EValueError "Please input like as a list")
  | PStr _, _, _, _ => Throw (EValueError "Please input doctype as a string")
  | _, _, _, _ => Throw (EValueError "Please input path as a string")
  end.

(** Cutting a list into pieces of [w] elements, the last one possibly
    shorter. *)
Fixpoint chunks_aux {A} (fuel w : nat) (l : list A) : list (list A) :=
  match fuel with
  | 0 => []
  | S fuel' =>
      match l with
      | [] => []
      | _ => take w l :: chunks_aux fuel' w (drop w l)
      end
  end.

Definition chunks {A} (w : nat) (l : list A) : list (list A) :=
  chunks_aux (length l) w l.

(** Pieces of at most [w] elements, none empty, all but the last full. *)
Definition pieces_of {A} (w : nat) (parts : list (list A)) : Prop :=
  Forall (fun c => c <> [] /\ length c <= w) parts /\
  forall i c, parts !! i = Some c -> S i < length parts -> length c = w.

(** * Properties *)

(** ** Lists of rows *)

Section RowLists.

Implicit Types (r : row) (l seen : list row).

Lemma select_map {A B} (f : A -> B) (m : list bool) (l : list A) :
  pd.select m (map f l) = map f (pd.select m l).
Proof.
  revert l; induction m as [|b m IH]; intros [|a l]; simpl; try reflexivity.
  destruct b; simpl; rewrite IH; reflexivity.
Qed.


Lemma select_first seen l :
  pd.select (map negb (pd.duplicated_first seen l)) l = first_occ seen l.
Proof.
  revert seen; induction l as [|r l IH]; intros seen; simpl; [reflexivity|].
  destruct (memb r seen); simpl; rewrite IH; reflexivity.
Qed.

Lemma memb_true {A} `{EqDecision A} (a : A) (l : list A) : memb a l = true <-> a ∈ l.
Proof. unfold memb. rewrite bool_decide_eq_true. reflexivity. Qed.

Lemma memb_false {A} `{EqDecision A} (a : A) (l : list A) : memb a l = false <-> a ∉ l.
Proof. unfold memb. rewrite bool_decide_eq_false. reflexivity. Qed.

Lemma elem_of_first_occ r seen l :
  r ∈ first_occ seen l <-> r ∈ l /\ r ∉ seen.
Proof.
  revert seen; induction l as [|a l IH]; intros seen; simpl.
  - split; [intros H; inversion H | intros [H _]; inversion H].
  - destruct (memb a seen) eqn:E.
    + apply memb_true in E. rewrite IH, !elem_of_cons.
      split; [tauto|]. intros [[->|H] Hn]; [contradiction|].
      split; [assumption|]. intros [->|?]; contradiction.
    + apply memb_false in E. rewrite !elem_of_cons, IH, elem_of_cons.
      split.
      * intros [->|[H Hn]]; [tauto|]. split; [tauto|]. intros Hs; apply Hn; tauto.
      * intros [[->|H] Hn]; [tauto|].
        destruct (decide (r = a)) as [->|Hne]; [tauto|].
        right. split; [assumption|]. intros [?|?]; [congruence | contradiction].
Qed.

Lemma NoDup_first_occ seen l : NoDup (first_occ seen l).
Proof.
  revert seen; induction l as [|a l IH]; intros seen; simpl; [constructor|].
  destruct (memb a seen); [apply IH|].
  constructor; [|apply IH].
  rewrite elem_of_first_occ. intros [_ H]. apply H. left.
Qed.

Lemma first_occ_length seen l : length (first_occ seen l) <= length l.
Proof.
  revert seen; induction l as [|a l IH]; intros seen; simpl; [lia|].
  pose proof (IH (a :: seen)). destruct (memb a seen); simpl; lia.
Qed.

Lemma first_occ_sub r seen l : r ∈ first_occ seen l -> r ∈ l.
Proof. rewrite elem_of_first_occ. tauto. Qed.

(** Counting the occurrences of a row. *)
Lemma occurrences_app r l1 l2 :
  pd.occurrences r (l1 ++ l2) = pd.occurrences r l1 + pd.occurrences r l2.
Proof. unfold pd.occurrences. rewrite List.filter_app, length_app. reflexivity. Qed.

Lemma occurrences_cons r a l :
  pd.occurrences r (a :: l) = (if bool_decide (a = r) then 1 else 0) + pd.occurrences r l.
Proof. unfold pd.occurrences. simpl. destruct (bool_decide (a = r)); reflexivity. Qed.

Lemma occurrences_pos r l : r ∈ l <-> 1 <= pd.occurrences r l.
Proof.
  induction l as [|a l IH].
  - split; [intros H; inversion H | unfold pd.occurrences; simpl; lia].
  - rewrite occurrences_cons, elem_of_cons, IH.
    destruct (bool_decide (a = r)) eqn:E.
    + apply bool_decide_eq_true in E. split; [lia | auto].
    + apply bool_decide_eq_false in E. split; [intros [->|?]; [congruence | lia] | intros; right; lia].
Qed.



End RowLists.

(** ** The pandas operations on well-formed frames *)

Lemma cells_boolean_index df mask :
  cells (pd.boolean_index df mask) = pd.select mask (cells df).
Proof. unfold cells, pd.boolean_index. simpl. symmetry. apply select_map. Qed.

Lemma cells_drop_first df :
  columns df <> [] ->
  cells (pd.drop_duplicates pd.KeepFirst df) = first_occ [] (cells df).
Proof.
  intros Hne. unfold pd.drop_duplicates, pd.duplicated.
  rewrite !bool_decide_eq_false_2 by exact Hne.
  rewrite cells_boolean_index. apply select_first.
Qed.


Lemma columns_drop_duplicates k df : columns (pd.drop_duplicates k df) = columns df.
Proof. unfold pd.drop_duplicates. destruct (bool_decide (columns df = [])); reflexivity. Qed.

Lemma cells_drop_sub k df r : r ∈ cells (pd.drop_duplicates k df) -> r ∈ cells df.
Proof.
  unfold pd.drop_duplicates. destruct (bool_decide (columns df = [])); [auto|].
  rewrite cells_boolean_index. generalize (map negb (pd.duplicated k df)).
  generalize (cells df). intros l m. revert l.
  induction m as [|b m IH]; intros [|a l]; simpl; try (intros H; inversion H; fail).
  destruct b; rewrite ?elem_of_cons; intros H; [destruct H as [->|H]|]; auto.
Qed.

Lemma length_range_index {A} (l : list A) : length (pd.range_index l) = length l.
Proof. unfold pd.range_index. rewrite length_combine, length_seq. lia. Qed.

Lemma labels_range_index {A} (l : list A) : map fst (pd.range_index l) = seq 0 (length l).
Proof.
  unfold pd.range_index. generalize 0.
  induction l as [|a l IH]; intros n; simpl; [reflexivity|]. rewrite IH. reflexivity.
Qed.

Lemma cells_range_index (l : list row) : map snd (pd.range_index l) = l.
Proof.
  unfold pd.range_index. generalize 0.
  induction l as [|a l IH]; intros n; simpl; [reflexivity|]. rewrite IH. reflexivity.
Qed.

Lemma col_pos_app (c : string) (pre suf : list string) :
  c ∉ pre -> col_pos c (pre ++ c :: suf) = Some (length pre).
Proof.
  induction pre as [|a pre IH]; simpl; intros H.
  - rewrite bool_decide_eq_true_2; reflexivity.
  - rewrite not_elem_of_cons in H. destruct H as [Hne H].
    rewrite bool_decide_eq_false_2 by congruence. rewrite IH by assumption. reflexivity.
Qed.

Lemma col_pos_Some (c : string) (cols : list string) :
  c ∈ cols -> exists j, col_pos c cols = Some j /\ cols !! j = Some c.
Proof.
  induction cols as [|a cols IH]; simpl; intros H; [inversion H|].
  destruct (decide (a = c)) as [->|Hne].
  - exists 0. rewrite bool_decide_eq_true_2; auto.
  - rewrite bool_decide_eq_false_2 by assumption.
    apply elem_of_cons in H as [?|H]; [congruence|].
    destruct (IH H) as (j & -> & Hj). exists (S j). auto.
Qed.

(** Reading a full-width row back under its own columns gives the row. *)
Lemma reindex_suffix (pre cols : list string) (r : row) :
  NoDup (pre ++ cols) -> length r = length pre + length cols ->
  map (fun c => default VNaN (get_cell (pre ++ cols) r c)) cols = drop (length pre) r.
Proof.
  revert pre; induction cols as [|c cols IH]; intros pre Hnd Hlen; simpl.
  - rewrite drop_ge; [reflexivity|]. simpl in Hlen. lia.
  - simpl in Hlen. unfold get_cell at 1. rewrite col_pos_app.
    2:{ apply NoDup_app in Hnd as (_ & Hd & _). intros Hin. apply (Hd c Hin). left. }
    destruct (r !! length pre) as [v|] eqn:Ev.
    2:{ apply lookup_ge_None in Ev. lia. }
    rewrite (drop_S _ _ _ Ev). simpl. f_equal.
    specialize (IH (pre ++ [c])). rewrite <- app_assoc in IH. simpl in IH.
    rewrite IH; [rewrite length_app; simpl; f_equal; lia | assumption |].
    rewrite length_app. simpl. lia.
Qed.

Lemma reindex_row_id (cols : list string) (r : row) :
  NoDup cols -> length r = length cols -> pd.reindex_row cols cols r = r.
Proof.
  intros Hnd Hlen. unfold pd.reindex_row.
  apply (reindex_suffix [] cols r Hnd Hlen).
Qed.

Lemma filter_all {A} (f : A -> bool) (l : list A) :
  (forall a, a ∈ l -> f a = true) -> List.filter f l = l.
Proof.
  induction l as [|a l IH]; simpl; intros H; [reflexivity|].
  rewrite (H a) by left. f_equal. apply IH. intros b Hb. apply H. right. exact Hb.
Qed.

Lemma filter_none {A} (f : A -> bool) (l : list A) :
  (forall a, a ∈ l -> f a = false) -> List.filter f l = [].
Proof.
  induction l as [|a l IH]; simpl; intros H; [reflexivity|].
  rewrite (H a) by left. apply IH. intros b Hb. apply H. right. exact Hb.
Qed.

Lemma filter_ext_elem {A} (f g : A -> bool) (l : list A) :
  (forall a, a ∈ l -> f a = g a) -> List.filter f l = List.filter g l.
Proof.
  intros H. apply List.filter_ext_in. intros a Ha. apply H. apply list_elem_of_In. exact Ha.
Qed.

Lemma flat_map_ext_elem {A B} (f g : A -> list B) (l : list A) :
  (forall a, a ∈ l -> f a = g a) -> flat_map f l = flat_map g l.
Proof.
  induction l as [|a l IH]; simpl; intros H; [reflexivity|].
  rewrite (H a) by left. f_equal. apply IH. intros b Hb. apply H. right. exact Hb.
Qed.

Lemma map_Some_inj {A} (l k : list A) : map Some l = map Some k -> l = k.
Proof.
  revert k; induction l as [|a l IH]; intros [|b k]; simpl; intros H; try congruence.
  injection H as -> H. f_equal. apply IH. exact H.
Qed.

Lemma wf_cells_length df r : wf_frame df -> r ∈ cells df -> length r = length (columns df).
Proof.
  intros [_ Hall] Hr. rewrite Forall_forall in Hall. apply Hall.
  exact Hr.
Qed.

(** ** Tables of ints and strings *)

Lemma same_kinds_spec X Y :
  same_kinds X Y = true -> forall j, j < length (columns X) -> plain_at j (cells X ++ cells Y).
Proof.
  unfold same_kinds. rewrite forallb_forall. intros H j Hj.
  specialize (H j). rewrite in_seq in H. specialize (H ltac:(lia)).
  unfold one_kind in H. apply orb_true_iff in H as [H|H]; [left|right];
    rewrite forallb_forall in H; intros r Hr; apply list_elem_of_In in Hr;
    specialize (H r Hr); destruct (r !! j) as [[]|]; try discriminate; eauto.
Qed.

Lemma same_kinds_sym X Y :
  columns X = columns Y -> same_kinds X Y = true -> same_kinds Y X = true.
Proof.
  unfold same_kinds. intros Hcols H. rewrite <- Hcols.
  rewrite forallb_forall in *. intros j Hj. specialize (H j Hj).
  unfold one_kind in *. rewrite !forallb_app in *.
  rewrite (andb_comm (forallb _ (cells Y))), (andb_comm (forallb _ (cells Y))). exact H.
Qed.

Lemma plain_at_sub j rs rs' : (forall r, r ∈ rs' -> r ∈ rs) -> plain_at j rs -> plain_at j rs'.
Proof. intros Hsub [H|H]; [left|right]; intros r Hr; apply H, Hsub, Hr. Qed.

Lemma plain_at_rows n rs :
  (forall r, r ∈ rs -> length r = n) -> (forall j, j < n -> plain_at j rs) -> plain_rows n rs.
Proof.
  intros Hlen Hp r Hr. split; [apply Hlen, Hr|].
  apply Forall_lookup. intros j v Hv.
  assert (Hj : j < n). { rewrite <- (Hlen r Hr). eapply lookup_lt_Some, Hv. }
  destruct (Hp j Hj) as [H|H]; destruct (H r Hr) as [w Hw]; unfold row in *;
    rewrite Hw in Hv; injection Hv as <-; reflexivity.
Qed.

Lemma dtype_of_ints l :
  l <> [] -> Forall (fun v => pd.is_int v = true) l -> pd.dtype_of l = pd.Int64.
Proof.
  intros Hne H. unfold pd.dtype_of. rewrite bool_decide_eq_false_2 by exact Hne.
  rewrite (proj2 (forallb_forall _ _)); [reflexivity|].
  intros v Hv. rewrite Forall_forall in H. apply H, list_elem_of_In, Hv.
Qed.

Lemma dtype_of_strs l :
  Forall (fun v => pd.is_text v = true) l -> pd.dtype_of l = pd.Object.
Proof.
  intros H. unfold pd.dtype_of. destruct l as [|v l]; [reflexivity|].
  rewrite bool_decide_eq_false_2 by discriminate.
  apply Forall_cons in H as [Hv _]. destruct v; try discriminate. reflexivity.
Qed.

Lemma infer_ints l :
  l <> [] -> Forall (fun v => pd.is_int v = true) l -> pd.infer l = pd.IInteger.
Proof. intros Hne H. unfold pd.infer. rewrite dtype_of_ints by assumption. reflexivity. Qed.

(** Key columns of one kind are compared as they are. *)
Lemma key_mode_plain la lb :
  Forall (fun v => pd.is_int v = true) (la ++ lb) \/
  Forall (fun v => pd.is_text v = true) (la ++ lb) ->
  exists m, pd.key_mode_of la lb = Some m /\ m <> pd.AsFloat.
Proof.
  intros H. unfold pd.key_mode_of.
  destruct (decide (la = [])) as [->|Na]; destruct (decide (lb = [])) as [->|Nb].
  - exists pd.AsObject. split; [reflexivity | discriminate].
  - rewrite bool_decide_eq_true_2 by reflexivity. rewrite bool_decide_eq_false_2 by exact Nb.
    exists pd.AsObject. split; [reflexivity | discriminate].
  - rewrite (bool_decide_eq_false_2 (la = [])) by exact Na.
    rewrite bool_decide_eq_true_2 by reflexivity.
    exists pd.AsObject. split; [reflexivity | discriminate].
  - rewrite !bool_decide_eq_false_2 by assumption. cbn [xorb].
    destruct H as [H|H]; apply Forall_app in H as [Ha Hb].
    + rewrite (dtype_of_ints la Na Ha), (dtype_of_ints lb Nb Hb).
      exists pd.AsIs. split; [reflexivity | discriminate].
    + rewrite (dtype_of_strs la Ha), (dtype_of_strs lb Hb).
      exists pd.AsObject. split; [reflexivity | discriminate].
Qed.

Lemma key_norm_plain m v : m <> pd.AsFloat -> plain_cell v = true -> pd.key_norm m v = v.
Proof. intros Hm Hv. destruct m, v; try discriminate; try reflexivity. contradiction. Qed.

Lemma key_of_plain modes cols on (r : row) :
  Forall2 (fun m c => exists v, get_cell cols r c = Some v /\ pd.key_norm m v = v) modes on ->
  pd.key_of modes cols on r = map Some (pd.reindex_row cols on r).
Proof.
  unfold pd.key_of, pd.reindex_row.
  induction 1 as [|m c modes on (v & Hv & Hn) _ IH]; simpl; [reflexivity|].
  rewrite Hv, IH. simpl. rewrite Hn. reflexivity.
Qed.

Lemma Forall2_mapM_elem {A B} (f : A -> option B) (P : B -> A -> Prop) l k :
  mapM f l = Some k -> (forall x y, x ∈ l -> f x = Some y -> P y x) -> Forall2 P k l.
Proof.
  rewrite mapM_Some. induction 1 as [|x y l k Hxy _ IH]; intros HP; constructor.
  - apply HP; [left | exact Hxy].
  - apply IH. intros x' y' Hx'. apply HP. right. exact Hx'.
Qed.

Lemma get_cell_lookup cols (r : row) c j :
  col_pos c cols = Some j -> get_cell cols r c = r !! j.
Proof. intros H. unfold get_cell. rewrite H. reflexivity. Qed.

Lemma column_of_kind (P : value -> bool) df c j :
  col_pos c (columns df) = Some j ->
  (forall r, r ∈ cells df -> exists v, r !! j = Some v /\ P v = true) ->
  Forall (fun v => P v = true) (pd.column_of df c).
Proof.
  intros Hc H. unfold pd.column_of. apply Forall_forall. intros v Hv.
  apply list_elem_of_omap in Hv as (r & Hr & Hg).
  rewrite (get_cell_lookup _ _ _ _ Hc) in Hg.
  destruct (H r Hr) as (w & Hw & HP). congruence.
Qed.

(** The key columns of two tables of one kind per column can be compared. *)
Lemma key_mode_same_kinds a b c j :
  col_pos c (columns a) = Some j -> columns a = columns b ->
  plain_at j (cells a ++ cells b) ->
  exists m, pd.key_mode_of (pd.column_of a c) (pd.column_of b c) = Some m /\ m <> pd.AsFloat.
Proof.
  intros Hc Hcols Hp. apply key_mode_plain.
  assert (Hc' : col_pos c (columns b) = Some j) by (rewrite <- Hcols; exact Hc).
  destruct Hp as [H|H]; [left|right]; apply Forall_app; split.
  - apply (column_of_kind pd.is_int a c j Hc). intros r Hr.
    destruct (H r) as [z Hz]; [apply elem_of_app; left; exact Hr|]. eauto.
  - apply (column_of_kind pd.is_int b c j Hc'). intros r Hr.
    destruct (H r) as [z Hz]; [apply elem_of_app; right; exact Hr|]. eauto.
  - apply (column_of_kind pd.is_text a c j Hc). intros r Hr.
    destruct (H r) as [z Hz]; [apply elem_of_app; left; exact Hr|]. eauto.
  - apply (column_of_kind pd.is_text b c j Hc'). intros r Hr.
    destruct (H r) as [z Hz]; [apply elem_of_app; right; exact Hr|]. eauto.
Qed.

(** On two tables of ints and strings over the same columns, [merge] is
    the join on whole rows. *)
Lemma merge_same_cols a b :
  wf_frame a -> wf_frame b -> columns a <> [] -> columns a = columns b ->
  (forall j, j < length (columns a) -> plain_at j (cells a ++ cells b)) ->
  pd.merge a b =
    Some (mkDF (columns a)
            (pd.range_index (join_rows (fun r => r) (cells a) (cells b)))).
Proof.
  intros Ha Hb Hne Hcols Hp. unfold pd.merge, pd.key_modes, pd.common_cols.
  assert (Hon : List.filter (fun c => memb c (columns b)) (columns a) = columns a).
  { apply filter_all. intros c Hc. apply memb_true. rewrite <- Hcols. exact Hc. }
  rewrite Hon.
  assert (Honb : List.filter (fun c => memb c (columns a)) (columns b) = columns b).
  { apply filter_all. intros c Hc. apply memb_true. rewrite Hcols. exact Hc. }
  rewrite Honb.
  assert (Hrest : List.filter (fun c => negb (memb c (columns a))) (columns b) = []).
  { apply filter_none. intros c Hc. apply negb_false_iff, memb_true. rewrite Hcols. exact Hc. }
  rewrite Hrest.
  rewrite bool_decide_eq_false_2 by assumption.
  unfold pd.unique_b. rewrite !bool_decide_eq_true_2 by (apply Ha || apply Hb).
  cbn [negb andb].
  assert (Hmode : forall c, c ∈ columns a ->
            exists j m, col_pos c (columns a) = Some j /\ j < length (columns a) /\
              pd.key_mode_of (pd.column_of a c) (pd.column_of b c) = Some m /\
              m <> pd.AsFloat).
  { intros c Hc. destruct (col_pos_Some c _ Hc) as (j & Hj & Hl).
    assert (Hlt : j < length (columns a)) by (eapply lookup_lt_Some, Hl).
    destruct (key_mode_same_kinds a b c j Hj Hcols (Hp j Hlt)) as (m & Hm & Hf).
    exists j, m. auto. }
  destruct (mapM _ (columns a)) as [modes|] eqn:Emodes.
  2:{ exfalso. apply eq_None_not_Some in Emodes. apply Emodes.
      apply mapM_is_Some. apply Forall_forall. intros c Hc.
      destruct (Hmode c Hc) as (j & m & _ & _ & Hm & _). unfold compose. rewrite Hm. eauto. }
  assert (Hkey : forall r, r ∈ cells a ++ cells b ->
            pd.key_of modes (columns a) (columns a) r = map Some r).
  { intros r Hr.
    assert (Hlen : length r = length (columns a)).
    { apply elem_of_app in Hr as [Hr|Hr]; [apply wf_cells_length; assumption|].
      rewrite Hcols. apply wf_cells_length; assumption. }
    rewrite key_of_plain.
    - rewrite reindex_row_id; [reflexivity | apply Ha | exact Hlen].
    - eapply Forall2_mapM_elem; [exact Emodes|]. intros c m Hc Hm.
      destruct (Hmode c Hc) as (j & m' & Hj & Hlt & Hm' & Hf).
      assert (m' = m) by congruence. subst m'.
      rewrite (get_cell_lookup _ _ _ _ Hj).
      destruct (Hp j Hlt) as [H|H]; destruct (H r Hr) as [w Hw]; rewrite Hw;
        eexists; (split; [reflexivity|]); apply key_norm_plain; auto. }
  rewrite app_nil_r. do 3 f_equal. unfold join_rows.
  apply flat_map_ext_elem. intros ra Hra.
  rewrite map_ext with (g := fun _ => ra) by (intros; apply app_nil_r).
  f_equal. apply filter_ext_elem. intros rb Hrb.
  rewrite <- Hcols.
  rewrite (Hkey rb) by (apply elem_of_app; right; exact Hrb).
  rewrite (Hkey ra) by (apply elem_of_app; left; exact Hra).
  apply bool_decide_ext. split; [apply map_Some_inj | intros ->; reflexivity].
Qed.

Lemma wf_drop_duplicates k df : wf_frame df -> wf_frame (pd.drop_duplicates k df).
Proof.
  intros [Hnd Hall]. split; [rewrite columns_drop_duplicates; exact Hnd|].
  rewrite columns_drop_duplicates.
  rewrite Forall_forall in *. intros r Hr. apply Hall. eapply cells_drop_sub, Hr.
Qed.

Lemma imap_same {A} (f : nat -> A -> A) (l : list A) :
  (forall i x, l !! i = Some x -> f i x = x) -> imap f l = l.
Proof.
  revert f. induction l as [|a l IH]; intros f H; [reflexivity|].
  rewrite imap_cons. rewrite (H 0 a eq_refl). f_equal.
  apply IH. intros i x Hx. apply (H (S i) x Hx).
Qed.

(** Rows of ints and strings keep their cells: no column is upcast. *)
Lemma upcast_plain n rs : plain_rows n rs -> pd.upcast rs = rs.
Proof.
  intros Hp. unfold pd.upcast.
  rewrite <- (map_id rs) at 2. apply map_ext_in. intros r Hr.
  apply imap_same. intros j v Hv.
  assert (Hup : existsb pd.is_floating (pd.column_at j rs) = false).
  { apply not_true_is_false. intros H. apply existsb_exists in H as (w & Hw & Hf).
    apply list_elem_of_In in Hw. unfold pd.column_at in Hw.
    apply list_elem_of_omap in Hw as (r' & Hr' & Hl).
    destruct (Hp r' Hr') as [_ Hall]. rewrite Forall_lookup in Hall.
    specialize (Hall j w Hl). destruct w; discriminate. }
  rewrite Hup, andb_false_r. reflexivity.
Qed.

Lemma concat_same_cols a b :
  wf_frame a -> wf_frame b -> columns a = columns b ->
  plain_rows (length (columns a)) (cells a ++ cells b) ->
  pd.concat a b = mkDF (columns a) (pd.range_index (cells a ++ cells b)).
Proof.
  intros Ha Hb Hcols Hp. unfold pd.concat.
  assert (Hrest : List.filter (fun c => negb (memb c (columns a))) (columns b) = []).
  { apply filter_none. intros c Hc. apply negb_false_iff, memb_true. rewrite Hcols. exact Hc. }
  rewrite Hrest, app_nil_r. cbv zeta.
  assert (E : map (pd.reindex_row (columns a) (columns a)) (cells a)
              ++ map (pd.reindex_row (columns b) (columns a)) (cells b)
              = cells a ++ cells b).
  { f_equal.
    - rewrite <- (map_id (cells a)) at 2. apply map_ext_in. intros r Hr.
      apply reindex_row_id; [apply Ha|]. apply wf_cells_length; [exact Ha|].
      apply list_elem_of_In. exact Hr.
    - rewrite <- (map_id (cells b)) at 2. apply map_ext_in. intros r Hr.
      rewrite <- Hcols at 1. rewrite Hcols.
      apply reindex_row_id; [apply Hb|]. apply wf_cells_length; [exact Hb|].
      apply list_elem_of_In. exact Hr. }
  rewrite E, (upcast_plain _ _ Hp). reflexivity.
Qed.


(** ** Effects of the steps *)

Lemma list_le_refl {A} (l : list A) : list_le l l.
Proof. intros i a H. exact H. Qed.

Lemma list_le_trans {A} (l1 l2 l3 : list A) : list_le l1 l2 -> list_le l2 l3 -> list_le l1 l3.
Proof. intros H1 H2 i a H. apply H2, H1, H. Qed.

Lemma list_le_app {A} (l k : list A) : list_le l (l ++ k).
Proof. intros i a H. apply lookup_app_l_Some. exact H. Qed.

Lemma list_le_elem {A} (l l' : list A) (a : A) : list_le l l' -> a ∈ l -> a ∈ l'.
Proof.
  intros Hle Ha. apply list_elem_of_lookup in Ha as [i Hi].
  apply list_elem_of_lookup. exists i. apply Hle, Hi.
Qed.

Lemma extends_refl K s : extends K s s.
Proof. repeat split; auto using list_le_refl. Qed.

Lemma extends_trans K s1 s2 s3 : extends K s1 s2 -> extends K s2 s3 -> extends K s1 s3.
Proof.
  intros (H1 & H2 & H3) (H4 & H5 & H6). repeat split; eauto using list_le_trans.
  intros k Hk. rewrite H6, H3; auto.
Qed.

Lemma extends_weaken (K K' : string -> Prop) s s' :
  (forall k, K k -> K' k) -> extends K s s' -> extends K' s s'.
Proof. intros HK (H1 & H2 & H3). repeat split; auto. Qed.

Lemma bind_eq {A B} (m : M A) (f : A -> M B) s :
  (m ≫= f) s = match m s with
               | (Ok a, s') => f a s'
               | (Raise e, s') => (Raise e, s')
               end.
Proof. reflexivity. Qed.

Lemma grows_ret K {A} (a : A) : grows K (mret a : M A).
Proof. intros s. apply extends_refl. Qed.

Lemma grows_raise K {A} e : grows K (raise e : M A).
Proof. intros s. apply extends_refl. Qed.

Lemma grows_bind K {A B} (m : M A) (f : A -> M B) :
  grows K m -> (forall a, grows K (f a)) -> grows K (m ≫= f).
Proof.
  intros Hm Hf s. rewrite bind_eq. specialize (Hm s).
  destruct (m s) as [[a|e] s']; simpl in *; [|exact Hm].
  eapply extends_trans; [exact Hm | apply Hf].
Qed.

Lemma grows_try_except K (body handler : M unit) :
  grows K body -> grows K handler -> grows K (try_except body handler).
Proof.
  intros Hb Hh s. unfold try_except. specialize (Hb s).
  destruct (body s) as [[a|e] s']; simpl in *; [exact Hb|].
  eapply extends_trans; [exact Hb | apply Hh].
Qed.

Lemma grows_print K line : grows K (print line).
Proof. intros s. repeat split; simpl; auto using list_le_refl, list_le_app. Qed.

Lemma grows_new K df : grows K (new df).
Proof. intros s. repeat split; simpl; auto using list_le_refl, list_le_app. Qed.

Lemma grows_load K v : grows K (load v).
Proof.
  intros s. unfold load. destruct v; try apply extends_refl.
  destruct (heap s !! l); apply extends_refl.
Qed.

Lemma grows_dict_get K k : grows K (dict_get k).
Proof. intros s. unfold dict_get. destruct (dict_temp s !! k); apply extends_refl. Qed.

Lemma grows_dict_set (K : string -> Prop) k v : K k -> grows K (dict_set k v).
Proof.
  intros Hk s. repeat split; simpl; auto using list_le_refl.
  intros k' Hk'. apply lookup_insert_ne. intros ->. contradiction.
Qed.

Lemma grows_of_option K {A} e (o : option A) : grows K (of_option e o).
Proof. destruct o; [apply grows_ret | apply grows_raise]. Qed.

Lemma grows_names_at K names i : grows K (names_at names i).
Proof. destruct names; try apply grows_raise. apply grows_of_option. Qed.

Lemma grows_eq_True K v : grows K (eq_True v).
Proof. destruct v; first [apply grows_ret | apply grows_raise]. Qed.

Lemma grows_shape_of K v : grows K (shape_of v).
Proof. apply grows_bind; [apply grows_load | intros; apply grows_ret]. Qed.

Lemma grows_global_item K g name k : grows K (global_item g name k).
Proof.
  unfold global_item. destruct (g !! name) as [[d|]|];
    first [apply grows_of_option | apply grows_raise].
Qed.

Lemma grows_dict_return K : grows K dict_return.
Proof. intros s. apply extends_refl. Qed.

Create HintDb grows_db.
#[local] Hint Resolve grows_ret grows_raise grows_print grows_new grows_load grows_dict_get
  grows_of_option grows_names_at grows_eq_True grows_shape_of grows_global_item
  grows_dict_return : grows_db.

Ltac grows_step :=
  match goal with
  | |- grows _ (_ ≫= _) => apply grows_bind; [|intros]
  | |- grows _ (try_except _ _) => apply grows_try_except
  | |- grows _ (if ?b then _ else _) => destruct b
  | |- grows _ (match ?o with Some _ => _ | None => _ end) => destruct o
  | |- grows _ _ => solve [auto with grows_db]
  end.

Lemma grows_not_in_same K v : grows K (not_in_same v).
Proof. unfold not_in_same. repeat grows_step. Qed.

Lemma grows_duplicates_of K v : grows K (duplicates_of v).
Proof. unfold duplicates_of. repeat grows_step. Qed.

Lemma grows_with_not_key (K : string -> Prop) {B} names i j (f : string -> M B) :
  (i = 0 /\ j = 1) \/ (i = 1 /\ j = 0) ->
  (forall k, k ∈ not_keys names -> grows K (f k)) ->
  grows K (not_key names i j ≫= f).
Proof.
  intros Hij HK s. rewrite bind_eq. unfold not_key. rewrite bind_eq.
  destruct names; simpl; try apply extends_refl.
  unfold of_option. simpl in HK.
  destruct Hij as [[-> ->]|[-> ->]].
  - destruct (l !! 0) as [a|]; simpl; [|apply extends_refl]. rewrite bind_eq.
    destruct (l !! 1) as [b|]; simpl; [|apply extends_refl].
    apply HK. left.
  - destruct (l !! 1) as [b|]; simpl; [|apply extends_refl]. rewrite bind_eq.
    destruct (l !! 0) as [a|]; simpl; [|apply extends_refl].
    apply HK. right. left.
Qed.

Lemma grows_with_dups_key (K : string -> Prop) {B} names i (f : string -> M B) :
  i < 2 -> (forall k, k ∈ dups_keys names -> grows K (f k)) ->
  grows K (dups_key names i ≫= f).
Proof.
  intros Hi HK s. rewrite bind_eq. unfold dups_key. rewrite bind_eq.
  destruct names; simpl; try apply extends_refl.
  unfold of_option. simpl in HK.
  destruct i as [|[|i]]; [| |lia].
  - destruct (l !! 0) as [a|]; simpl; [|apply extends_refl].
    apply HK. left.
  - destruct (l !! 1) as [b|] eqn:E1; simpl; [|apply extends_refl].
    destruct (l !! 0) as [a|] eqn:E0.
    + apply HK. right. left.
    + destruct l; simpl in *; congruence.
Qed.

Lemma grows_outliers_body (K : string -> Prop) x y names :
  (forall k, k ∈ not_keys names -> K k) -> grows K (outliers_body x y names).
Proof.
  intros HK. unfold outliers_body.
  apply grows_bind; [apply grows_not_in_same | intros r].
  apply grows_with_not_key; [auto|]. intros k Hk.
  apply grows_bind; [apply grows_dict_set; auto | intros _].
  apply grows_bind; [apply grows_not_in_same | intros r'].
  apply grows_with_not_key; [auto|]. intros k' Hk'. apply grows_dict_set; auto.
Qed.

Lemma grows_dups_body (K : string -> Prop) x y names :
  (forall k, k ∈ dups_keys names -> K k) -> grows K (dups_body x y names).
Proof.
  intros HK. unfold dups_body.
  apply grows_bind; [apply grows_duplicates_of | intros r].
  apply grows_with_dups_key; [lia|]. intros k Hk.
  apply grows_bind; [apply grows_dict_set; auto | intros _].
  apply grows_bind; [apply grows_duplicates_of | intros r'].
  apply grows_with_dups_key; [lia|]. intros k' Hk'. apply grows_dict_set; auto.
Qed.

Lemma grows_join_body (K : string -> Prop) x y : K "same_values" -> grows K (join_body x y).
Proof. intros HK. unfold join_body. repeat grows_step. apply grows_dict_set, HK. Qed.

Lemma grows_same_body (K : string -> Prop) x y : K "Same" -> grows K (same_body x y).
Proof. intros HK. unfold same_body. repeat grows_step; apply grows_dict_set, HK. Qed.

Lemma grows_count_str K k : grows K (count_str k).
Proof. unfold count_str. repeat grows_step. Qed.

Lemma grows_not_key K names i j : grows K (not_key names i j).
Proof. unfold not_key. repeat grows_step. Qed.

Lemma grows_dups_key K names i : grows K (dups_key names i).
Proof. unfold dups_key. repeat grows_step. Qed.

#[local] Hint Resolve grows_count_str grows_not_key grows_dups_key : grows_db.

Lemma grows_comment_body K names dups same comment :
  grows K (comment_body names dups same comment).
Proof. unfold comment_body. repeat grows_step. Qed.

(** *** The highlight step: the only in-place update *)

Lemma list_le_length {A} (l l' : list A) : list_le l l' -> length l <= length l'.
Proof.
  intros H. destruct (decide (length l <= length l')) as [|Hn]; [assumption|].
  destruct (lookup_lt_is_Some_2 l (length l')) as [a Ha]; [lia|].
  apply H in Ha. apply lookup_lt_Some in Ha. lia.
Qed.

Lemma fresh_new df : fresh_result (new df).
Proof. intros s v H. simpl in H. injection H as <-. eauto. Qed.

Lemma fresh_bind K {A} (m : M A) (f : A -> M pyval) :
  grows K m -> (forall a, fresh_result (f a)) -> fresh_result (m ≫= f).
Proof.
  intros Hm Hf s v. rewrite bind_eq. specialize (Hm s).
  destruct (m s) as [[a|e] s'] eqn:E; simpl in *; [|discriminate].
  intros H. destruct (Hf a s' v H) as (l & -> & Hl). exists l. split; [reflexivity|].
  destruct Hm as (Hh & _). apply list_le_length in Hh. lia.
Qed.

Lemma grows_masked_copy K g a b : grows K (masked_copy g a b).
Proof. unfold masked_copy. repeat grows_step. Qed.

Lemma fresh_masked_copy g a b : fresh_result (masked_copy g a b).
Proof.
  unfold masked_copy.
  repeat (eapply (fresh_bind (fun _ => False));
          [solve [auto with grows_db] | intros]).
  apply fresh_new.
Qed.

Lemma updates_only_bind lt {A B} (m : M A) (f : A -> M B) :
  updates_only lt m -> (forall a, updates_only lt (f a)) -> updates_only lt (m ≫= f).
Proof.
  intros Hm Hf s. rewrite bind_eq. specialize (Hm s).
  destruct (m s) as [[a|e] s']; simpl in *; [|exact Hm].
  destruct Hm as (H1 & H2 & H3). destruct (Hf a s') as (H4 & H5 & H6).
  repeat split; try congruence.
  intros l Hl. rewrite H4, H1; auto.
Qed.

Lemma updates_only_id lt {A} (m : M A) : (forall s, snd (m s) = s) -> updates_only lt m.
Proof. intros H s. rewrite H. auto. Qed.

Lemma load_state v s : snd (load v s) = s.
Proof. unfold load. destruct v; try reflexivity. destruct (heap s !! l); reflexivity. Qed.


Lemma of_option_state {A} e (o : option A) s : snd (of_option e o s) = s.
Proof. destruct o; reflexivity. Qed.

Lemma updates_only_store lt df : updates_only lt (store (PFrame lt) df).
Proof.
  intros s. simpl. repeat split.
  intros l Hl. apply list_lookup_insert_ne. congruence.
Qed.

Lemma highlight_loop_frame lt df_k cols :
  updates_only lt (highlight_loop (PFrame lt) df_k cols).
Proof.
  induction cols as [|i cols IH]; simpl.
  - apply updates_only_id. reflexivity.
  - apply updates_only_bind; [apply updates_only_id, load_state | intros T].
    apply updates_only_bind; [apply updates_only_id, of_option_state | intros st].
    apply updates_only_bind; [apply updates_only_id, load_state | intros K].
    apply updates_only_bind; [apply updates_only_id, of_option_state | intros sk].
    apply updates_only_bind; [apply updates_only_store | intros _]. exact IH.
Qed.

(** The highlight step stores its entry last: when it raises, the
    dictionary is as it found it. *)
Lemma highlight_body_outcome g s :
  match fst (highlight_body g s) with
  | Raise _ => extends (fun _ => False) s (snd (highlight_body g s))
  | Ok _ => extends (fun k => k = "highlight") s (snd (highlight_body g s))
  end.
Proof.
  unfold highlight_body. rewrite bind_eq.
  pose proof (grows_masked_copy (fun _ => False) g "df1_not_df2" "df2_not_df1" s) as H1.
  pose proof (fresh_masked_copy g "df1_not_df2" "df2_not_df1" s) as F1.
  destruct (masked_copy g "df1_not_df2" "df2_not_df1" s) as [[df_t|e] s1];
    simpl in *; [|exact H1].
  destruct (F1 df_t eq_refl) as (lt & -> & Hlt).
  rewrite bind_eq.
  pose proof (grows_masked_copy (fun _ => False) g "df2_not_df1" "df1_not_df2" s1) as H2.
  destruct (masked_copy g "df2_not_df1" "df1_not_df2" s1) as [[df_k|e] s2];
    simpl in *; [|eapply extends_trans; eassumption].
  assert (H12 : extends (fun _ => False) s s2) by (eapply extends_trans; eassumption).
  rewrite bind_eq.
  pose proof (load_state (PFrame lt) s2) as L1.
  destruct (load (PFrame lt) s2) as [[T|e] s2']; simpl in L1; subst s2'; [|exact H12].
  rewrite bind_eq.
  pose proof (highlight_loop_frame lt df_k (columns T) s2) as (Hh & Ho & Hd).
  assert (H13 : extends (fun _ => False) s
                  (snd (highlight_loop (PFrame lt) df_k (columns T) s2))).
  { destruct H12 as (A1 & A2 & A3). repeat split.
    - intros i a Hi. rewrite Hh; [apply A1, Hi|].
      apply lookup_lt_Some in Hi. lia.
    - rewrite Ho. exact A2.
    - rewrite Hd. exact A3. }
  destruct (highlight_loop (PFrame lt) df_k (columns T) s2) as [[[]|e] s3];
    simpl in *; [|exact H13].
  rewrite bind_eq.
  pose proof (load_state (PFrame lt) s3) as L3.
  destruct (load (PFrame lt) s3) as [[T'|e] s3']; simpl in L3; subst s3'; [|exact H13].
  rewrite bind_eq. simpl.
  eapply extends_trans; [eapply extends_weaken; [|exact H13]; intros k []|].
  repeat split; simpl; auto using list_le_refl, list_le_app.
  intros k Hk. apply lookup_insert_ne. intros <-. apply Hk. reflexivity.
Qed.

Lemma grows_highlight_body (K : string -> Prop) g :
  K "highlight" -> grows K (highlight_body g).
Proof.
  intros HK s. pose proof (highlight_body_outcome g s) as H.
  destruct (fst (highlight_body g s)).
  - eapply extends_weaken; [|exact H]. intros k ->. exact HK.
  - eapply extends_weaken; [|exact H]. intros k [].
Qed.

Lemma grows_when_flag K flag body msg : grows K body -> grows K (when_flag flag body msg).
Proof.
  intros Hb. unfold when_flag. apply grows_bind; [apply grows_eq_True|].
  intros []; [|apply grows_ret]. apply grows_try_except; [exact Hb | apply grows_print].
Qed.

Lemma grows_validate K x y names dups same comment :
  grows K (validate x y names dups same comment).
Proof. unfold validate. repeat grows_step. Qed.

Lemma grows_dict_new : grows (fun _ => True) dict_new.
Proof. intros s. repeat split; simpl; auto using list_le_refl. intros k []. exact I. Qed.

(** Whatever it is called with, [compare] keeps every stored frame and
    every printed line. *)
Lemma grows_compare g x y names dups same comment highlight :
  grows (fun _ => True) (compare g x y names dups same comment highlight).
Proof.
  unfold compare.
  apply grows_bind; [apply grows_validate | intros _].
  apply grows_bind; [apply grows_dict_new | intros _].
  apply grows_bind;
    [apply grows_try_except; [apply grows_join_body; exact I | apply grows_print] | intros _].
  apply grows_bind;
    [apply grows_try_except; [apply grows_outliers_body; auto | apply grows_print] | intros _].
  apply grows_bind; [apply grows_when_flag, grows_dups_body; auto | intros _].
  apply grows_bind; [apply grows_when_flag, grows_same_body; exact I | intros _].
  apply grows_bind; [apply grows_when_flag, grows_highlight_body; exact I | intros _].
  apply grows_bind;
    [apply grows_try_except; [apply grows_comment_body | apply grows_print] | intros _].
  apply grows_dict_return.
Qed.

(** ** Keys of the result dictionary *)

Lemma count_char_app c (a b : string) :
  count_char c (a +:+ b) = count_char c a + count_char c b.
Proof. induction a as [|c' a IH]; simpl; [reflexivity|]. rewrite IH. lia. Qed.

Lemma append_inv_head (a x y : string) : a +:+ x = a +:+ y -> x = y.
Proof. induction a as [|c a IH]; simpl; intros H; [exact H|]. injection H as H. auto. Qed.

Lemma not_key_fixed (a b k : string) :
  k ∈ ["same_values"; "Same"; "highlight"] -> a +:+ "_not_" +:+ b <> k.
Proof.
  intros Hk H.
  apply (f_equal (count_char "_"%char)) in H. rewrite !count_char_app in H.
  repeat (apply elem_of_cons in Hk as [->|Hk]; [simpl in H; lia|]).
  inversion Hk.
Qed.

Lemma dups_key_fixed (a k : string) :
  k ∈ ["same_values"; "Same"; "highlight"] -> a +:+ "_dups" <> k.
Proof.
  intros Hk H.
  apply (f_equal (count_char "d"%char)) in H. rewrite !count_char_app in H.
  repeat (apply elem_of_cons in Hk as [->|Hk]; [simpl in H; lia|]).
  inversion Hk.
Qed.

Lemma not_key_dups_key (a b c : string) :
  c = a \/ c = b -> a +:+ "_not_" +:+ b <> c +:+ "_dups".
Proof.
  intros [->| ->] H.
  - apply append_inv_head in H. discriminate.
  - apply (f_equal (count_char "n"%char)) in H. rewrite !count_char_app in H.
    simpl in H. lia.
Qed.

Lemma not_key_dups_key' (a b c : string) :
  c = a \/ c = b -> b +:+ "_not_" +:+ a <> c +:+ "_dups".
Proof. intros H. apply not_key_dups_key. tauto. Qed.

(** ** Running the steps *)

Lemma total_bind {A B} (m : M A) (f : A -> M B) :
  total m -> (forall a, total (f a)) -> total (m ≫= f).
Proof.
  intros Hm Hf s. rewrite bind_eq. destruct (Hm s) as [a Ha].
  destruct (m s) as [[a'|e] s']; simpl in Ha; [|discriminate]. apply Hf.
Qed.

Lemma total_try_except body msg : total (try_except body (print msg)).
Proof. intros s. unfold try_except. destruct (body s) as [[a|e] s']; simpl; eauto. Qed.

Lemma total_when_flag flag body msg :
  is_frame flag = false -> total (when_flag flag body msg).
Proof.
  intros Hf. unfold when_flag.
  destruct flag; try discriminate; simpl;
    (apply total_bind; [intros st; simpl; eauto |
                        intros []; [apply total_try_except | intros st; simpl; eauto]]).
Qed.

Lemma compare_eq g x y names dups same comment highlight :
  compare g x y names dups same comment highlight =
    (validate x y names dups same comment;;
     dict_new;;
     try_except (join_body x y) (print "Unable to identify same values");;
     try_except (outliers_body x y names) (print "Unable to find outliers");;
     later_steps g x y names dups same comment highlight).
Proof. reflexivity. Qed.

Lemma grows_later_steps g x y names dups same comment highlight :
  grows (later_keys names) (later_steps g x y names dups same comment highlight).
Proof.
  unfold later_steps, later_keys.
  apply grows_bind; [apply grows_when_flag, grows_dups_body; auto | intros _].
  apply grows_bind; [apply grows_when_flag, grows_same_body; auto | intros _].
  apply grows_bind; [apply grows_when_flag, grows_highlight_body; auto | intros _].
  apply grows_bind;
    [apply grows_try_except; [apply grows_comment_body | apply grows_print] | intros _].
  apply grows_dict_return.
Qed.

Lemma later_steps_returns g x y names dups same comment highlight s :
  is_frame dups = false -> is_frame same = false -> is_frame highlight = false ->
  exists s',
    later_steps g x y names dups same comment highlight s = (Ok (dict_temp s'), s') /\
    extends (later_keys names) s s'.
Proof.
  intros Hd Hs Hh.
  pose proof (grows_later_steps g x y names dups same comment highlight s) as Hg.
  revert Hg. unfold later_steps.
  rewrite bind_eq. destruct (total_when_flag dups (dups_body x y names)
    "Unable to find duplicates" Hd s) as [[] E1].
  destruct (when_flag dups _ _ s) as [[[]|e] s1]; simpl in E1; [|discriminate].
  rewrite bind_eq. destruct (total_when_flag same (same_body x y)
    "Unable to determine whether the Dataframes are the same" Hs s1) as [[] E2].
  destruct (when_flag same _ _ s1) as [[[]|e] s2]; simpl in E2; [|discriminate].
  rewrite bind_eq. destruct (total_when_flag highlight (highlight_body g)
    "Unable to calculate highlight" Hh s2) as [[] E3].
  destruct (when_flag highlight _ _ s2) as [[[]|e] s3]; simpl in E3; [|discriminate].
  rewrite bind_eq. destruct (total_try_except (comment_body names dups same comment)
    "Unable to print commentary" s3) as [[] E4].
  destruct (try_except _ _ s3) as [[[]|e] s4]; simpl in E4; [|discriminate].
  unfold dict_return. simpl. intros Hg. exists s4. auto.
Qed.

Lemma join_body_run lx ly X Y s :
  heap s !! lx = Some X -> heap s !! ly = Some Y ->
  join_body (PFrame lx) (PFrame ly) s =
    match pd.merge (pd.drop_duplicates pd.KeepFirst X) (pd.drop_duplicates pd.KeepFirst Y) with
    | Some J =>
        (Ok tt, mkState (heap s ++ [J]) (stdout s)
                  (<["same_values" := PFrame (length (heap s))]> (dict_temp s)))
    | None => (Raise MergeError, s)
    end.
Proof.
  intros HX HY. unfold join_body. rewrite bind_eq. simpl. rewrite HX.
  rewrite bind_eq. simpl. rewrite HY. rewrite bind_eq.
  destruct (pd.merge _ _) as [J|]; reflexivity.
Qed.

Lemma not_in_same_run l ls V J s :
  heap s !! l = Some V -> dict_temp s !! "same_values" = Some (PFrame ls) ->
  heap s !! ls = Some J ->
  not_in_same (PFrame l) s =
    (Ok (PFrame (length (heap s))),
     mkState (heap s ++ [pd.drop_duplicates pd.KeepFalse (pd.concat V J)])
       (stdout s) (dict_temp s)).
Proof.
  intros HV Hd HJ. unfold not_in_same. rewrite bind_eq. simpl. rewrite HV.
  rewrite bind_eq. unfold dict_get. rewrite Hd.
  rewrite bind_eq. simpl. rewrite HJ. reflexivity.
Qed.


Lemma compare_after_join g lx ly l bd bs bc highlight X Y s :
  heap s !! lx = Some X -> heap s !! ly = Some Y ->
  compare g (PFrame lx) (PFrame ly) (PList l) (PBool bd) (PBool bs) (PBool bc) highlight s =
    (try_except (outliers_body (PFrame lx) (PFrame ly) (PList l))
       (print "Unable to find outliers");;
     later_steps g (PFrame lx) (PFrame ly) (PList l) (PBool bd) (PBool bs) (PBool bc)
       highlight) (after_join X Y s).
Proof.
  intros HX HY. rewrite compare_eq. rewrite bind_eq.
  change (validate (PFrame lx) (PFrame ly) (PList l) (PBool bd) (PBool bs) (PBool bc) s)
    with (@Ok unit tt, s).
  cbv beta iota. rewrite bind_eq. unfold dict_new at 1. cbv beta iota.
  rewrite bind_eq. unfold try_except at 1.
  rewrite (join_body_run lx ly X Y) by (simpl; assumption).
  unfold after_join. simpl.
  destruct (pd.merge _ _) as [J|]; simpl; rewrite insert_empty || idtac; reflexivity.
Qed.

Lemma lookup_app_length {A} (l : list A) (a : A) (k : list A) :
  (l ++ a :: k) !! length l = Some a.
Proof. rewrite lookup_app_r by lia. rewrite Nat.sub_diag. reflexivity. Qed.

Lemma not_key_01 n0 n1 rest s :
  not_key (PList (n0 :: n1 :: rest)) 0 1 s = (Ok (n0 +:+ "_not_" +:+ n1), s).
Proof. reflexivity. Qed.

Lemma not_key_10 n0 n1 rest s :
  not_key (PList (n0 :: n1 :: rest)) 1 0 s = (Ok (n1 +:+ "_not_" +:+ n0), s).
Proof. reflexivity. Qed.

Lemma compare_after_outliers g lx ly n0 n1 rest bd bs bc highlight X Y J s :
  heap s !! lx = Some X -> heap s !! ly = Some Y ->
  pd.merge (pd.drop_duplicates pd.KeepFirst X) (pd.drop_duplicates pd.KeepFirst Y) = Some J ->
  compare g (PFrame lx) (PFrame ly) (PList (n0 :: n1 :: rest))
    (PBool bd) (PBool bs) (PBool bc) highlight s =
  later_steps g (PFrame lx) (PFrame ly) (PList (n0 :: n1 :: rest))
    (PBool bd) (PBool bs) (PBool bc) highlight (after_outliers X Y J n0 n1 s).
Proof.
  intros HX HY HJ. rewrite (compare_after_join g lx ly _ bd bs bc highlight X Y) by assumption.
  unfold after_join. rewrite HJ. rewrite bind_eq.
  set (s1 := mkState (heap s ++ [J]) (stdout s) _).
  assert (E : outliers_body (PFrame lx) (PFrame ly) (PList (n0 :: n1 :: rest)) s1 =
              (Ok tt, after_outliers X Y J n0 n1 s)).
  { unfold outliers_body. rewrite bind_eq.
    rewrite (not_in_same_run lx (length (heap s)) X J s1).
    2:{ simpl. apply lookup_app_l_Some, HX. }
    2:{ simpl. apply lookup_singleton_eq. }
    2:{ simpl. apply lookup_app_length. }
    rewrite bind_eq, not_key_01. rewrite bind_eq. unfold dict_set at 1. cbv beta iota.
    rewrite bind_eq.
    match goal with |- context [not_in_same _ ?t] => set (s2 := t) end.
    rewrite (not_in_same_run ly (length (heap s)) Y J s2).
    2:{ simpl. rewrite <- app_assoc. apply lookup_app_l_Some, HY. }
    2:{ simpl. rewrite lookup_insert_ne; [apply lookup_singleton_eq|].
        apply not_key_fixed. left. }
    2:{ simpl. rewrite <- app_assoc. apply lookup_app_length. }
    rewrite bind_eq, not_key_10. unfold dict_set. cbv beta iota.
    unfold after_outliers, residual. simpl.
    rewrite !length_app. simpl. rewrite <- !app_assoc. simpl.
    replace (length (heap s) + 1 + 1) with (length (heap s) + 2) by lia.
    reflexivity. }
  unfold try_except. rewrite E. reflexivity.
Qed.

Lemma fixed_not_later names k :
  k ∈ ["same_values"; "Same"; "highlight"] -> k ∈ dups_keys names -> False.
Proof.
  intros Hk Hd. destruct names; simpl in Hd; try (inversion Hd; fail).
  destruct (l !! 0) as [a|]; [|inversion Hd].
  apply elem_of_cons in Hd as [->|Hd]; [eapply dups_key_fixed; eauto|].
  destruct (l !! 1) as [b|]; [|inversion Hd].
  apply elem_of_cons in Hd as [->|Hd]; [eapply dups_key_fixed; eauto | inversion Hd].
Qed.

Lemma same_values_not_later names : ~ later_keys names "same_values".
Proof.
  intros [H|[H|H]]; try discriminate.
  eapply fixed_not_later; [|exact H]. left.
Qed.

Lemma not_key_not_later a b rest :
  ~ later_keys (PList (a :: b :: rest)) (a +:+ "_not_" +:+ b) /\
  ~ later_keys (PList (a :: b :: rest)) (b +:+ "_not_" +:+ a).
Proof.
  assert (F : forall u v k, k = "Same" \/ k = "highlight" -> u +:+ "_not_" +:+ v <> k).
  { intros u v k [->| ->]; apply not_key_fixed; [right; left | right; right; left]. }
  unfold later_keys. simpl. rewrite !elem_of_cons, !elem_of_nil.
  split; intros [[E|[E|[]]]|E].
  - exact (not_key_dups_key a b a (or_introl eq_refl) E).
  - exact (not_key_dups_key a b b (or_intror eq_refl) E).
  - exact (F a b _ E eq_refl).
  - exact (not_key_dups_key' a b a (or_introl eq_refl) E).
  - exact (not_key_dups_key' a b b (or_intror eq_refl) E).
  - exact (F b a _ E eq_refl).
Qed.

(** What the result holds once the join succeeded and [names] has two
    entries: the join, the two residual frames (the second assignment wins
    when the two keys coincide), and otherwise only the entries of the
    later steps. *)
Lemma compare_entries g lx ly n0 n1 rest bd bs bc highlight X Y J s :
  heap s !! lx = Some X -> heap s !! ly = Some Y ->
  pd.merge (pd.drop_duplicates pd.KeepFirst X) (pd.drop_duplicates pd.KeepFirst Y) = Some J ->
  is_frame highlight = false ->
  exists d s',
    compare g (PFrame lx) (PFrame ly) (PList (n0 :: n1 :: rest))
      (PBool bd) (PBool bs) (PBool bc) highlight s = (Ok d, s') /\
    table_of d s' "same_values" = Some J /\
    table_of d s' (n1 +:+ "_not_" +:+ n0) = Some (residual Y J) /\
    (n0 +:+ "_not_" +:+ n1 <> n1 +:+ "_not_" +:+ n0 ->
     table_of d s' (n0 +:+ "_not_" +:+ n1) = Some (residual X J)) /\
    (forall k, is_Some (d !! k) ->
       k ∈ ["same_values"; n0 +:+ "_not_" +:+ n1; n1 +:+ "_not_" +:+ n0;
            n0 +:+ "_dups"; n1 +:+ "_dups"; "Same"; "highlight"]).
Proof.
  intros HX HY HJ Hh.
  rewrite (compare_after_outliers g lx ly n0 n1 rest bd bs bc highlight X Y J) by assumption.
  destruct (later_steps_returns g (PFrame lx) (PFrame ly) (PList (n0 :: n1 :: rest))
              (PBool bd) (PBool bs) (PBool bc) highlight
              (after_outliers X Y J n0 n1 s) eq_refl eq_refl Hh) as (s' & -> & Hext).
  exists (dict_temp s'), s'. split; [reflexivity|].
  pose proof Hext as (Hheap & _ & Hdict).
  destruct (not_key_not_later n0 n1 rest) as [Hk1 Hk2].
  pose proof (same_values_not_later (PList (n0 :: n1 :: rest))) as Hk0.
  assert (Hsv : n0 +:+ "_not_" +:+ n1 <> "same_values") by (apply not_key_fixed; left).
  assert (Hsv' : n1 +:+ "_not_" +:+ n0 <> "same_values") by (apply not_key_fixed; left).
  repeat split.
  - unfold table_of. rewrite (Hdict _ Hk0). simpl.
    rewrite !lookup_insert_ne by assumption. rewrite lookup_singleton_eq.
    apply Hheap. simpl. apply lookup_app_length.
  - unfold table_of. rewrite (Hdict _ Hk2). simpl. rewrite lookup_insert_eq.
    apply Hheap. simpl.
    change [J; residual X J; residual Y J] with ([J; residual X J] ++ [residual Y J]).
    rewrite app_assoc. replace (length (heap s) + 2) with (length (heap s ++ [J; residual X J]))
      by (rewrite length_app; simpl; lia).
    apply lookup_app_length.
  - intros Hne. unfold table_of. rewrite (Hdict _ Hk1). simpl.
    rewrite lookup_insert_ne by congruence. rewrite lookup_insert_eq.
    apply Hheap. simpl.
    change [J; residual X J; residual Y J] with ([J] ++ residual X J :: [residual Y J]).
    rewrite app_assoc. replace (length (heap s) + 1) with (length (heap s ++ [J]))
      by (rewrite length_app; simpl; lia).
    apply lookup_app_length.
  - intros k Hk. rewrite !elem_of_cons.
    destruct (decide (later_keys (PList (n0 :: n1 :: rest)) k)) as [Hl|Hl].
    + destruct Hl as [Hl|[->| ->]]; [|tauto..].
      simpl in Hl. rewrite !elem_of_cons, elem_of_nil in Hl. tauto.
    + rewrite (Hdict _ Hl) in Hk. simpl in Hk.
      destruct (decide (k = n1 +:+ "_not_" +:+ n0)) as [->|N1]; [tauto|].
      rewrite lookup_insert_ne in Hk by congruence.
      destruct (decide (k = n0 +:+ "_not_" +:+ n1)) as [->|N0]; [tauto|].
      rewrite lookup_insert_ne in Hk by congruence.
      destruct (decide (k = "same_values")) as [->|N2]; [tauto|].
      rewrite lookup_singleton_ne in Hk by congruence. destruct Hk as [? Hk]. discriminate.
Qed.

(** ** Residual rows *)

(** With identical columns the join keeps the rows of the first frame
    (each once) that the second frame also holds. *)
Lemma merge_identical_cols X Y :
  wf_frame X -> wf_frame Y -> columns X = columns Y -> columns X <> [] ->
  same_kinds X Y = true ->
  exists J,
    pd.merge (pd.drop_duplicates pd.KeepFirst X) (pd.drop_duplicates pd.KeepFirst Y) = Some J /\
    columns J = columns X /\
    cells J = List.filter (fun r => memb r (cells Y)) (first_occ [] (cells X)) /\
    labels J = seq 0 (length (cells J)).
Proof.
  intros HX HY Hcols Hne Hk.
  pose proof (wf_drop_duplicates pd.KeepFirst X HX) as HX'.
  pose proof (wf_drop_duplicates pd.KeepFirst Y HY) as HY'.
  assert (Hne' : columns Y <> []) by congruence.
  eexists. split; [|split; [|split]].
  - apply merge_same_cols; try assumption.
    + rewrite columns_drop_duplicates. exact Hne.
    + rewrite !columns_drop_duplicates. exact Hcols.
    + rewrite columns_drop_duplicates. intros j Hj.
      apply (plain_at_sub j (cells X ++ cells Y)); [|apply same_kinds_spec; assumption].
      intros r Hr. apply elem_of_app in Hr as [Hr|Hr]; apply elem_of_app;
        [left | right]; eapply cells_drop_sub, Hr.
  - apply columns_drop_duplicates.
  - unfold cells at 1. cbn [rows]. rewrite cells_range_index.
    rewrite !cells_drop_first by assumption.
    unfold join_rows.
    induction (first_occ [] (cells X)) as [|ra l IH]; simpl; [reflexivity|].
    rewrite IH. clear IH.
    assert (E : List.filter (fun rb => bool_decide (rb = ra)) (first_occ [] (cells Y))
                = if memb ra (cells Y) then [ra] else []).
    { pose proof (NoDup_first_occ [] (cells Y)) as Hnd.
      pose proof (elem_of_first_occ ra [] (cells Y)) as Hel.
      assert (Hmem : memb ra (cells Y) = memb ra (first_occ [] (cells Y))).
      { unfold memb. apply bool_decide_ext. rewrite Hel. split; [|tauto].
        intros H. split; [exact H|]. intros H'. inversion H'. }
      rewrite Hmem. clear Hel Hmem.
      induction Hnd as [|a k Ha Hnd IHk]; simpl; [reflexivity|].
      destruct (decide (a = ra)) as [->|Hne''].
      - rewrite bool_decide_eq_true_2 by reflexivity.
        rewrite (filter_none _ k).
        2:{ intros b Hb. apply bool_decide_eq_false_2. intros ->. contradiction. }
        unfold memb. rewrite bool_decide_eq_true_2 by left. reflexivity.
      - rewrite bool_decide_eq_false_2 by assumption. rewrite IHk.
        unfold memb. apply (f_equal (fun b : bool => if b then [ra] else [])).
        apply bool_decide_ext. rewrite elem_of_cons. split; [tauto|].
        intros [?|?]; [congruence | assumption]. }
    rewrite E. destruct (memb ra (cells Y)); reflexivity.
  - unfold labels, cells. cbn [rows].
    rewrite labels_range_index, length_map, length_range_index. reflexivity.
Qed.

Lemma plain_rows_app n rs rs' :
  plain_rows n rs -> (forall r, r ∈ rs' -> r ∈ rs) -> plain_rows n (rs ++ rs').
Proof.
  intros Hp Hsub r Hr. apply elem_of_app in Hr as [Hr|Hr]; [apply Hp, Hr | apply Hp, Hsub, Hr].
Qed.


Lemma elem_of_filter_memb (r : row) (l k : list row) :
  r ∈ List.filter (fun r => memb r k) l <-> r ∈ l /\ r ∈ k.
Proof. rewrite list_elem_of_In, filter_In, memb_true, <- list_elem_of_In. reflexivity. Qed.

(** ** The chain of steps *)

Lemma try_except_caught body msg s :
  try_except body (print msg) s = (Ok tt, caught body msg s).
Proof. unfold caught, try_except. destruct (body s) as [[[]|e] s']; reflexivity. Qed.

Lemma when_flag_guarded flag body msg s :
  is_frame flag = false -> when_flag flag body msg s = (Ok tt, guarded flag body msg s).
Proof.
  intros Hf. unfold when_flag, guarded. rewrite bind_eq.
  destruct flag; try discriminate; simpl; try reflexivity.
  - destruct b; [apply try_except_caught | reflexivity].
  - destruct (bool_decide (z = 1%Z)); [apply try_except_caught | reflexivity].
Qed.

Lemma caught_ok body msg s s' : body s = (Ok tt, s') -> caught body msg s = s'.
Proof. intros H. unfold caught, try_except. rewrite H. reflexivity. Qed.

Lemma caught_raise body msg s e s' :
  body s = (Raise e, s') ->
  caught body msg s = mkState (heap s') (stdout s' ++ [msg]) (dict_temp s').
Proof. intros H. unfold caught, try_except. rewrite H. reflexivity. Qed.

Lemma extends_caught K body msg s : grows K body -> extends K s (caught body msg s).
Proof. intros H. apply (grows_try_except K body (print msg) H (grows_print K msg)). Qed.

Lemma extends_guarded K flag body msg s :
  grows K body -> extends K s (guarded flag body msg s).
Proof.
  intros H. unfold guarded. destruct (flag_on flag); [|apply extends_refl].
  apply extends_caught, H.
Qed.

(** Every call with arguments that pass the checks runs the six steps in
    turn and returns the dictionary they leave. *)
Lemma compare_steps g lx ly l bd bs bc highlight s :
  is_frame highlight = false ->
  compare g (PFrame lx) (PFrame ly) (PList l) (PBool bd) (PBool bs) (PBool bc) highlight s =
    (Ok (dict_temp (st6 g (PFrame lx) (PFrame ly) (PList l) (PBool bd) (PBool bs)
                      (PBool bc) highlight s)),
     st6 g (PFrame lx) (PFrame ly) (PList l) (PBool bd) (PBool bs) (PBool bc) highlight s).
Proof.
  intros Hh. rewrite compare_eq. rewrite bind_eq.
  change (validate (PFrame lx) (PFrame ly) (PList l) (PBool bd) (PBool bs) (PBool bc) s)
    with (@Ok unit tt, s).
  cbv beta iota. rewrite bind_eq. unfold dict_new at 1. cbv beta iota.
  rewrite bind_eq, try_except_caught. rewrite bind_eq, try_except_caught.
  unfold later_steps.
  rewrite bind_eq, when_flag_guarded by reflexivity.
  rewrite bind_eq, when_flag_guarded by reflexivity.
  rewrite bind_eq, when_flag_guarded by assumption.
  rewrite bind_eq, try_except_caught. reflexivity.
Qed.

Lemma st1_after_join lx ly X Y s :
  heap s !! lx = Some X -> heap s !! ly = Some Y ->
  st1 (PFrame lx) (PFrame ly) s = after_join X Y s.
Proof.
  intros HX HY. unfold st1, caught, try_except.
  rewrite (join_body_run lx ly X Y) by (simpl; assumption).
  unfold after_join, st0. simpl.
  destruct (pd.merge _ _) as [J|]; simpl; [rewrite insert_empty|]; reflexivity.
Qed.

Lemma fixed_not_not_keys names k :
  k ∈ ["same_values"; "Same"; "highlight"] -> k ∉ not_keys names.
Proof.
  intros Hk Hn. destruct names; simpl in Hn; try (inversion Hn; fail).
  destruct (l !! 0) as [a|]; [|inversion Hn].
  destruct (l !! 1) as [b|]; [|inversion Hn].
  apply elem_of_cons in Hn as [->|Hn]; [eapply not_key_fixed; [exact Hk | reflexivity]|].
  apply elem_of_cons in Hn as [->|Hn]; [eapply not_key_fixed; [exact Hk | reflexivity]|].
  inversion Hn.
Qed.

Lemma fixed_not_dups_keys names k :
  k ∈ ["same_values"; "Same"; "highlight"] -> k ∉ dups_keys names.
Proof. intros Hk Hd. eapply fixed_not_later; eassumption. Qed.

(** From the join to the equality step only outlier and duplicate entries
    are added. *)
Lemma extends_st1_st3 x y names dups s :
  extends (fun k => k ∈ not_keys names \/ k ∈ dups_keys names)
    (st1 x y s) (st3 x y names dups s).
Proof.
  eapply extends_trans.
  - apply (extends_caught _ (outliers_body x y names)).
    apply grows_outliers_body. auto.
  - apply (extends_guarded _ dups (dups_body x y names)).
    apply grows_dups_body. auto.
Qed.

(** After the equality step only the highlight entry is added. *)
Lemma extends_st4_st6 g x y names dups same comment highlight s :
  extends (fun k => k = "highlight")
    (st4 x y names dups same s) (st6 g x y names dups same comment highlight s).
Proof.
  eapply extends_trans.
  - apply (extends_guarded _ highlight (highlight_body g)).
    apply grows_highlight_body. reflexivity.
  - apply (extends_caught _ (comment_body names dups same comment)).
    apply grows_comment_body.
Qed.

Lemma same_body_run lx ly X Y n J s :
  heap s !! lx = Some X -> heap s !! ly = Some Y ->
  dict_temp s !! "same_values" = Some (PFrame n) -> heap s !! n = Some J ->
  same_body (PFrame lx) (PFrame ly) s =
    (Ok tt, mkState (heap s) (stdout s)
              (<["Same" := PBool (bool_decide (shape X = shape Y)
                                  && bool_decide (shape X = shape J))]> (dict_temp s))).
Proof.
  intros HX HY Hd HJ. unfold same_body, shape_of.
  rewrite !bind_eq. simpl. rewrite HX. simpl. rewrite !bind_eq. simpl. rewrite HY. simpl.
  rewrite !bind_eq. simpl. rewrite HX. simpl. rewrite bind_eq. unfold dict_get. rewrite Hd.
  rewrite !bind_eq. simpl. rewrite HJ. simpl.
  destruct (bool_decide (shape X = shape Y) && bool_decide (shape X = shape J)); reflexivity.
Qed.

Lemma same_body_absent lx ly X Y s :
  heap s !! lx = Some X -> heap s !! ly = Some Y ->
  dict_temp s !! "same_values" = None ->
  same_body (PFrame lx) (PFrame ly) s = (Raise (KeyError "same_values"), s).
Proof.
  intros HX HY Hd. unfold same_body, shape_of.
  rewrite !bind_eq. simpl. rewrite HX. simpl. rewrite !bind_eq. simpl. rewrite HY. simpl.
  rewrite !bind_eq. simpl. rewrite HX. simpl. rewrite bind_eq. unfold dict_get. rewrite Hd.
  reflexivity.
Qed.

Lemma same_flag_run g lx ly l bd bc highlight X Y s :
  heap s !! lx = Some X -> heap s !! ly = Some Y ->
  let sf := st6 g (PFrame lx) (PFrame ly) (PList l) (PBool bd) (PBool true) (PBool bc)
              highlight s in
  match pd.merge (pd.drop_duplicates pd.KeepFirst X) (pd.drop_duplicates pd.KeepFirst Y) with
  | Some J =>
      table_of (dict_temp sf) sf "same_values" = Some J /\
      dict_temp sf !! "Same" = Some (PBool (shapes_agree X Y J))
  | None =>
      dict_temp sf !! "same_values" = None /\ dict_temp sf !! "Same" = None
  end.
Proof.
  intros HX HY sf.
  pose proof (extends_st1_st3 (PFrame lx) (PFrame ly) (PList l) (PBool bd) s)
    as (Hh13 & _ & Hd13).
  pose proof (extends_st4_st6 g (PFrame lx) (PFrame ly) (PList l) (PBool bd) (PBool true)
                (PBool bc) highlight s) as (Hh46 & _ & Hd46).
  fold sf in Hh46, Hd46.
  rewrite (st1_after_join lx ly X Y s HX HY) in Hh13, Hd13.
  assert (Hk : forall k, k ∈ ["same_values"; "Same"; "highlight"] ->
               ~ (k ∈ not_keys (PList l) \/ k ∈ dups_keys (PList l))).
  { intros k Hk [H|H]; [eapply fixed_not_not_keys | eapply fixed_not_dups_keys]; eauto. }
  set (s3 := st3 (PFrame lx) (PFrame ly) (PList l) (PBool bd) s) in *.
  assert (HX3 : heap s3 !! lx = Some X).
  { apply Hh13. unfold after_join. destruct (pd.merge _ _); simpl;
      [apply lookup_app_l_Some|]; exact HX. }
  assert (HY3 : heap s3 !! ly = Some Y).
  { apply Hh13. unfold after_join. destruct (pd.merge _ _); simpl;
      [apply lookup_app_l_Some|]; exact HY. }
  assert (E4 : st4 (PFrame lx) (PFrame ly) (PList l) (PBool bd) (PBool true) s
               = caught (same_body (PFrame lx) (PFrame ly))
                   "Unable to determine whether the Dataframes are the same" s3)
    by reflexivity.
  unfold after_join in Hh13, Hd13.
  destruct (pd.merge _ _) as [J|].
  - assert (Hsv : dict_temp s3 !! "same_values" = Some (PFrame (length (heap s)))).
    { rewrite Hd13 by (apply Hk; left). simpl. apply lookup_singleton_eq. }
    assert (HJ3 : heap s3 !! length (heap s) = Some J).
    { apply Hh13. simpl. apply lookup_app_length. }
    rewrite (caught_ok _ _ _ _ (same_body_run lx ly X Y _ J s3 HX3 HY3 Hsv HJ3)) in E4.
    rewrite E4 in Hh46, Hd46. simpl in Hh46, Hd46. split.
    + unfold table_of. rewrite Hd46 by discriminate.
      rewrite lookup_insert_ne by discriminate. rewrite Hsv. apply Hh46, HJ3.
    + rewrite Hd46 by discriminate. apply lookup_insert_eq.
  - assert (Hsv : dict_temp s3 !! "same_values" = None).
    { rewrite Hd13 by (apply Hk; left). simpl. apply lookup_empty. }
    assert (Hsm : dict_temp s3 !! "Same" = None).
    { rewrite Hd13 by (apply Hk; right; left). simpl. apply lookup_empty. }
    rewrite (caught_raise _ _ _ _ _ (same_body_absent lx ly X Y s3 HX3 HY3 Hsv)) in E4.
    rewrite E4 in Hd46. simpl in Hd46.
    rewrite !Hd46 by discriminate. auto.
Qed.

(** ** The equality flag *)

Lemma same_true_iff_shapes g lx ly l bd bc highlight X Y s :
  heap s !! lx = Some X -> heap s !! ly = Some Y -> is_frame highlight = false ->
  exists d s',
    compare g (PFrame lx) (PFrame ly) (PList l) (PBool bd) (PBool true) (PBool bc) highlight s
      = (Ok d, s') /\
    (d !! "Same" = Some (PBool true) <->
     exists J, table_of d s' "same_values" = Some J /\
               shape X = shape Y /\ shape X = shape J).
Proof.
  intros HX HY Hh.
  rewrite (compare_steps g lx ly l bd true bc highlight s Hh).
  eexists _, _. split; [reflexivity|].
  pose proof (same_flag_run g lx ly l bd bc highlight X Y s HX HY) as Hf. simpl in Hf.
  destruct (pd.merge _ _) as [J|] eqn:HJ.
  - destruct Hf as [Ht Hf]. rewrite Hf, Ht. unfold shapes_agree. split.
    + intros E. injection E as E. apply andb_true_iff in E as [E1 E2].
      apply bool_decide_eq_true in E1, E2. exists J. auto.
    + intros (J' & E & H1 & H2). injection E as <-.
      rewrite !bool_decide_eq_true_2 by assumption. reflexivity.
  - destruct Hf as [Ht Hf]. rewrite Hf. unfold table_of. rewrite Ht. split.
    + discriminate.
    + intros (J' & E & _). discriminate.
Qed.

(** ** Tables with different columns *)

Lemma NoDup_list_filter {A} (f : A -> bool) (l : list A) : NoDup l -> NoDup (List.filter f l).
Proof.
  induction 1 as [|a l Ha Hnd IH]; simpl; [constructor|].
  destruct (f a); [|exact IH]. constructor; [|exact IH].
  intros Hin. apply Ha. apply list_elem_of_In, filter_In in Hin as [Hin _].
  apply list_elem_of_In. exact Hin.
Qed.

Lemma common_cols_drop X Y :
  pd.common_cols (pd.drop_duplicates pd.KeepFirst X) (pd.drop_duplicates pd.KeepFirst Y)
  = pd.common_cols X Y.
Proof. unfold pd.common_cols. rewrite !columns_drop_duplicates. reflexivity. Qed.

Lemma column_of_cells (P : value -> bool) df c :
  (forall r, r ∈ cells df -> exists v, get_cell (columns df) r c = Some v /\ P v = true) ->
  Forall (fun v => P v = true) (pd.column_of df c).
Proof.
  intros H. unfold pd.column_of. apply Forall_forall. intros v Hv.
  apply list_elem_of_omap in Hv as (r & Hr & Hg).
  destruct (H r Hr) as (w & Hw & HP). congruence.
Qed.

Lemma column_of_nonempty df c :
  cells df <> [] -> (forall r, r ∈ cells df -> is_Some (get_cell (columns df) r c)) ->
  pd.column_of df c <> [].
Proof.
  unfold pd.column_of. destruct (cells df) as [|r l]; [congruence|]. intros _ H.
  destruct (H r) as [v Hv]; [left|]. simpl. rewrite Hv. discriminate.
Qed.

Lemma cells_drop_nonempty df :
  cells df <> [] -> cells (pd.drop_duplicates pd.KeepFirst df) <> [].
Proof.
  intros Hne. destruct (decide (columns df = [])) as [E|E].
  - unfold pd.drop_duplicates. rewrite bool_decide_eq_true_2 by exact E. exact Hne.
  - rewrite cells_drop_first by exact E.
    destruct (cells df) as [|r l]; [congruence|]. discriminate.
Qed.

(** A key column of ints against one of strings cannot be compared. *)
Lemma key_mode_int_str la lb :
  la <> [] -> Forall (fun v => pd.is_int v = true) la ->
  lb <> [] -> Forall (fun v => pd.is_text v = true) lb ->
  pd.key_mode_of la lb = None /\ pd.key_mode_of lb la = None.
Proof.
  intros Na Ha Nb Hb.
  assert (Ib : pd.infer lb = pd.IString).
  { unfold pd.infer. rewrite (dtype_of_strs lb Hb).
    rewrite bool_decide_eq_false_2 by exact Nb.
    rewrite (proj2 (forallb_forall _ _)); [reflexivity|].
    intros v Hv. rewrite Forall_forall in Hb. apply Hb, list_elem_of_In, Hv. }
  unfold pd.key_mode_of. rewrite !bool_decide_eq_false_2 by assumption. cbn [xorb].
  rewrite (dtype_of_ints la Na Ha), (dtype_of_strs lb Hb), (infer_ints la Na Ha), Ib.
  split; reflexivity.
Qed.

Lemma merge_key_failure a b : pd.key_modes a b = None -> pd.merge a b = None.
Proof.
  intros E. unfold pd.merge. rewrite E.
  destruct (bool_decide _); [reflexivity|]. destruct (negb _); reflexivity.
Qed.

Lemma merge_key_success a b modes :
  wf_frame a -> wf_frame b -> pd.common_cols a b <> [] ->
  pd.key_modes a b = Some modes ->
  exists J,
    pd.merge a b = Some J /\
    columns J =
      columns a ++ List.filter (fun c => negb (memb c (pd.common_cols a b))) (columns b).
Proof.
  intros [Wa _] [Wb _] Hne E. unfold pd.merge. rewrite E.
  rewrite bool_decide_eq_false_2 by assumption.
  unfold pd.unique_b. rewrite !bool_decide_eq_true_2.
  - cbn [negb andb]. eexists. split; reflexivity.
  - apply NoDup_list_filter. exact Wb.
  - apply NoDup_list_filter. exact Wa.
Qed.

(** Where a shared column holds ints in one table and strings in the
    other, the join raises. *)
Lemma merge_fails_kinds X Y c :
  c ∈ pd.common_cols X Y ->
  (int_column X c /\ str_column Y c) \/ (str_column X c /\ int_column Y c) ->
  pd.merge (pd.drop_duplicates pd.KeepFirst X) (pd.drop_duplicates pd.KeepFirst Y) = None.
Proof.
  intros Hc Hk. apply merge_key_failure. unfold pd.key_modes.
  rewrite common_cols_drop. apply mapM_None_2, Exists_exists. exists c.
  split; [exact Hc|].
  assert (Hcol : forall (P : value -> bool) df,
            cells df <> [] ->
            (forall r, r ∈ cells df -> exists v, get_cell (columns df) r c = Some v /\ P v = true) ->
            pd.column_of (pd.drop_duplicates pd.KeepFirst df) c <> [] /\
            Forall (fun v => P v = true) (pd.column_of (pd.drop_duplicates pd.KeepFirst df) c)).
  { intros P df Hne H.
    assert (H' : forall r, r ∈ cells (pd.drop_duplicates pd.KeepFirst df) ->
                   exists v, get_cell (columns (pd.drop_duplicates pd.KeepFirst df)) r c = Some v
                             /\ P v = true).
    { intros r Hr. rewrite columns_drop_duplicates. apply H. eapply cells_drop_sub, Hr. }
    split; [|apply column_of_cells, H'].
    apply column_of_nonempty; [apply cells_drop_nonempty, Hne|].
    intros r Hr. destruct (H' r Hr) as (v & Hv & _). eauto. }
  destruct Hk as [[[NX HX] [NY HY]]|[[NX HX] [NY HY]]].
  - destruct (Hcol pd.is_int X NX) as [N1 F1].
    { intros r Hr. destruct (HX r Hr) as [z Hz]. eauto. }
    destruct (Hcol pd.is_text Y NY) as [N2 F2].
    { intros r Hr. destruct (HY r Hr) as [z Hz]. eauto. }
    apply (key_mode_int_str _ _ N1 F1 N2 F2).
  - destruct (Hcol pd.is_text X NX) as [N1 F1].
    { intros r Hr. destruct (HX r Hr) as [z Hz]. eauto. }
    destruct (Hcol pd.is_int Y NY) as [N2 F2].
    { intros r Hr. destruct (HY r Hr) as [z Hz]. eauto. }
    apply (key_mode_int_str _ _ N2 F2 N1 F1).
Qed.

Lemma map_eq_elem {A B} (f h : A -> B) (l : list A) (a : A) :
  map f l = map h l -> a ∈ l -> f a = h a.
Proof.
  induction l as [|b l IH]; simpl; intros E Ha; [inversion Ha|].
  injection E as E1 E2. apply elem_of_cons in Ha as [->|Ha]; auto.
Qed.

Lemma kinds_agree_mode a b c m :
  kinds_agree a b c ->
  pd.key_mode_of (pd.column_of a c) (pd.column_of b c) = Some m -> m <> pd.AsFloat.
Proof.
  intros Hk Hm.
  destruct (key_mode_plain (pd.column_of a c) (pd.column_of b c)) as (m' & Hm' & Hf).
  - destruct Hk as [[Ha Hb]|[Ha Hb]]; [left|right]; apply Forall_app; split;
      apply column_of_cells; intros r Hr;
      first [destruct (Ha r Hr) as [z Hz] | destruct (Hb r Hr) as [z Hz]]; eauto.
  - congruence.
Qed.

(** The rows of the join of two tables whose shared columns hold ints in
    both or strings in both: a row of the first table followed by the
    other cells of a row of the second that has the same cells under the
    shared columns. *)
Lemma merge_rows a b J :
  (forall c, c ∈ pd.common_cols a b -> kinds_agree a b c) ->
  pd.merge a b = Some J ->
  forall r,
    r ∈ cells J <->
    exists ra rb,
      ra ∈ cells a /\ rb ∈ cells b /\
      (forall c, c ∈ pd.common_cols a b ->
         get_cell (columns a) ra c = get_cell (columns b) rb c) /\
      r = ra ++ map (fun c => default VNaN (get_cell (columns b) rb c))
                    (List.filter (fun c => negb (memb c (pd.common_cols a b))) (columns b)).
Proof.
  intros Hk HJ r. unfold pd.merge in HJ.
  destruct (bool_decide (pd.common_cols a b = [])); [discriminate|].
  destruct (negb _); [discriminate|].
  destruct (pd.key_modes a b) as [modes|] eqn:Emodes; [|discriminate].
  injection HJ as <-. unfold cells at 1. cbn [rows]. rewrite cells_range_index.
  set (on := pd.common_cols a b) in *.
  set (rest := List.filter (fun c => negb (memb c on)) (columns b)).
  assert (Hkey : forall ra rb, ra ∈ cells a -> rb ∈ cells b ->
            (pd.key_of modes (columns b) on rb = pd.key_of modes (columns a) on ra <->
             forall c, c ∈ on -> get_cell (columns a) ra c = get_cell (columns b) rb c)).
  { intros ra rb Hra Hrb.
    assert (Fa : Forall2 (fun m c => exists v, get_cell (columns a) ra c = Some v /\
                                             pd.key_norm m v = v) modes on).
    { eapply Forall2_mapM_elem; [exact Emodes|]. intros c m Hc Hm.
      pose proof (kinds_agree_mode a b c m (Hk c Hc) Hm) as Hf.
      destruct (Hk c Hc) as [[Ha _]|[Ha _]]; destruct (Ha ra Hra) as [z Hz];
        eexists; (split; [exact Hz|]); apply key_norm_plain; auto. }
    assert (Fb : Forall2 (fun m c => exists v, get_cell (columns b) rb c = Some v /\
                                             pd.key_norm m v = v) modes on).
    { eapply Forall2_mapM_elem; [exact Emodes|]. intros c m Hc Hm.
      pose proof (kinds_agree_mode a b c m (Hk c Hc) Hm) as Hf.
      destruct (Hk c Hc) as [[_ Hb]|[_ Hb]]; destruct (Hb rb Hrb) as [z Hz];
        eexists; (split; [exact Hz|]); apply key_norm_plain; auto. }
    rewrite (key_of_plain _ _ _ _ Fa), (key_of_plain _ _ _ _ Fb).
    unfold pd.reindex_row. split.
    - intros E c Hc. apply map_Some_inj in E.
      pose proof (map_eq_elem _ _ on c E Hc) as Ec. cbv beta in Ec.
      destruct (Hk c Hc) as [[Ha Hb]|[Ha Hb]];
        destruct (Ha ra Hra) as [z Hz]; destruct (Hb rb Hrb) as [z' Hz'];
        rewrite Hz, Hz' in *; simpl in Ec; congruence.
    - intros E. f_equal. apply map_ext_in. intros c Hc.
      rewrite (E c) by (apply list_elem_of_In, Hc). reflexivity. }
  rewrite list_elem_of_In, in_flat_map. split.
  - intros (ra & Hra & Hr). apply in_map_iff in Hr as (rb & <- & Hrb).
    apply filter_In in Hrb as [Hrb Heq]. apply bool_decide_eq_true in Heq.
    apply list_elem_of_In in Hra, Hrb.
    exists ra, rb. split; [exact Hra|]. split; [exact Hrb|].
    split; [apply Hkey; assumption | reflexivity].
  - intros (ra & rb & Hra & Hrb & Heq & ->). exists ra.
    split; [apply list_elem_of_In, Hra|].
    apply in_map_iff. exists rb. split; [reflexivity|].
    apply filter_In. split; [apply list_elem_of_In, Hrb|].
    apply bool_decide_eq_true. apply Hkey; assumption.
Qed.

Lemma cells_drop_first_elem df r :
  r ∈ cells (pd.drop_duplicates pd.KeepFirst df) <-> r ∈ cells df.
Proof.
  destruct (decide (columns df = [])) as [E|E].
  - unfold pd.drop_duplicates. rewrite bool_decide_eq_true_2 by exact E. reflexivity.
  - rewrite cells_drop_first by exact E. rewrite elem_of_first_occ.
    split; [tauto|]. intros H. split; [exact H | apply not_elem_of_nil].
Qed.

(** The join succeeds when the two tables share a column and every shared
    column holds ints in both tables or strings in both. *)
Lemma merge_succeeds X Y :
  wf_frame X -> wf_frame Y -> pd.common_cols X Y <> [] ->
  (forall c, c ∈ pd.common_cols X Y -> kinds_agree X Y c) ->
  exists J,
    pd.merge (pd.drop_duplicates pd.KeepFirst X) (pd.drop_duplicates pd.KeepFirst Y) = Some J /\
    columns J =
      columns X ++ List.filter (fun c => negb (memb c (pd.common_cols X Y))) (columns Y).
Proof.
  intros WX WY Hne Hk.
  pose proof (wf_drop_duplicates pd.KeepFirst X WX) as WX'.
  pose proof (wf_drop_duplicates pd.KeepFirst Y WY) as WY'.
  set (X' := pd.drop_duplicates pd.KeepFirst X) in *.
  set (Y' := pd.drop_duplicates pd.KeepFirst Y) in *.
  assert (Hmodes : is_Some (pd.key_modes X' Y')).
  { unfold pd.key_modes. apply mapM_is_Some_2, Forall_forall. intros c Hc.
    unfold X', Y' in Hc. rewrite common_cols_drop in Hc. unfold compose.
    assert (Hsub : forall (P : value -> bool) df,
              (forall r, r ∈ cells df ->
                 exists v, get_cell (columns df) r c = Some v /\ P v = true) ->
              Forall (fun v => P v = true)
                (pd.column_of (pd.drop_duplicates pd.KeepFirst df) c)).
    { intros P df H. apply column_of_cells. intros r Hr.
      rewrite columns_drop_duplicates. apply H. eapply cells_drop_sub, Hr. }
    destruct (key_mode_plain (pd.column_of X' c) (pd.column_of Y' c)) as (m & Hm & _);
      [|rewrite Hm; eauto].
    destruct (Hk c Hc) as [[HX HY]|[HX HY]]; [left|right]; apply Forall_app; split;
      apply Hsub; intros r Hr;
      first [destruct (HX r Hr) as [z Hz] | destruct (HY r Hr) as [z Hz]]; eauto. }
  destruct Hmodes as [modes Hmodes].
  destruct (merge_key_success X' Y' modes WX' WY') as (J & HJ & Hcols); [|exact Hmodes|].
  - unfold X', Y'. rewrite common_cols_drop. exact Hne.
  - exists J. split; [exact HJ|]. rewrite Hcols. unfold X', Y'.
    rewrite common_cols_drop, !columns_drop_duplicates. reflexivity.
Qed.

(** The result of a join is labelled [0, 1, ...]. *)
Lemma merge_labels a b J :
  pd.merge a b = Some J -> labels J = seq 0 (length (cells J)).
Proof.
  unfold pd.merge. intros HJ.
  destruct (bool_decide (pd.common_cols a b = [])); [discriminate|].
  destruct (negb _); [discriminate|].
  destruct (pd.key_modes a b); [|discriminate].
  injection HJ as <-. unfold labels, cells. cbn [rows].
  rewrite labels_range_index, cells_range_index. reflexivity.
Qed.

(** The rows of the join of the two tables without their repeated rows. *)
Lemma merge_drop_rows X Y J :
  (forall c, c ∈ pd.common_cols X Y -> kinds_agree X Y c) ->
  pd.merge (pd.drop_duplicates pd.KeepFirst X) (pd.drop_duplicates pd.KeepFirst Y) = Some J ->
  forall r,
    r ∈ cells J <->
    exists ra rb,
      ra ∈ cells X /\ rb ∈ cells Y /\
      (forall c, c ∈ pd.common_cols X Y ->
         get_cell (columns X) ra c = get_cell (columns Y) rb c) /\
      r = ra ++ map (fun c => default VNaN (get_cell (columns Y) rb c))
                    (List.filter (fun c => negb (memb c (pd.common_cols X Y))) (columns Y)).
Proof.
  intros Hk HJ r.
  assert (Hk' : forall c,
            c ∈ pd.common_cols (pd.drop_duplicates pd.KeepFirst X)
                  (pd.drop_duplicates pd.KeepFirst Y) ->
            kinds_agree (pd.drop_duplicates pd.KeepFirst X)
              (pd.drop_duplicates pd.KeepFirst Y) c).
  { intros c Hc. rewrite common_cols_drop in Hc. unfold kinds_agree.
    rewrite !columns_drop_duplicates.
    destruct (Hk c Hc) as [[HX HY]|[HX HY]]; [left|right]; split; intros r' Hr';
      first [apply HX, (cells_drop_first_elem X), Hr' | apply HY, (cells_drop_first_elem Y), Hr']. }
  rewrite (merge_rows _ _ J Hk' HJ).
  rewrite common_cols_drop, !columns_drop_duplicates.
  split; intros (ra & rb & Hra & Hrb & H); exists ra, rb;
    (split; [apply (cells_drop_first_elem X), Hra|]);
    (split; [apply (cells_drop_first_elem Y), Hrb|]); exact H.
Qed.

Lemma merge_fails_disjoint X Y :
  pd.common_cols X Y = [] ->
  pd.merge (pd.drop_duplicates pd.KeepFirst X) (pd.drop_duplicates pd.KeepFirst Y) = None.
Proof.
  intros E. unfold pd.merge. rewrite common_cols_drop, E. reflexivity.
Qed.

Lemma extends_st1_st6 g x y names dups same comment highlight s :
  extends (step_keys names) (st1 x y s) (st6 g x y names dups same comment highlight s).
Proof.
  eapply extends_trans; [|eapply extends_trans].
  - eapply extends_weaken; [|apply (extends_st1_st3 x y names dups s)].
    unfold step_keys. tauto.
  - apply (extends_guarded (step_keys names) same (same_body x y)).
    apply grows_same_body. unfold step_keys. auto.
  - eapply extends_weaken; [|apply (extends_st4_st6 g x y names dups same comment highlight s)].
    unfold step_keys. tauto.
Qed.

Lemma same_values_not_step names : ~ step_keys names "same_values".
Proof.
  intros [H|[H|[H|H]]]; try discriminate.
  - eapply fixed_not_not_keys; [|exact H]. left.
  - eapply fixed_not_dups_keys; [|exact H]. left.
Qed.

Lemma join_outcome g lx ly l bd bs bc highlight X Y s :
  heap s !! lx = Some X -> heap s !! ly = Some Y ->
  let sf := st6 g (PFrame lx) (PFrame ly) (PList l) (PBool bd) (PBool bs) (PBool bc)
              highlight s in
  match pd.merge (pd.drop_duplicates pd.KeepFirst X) (pd.drop_duplicates pd.KeepFirst Y) with
  | Some J => table_of (dict_temp sf) sf "same_values" = Some J
  | None =>
      dict_temp sf !! "same_values" = None /\
      "Unable to identify same values" ∈ stdout sf
  end.
Proof.
  intros HX HY sf.
  pose proof (extends_st1_st6 g (PFrame lx) (PFrame ly) (PList l) (PBool bd) (PBool bs)
                (PBool bc) highlight s) as (Hh & Ho & Hd).
  fold sf in Hh, Ho, Hd.
  rewrite (st1_after_join lx ly X Y s HX HY) in Hh, Ho, Hd.
  pose proof (same_values_not_step (PList l)) as Hk.
  unfold after_join in *. destruct (pd.merge _ _) as [J|].
  - unfold table_of. rewrite (Hd _ Hk). simpl. rewrite lookup_singleton_eq.
    apply Hh. simpl. apply lookup_app_length.
  - split.
    + rewrite (Hd _ Hk). simpl. apply lookup_empty.
    + eapply list_le_elem; [exact Ho|]. simpl. apply elem_of_app. right. left.
Qed.

(** ** What a failing step leaves behind *)



Lemma duplicates_of_run l V t :
  heap t !! l = Some V ->
  duplicates_of (PFrame l) t =
    (Ok (PFrame (length (heap t))),
     mkState (heap t ++ [pd.boolean_index V (pd.duplicated pd.KeepFirst V)])
       (stdout t) (dict_temp t)).
Proof. intros HV. unfold duplicates_of. rewrite bind_eq. simpl. rewrite HV. reflexivity. Qed.



Lemma extends_st0_st2 x y names s :
  extends (fun k => k = "same_values" \/ k ∈ not_keys names) (st0 s) (st2 x y names s).
Proof.
  eapply extends_trans.
  - apply (extends_caught _ (join_body x y)). apply grows_join_body. auto.
  - apply (extends_caught _ (outliers_body x y names)). apply grows_outliers_body. auto.
Qed.

Lemma extends_st0_st3 x y names dups s :
  extends (fun k => k = "same_values" \/ k ∈ not_keys names \/ k ∈ dups_keys names)
    (st0 s) (st3 x y names dups s).
Proof.
  eapply extends_trans.
  - eapply extends_weaken; [|apply (extends_st0_st2 x y names s)]. cbv beta. tauto.
  - apply (extends_guarded _ dups (dups_body x y names)). apply grows_dups_body. auto.
Qed.

Lemma extends_st0_st4 x y names dups same s :
  extends (fun k => k = "same_values" \/ k ∈ not_keys names \/ k ∈ dups_keys names
                    \/ k = "Same")
    (st0 s) (st4 x y names dups same s).
Proof.
  eapply extends_trans.
  - eapply extends_weaken; [|apply (extends_st0_st3 x y names dups s)]. cbv beta. tauto.
  - apply (extends_guarded _ same (same_body x y)). apply grows_same_body. auto.
Qed.

Lemma extends_st3_st6 g x y names dups same comment highlight s :
  extends (fun k => k = "Same" \/ k = "highlight")
    (st3 x y names dups s) (st6 g x y names dups same comment highlight s).
Proof.
  eapply extends_trans.
  - apply (extends_guarded _ same (same_body x y)). apply grows_same_body. auto.
  - eapply extends_weaken;
      [|apply (extends_st4_st6 g x y names dups same comment highlight s)]. cbv beta. tauto.
Qed.


Lemma extends_st5_st6 g x y names dups same comment highlight s :
  extends (fun _ => False)
    (st5 g x y names dups same highlight s) (st6 g x y names dups same comment highlight s).
Proof. apply (extends_caught _ (comment_body names dups same comment)), grows_comment_body. Qed.





(** ** Rows of tables of one kind per column *)

Lemma same_kinds_rows X Y :
  wf_frame X -> wf_frame Y -> columns X = columns Y -> same_kinds X Y = true ->
  plain_rows (length (columns X)) (cells X) /\ plain_rows (length (columns Y)) (cells Y).
Proof.
  intros WX WY Hcols Hk. pose proof (same_kinds_spec X Y Hk) as Hp.
  split; apply plain_at_rows.
  - intros r Hr. apply wf_cells_length; assumption.
  - intros j Hj. apply (plain_at_sub j (cells X ++ cells Y)); [|apply Hp, Hj].
    intros r Hr. apply elem_of_app. left. exact Hr.
  - intros r Hr. apply wf_cells_length; assumption.
  - intros j Hj. apply (plain_at_sub j (cells X ++ cells Y));
      [|apply Hp; rewrite Hcols; exact Hj].
    intros r Hr. apply elem_of_app. right. exact Hr.
Qed.

Lemma filter_sublist {A} (f : A -> bool) (l : list A) : sublist (List.filter f l) l.
Proof.
  induction l as [|a l IH]; simpl; [constructor|].
  destruct (f a); constructor; exact IH.
Qed.

Lemma select_negb_map_on {A B} (g : B -> bool) (f : A -> B) (L : list A) :
  pd.select (map negb (map g (map f L))) L = List.filter (fun a => negb (g (f a))) L.
Proof.
  induction L as [|a L IH]; simpl; [reflexivity|].
  destruct (g (f a)); simpl; rewrite IH; reflexivity.
Qed.

Lemma combine_seq_app {A} (n : nat) (a b : list A) :
  combine (seq n (length (a ++ b))) (a ++ b)
  = combine (seq n (length a)) a ++ combine (seq (n + length a) (length b)) b.
Proof.
  revert n. induction a as [|x a IH]; intros n; simpl.
  - rewrite Nat.add_0_r. reflexivity.
  - rewrite IH. replace (S n + length a) with (n + S (length a)) by lia. reflexivity.
Qed.

(** The residual frame, row by row: the rows of [V] that occur once in [V]
    and not in [J], under their positions in [V]. *)
Lemma residual_explicit V J :
  wf_frame V -> wf_frame J -> columns V = columns J -> columns V <> [] ->
  plain_rows (length (columns V)) (cells V) ->
  (forall r, r ∈ cells J -> r ∈ cells V) ->
  residual V J
  = mkDF (columns V)
      (List.filter (fun lr => once (cells V ++ cells J) (snd lr)) (pd.range_index (cells V))).
Proof.
  intros WV WJ Hcols Hne Hplain Hsub. unfold residual.
  rewrite (concat_same_cols V J WV WJ Hcols (plain_rows_app _ _ _ Hplain Hsub)).
  unfold pd.drop_duplicates, pd.boolean_index, pd.duplicated, pd.duplicated_all.
  cbn [columns rows]. rewrite !bool_decide_eq_false_2 by exact Hne. cbn [columns rows].
  f_equal.
  set (c := cells V ++ cells J).
  assert (Hc : cells (mkDF (columns V) (pd.range_index c)) = map snd (pd.range_index c))
    by reflexivity.
  rewrite Hc. rewrite select_negb_map_on.
  rewrite (cells_range_index c).
  change (fun a => negb (bool_decide (2 <= pd.occurrences (a.2) c)))
    with (fun lr : nat * row => once c (snd lr)).
  unfold pd.range_index, c. rewrite combine_seq_app, List.filter_app.
  rewrite (filter_none _ (combine (seq (0 + length (cells V)) _) _)); [apply app_nil_r|].
  intros [i r] Hin. apply list_elem_of_In, in_combine_r in Hin. apply list_elem_of_In in Hin.
  unfold once. cbn [snd]. apply negb_false_iff, bool_decide_eq_true.
  rewrite occurrences_app.
  pose proof (proj1 (occurrences_pos r _) Hin).
  pose proof (proj1 (occurrences_pos r _) (Hsub r Hin)). lia.
Qed.

Lemma wf_join X Y J :
  wf_frame X -> columns J = columns X ->
  cells J = List.filter (fun r => memb r (cells Y)) (first_occ [] (cells X)) ->
  wf_frame J.
Proof.
  intros WX HcJ HJc. split; [rewrite HcJ; apply WX|]. rewrite Forall_forall. intros r Hr.
  rewrite HJc in Hr. apply elem_of_filter_memb in Hr as [Hr _].
  rewrite HcJ. apply wf_cells_length; [exact WX|]. eapply first_occ_sub, Hr.
Qed.

(** Well-formedness of a closed frame. *)
Ltac wf_closed :=
  split; [apply (bool_decide_unpack _); vm_compute; exact I | repeat constructor].

(** * The claims *)



(** C9: [compare] never changes the tables it is given: after the call,
    whatever it returned or raised, both inputs hold the rows and values
    they held before. *)
Theorem compare_preserves_inputs g s lx ly X Y names dups same comment highlight :
  heap s !! lx = Some X -> heap s !! ly = Some Y ->
  heap (snd (compare g (PFrame lx) (PFrame ly) names dups same comment highlight s)) !! lx
    = Some X /\
  heap (snd (compare g (PFrame lx) (PFrame ly) names dups same comment highlight s)) !! ly
    = Some Y.
Proof.
  intros HX HY.
  destruct (grows_compare g (PFrame lx) (PFrame ly) names dups same comment highlight s)
    as (Hh & _).
  split; apply Hh; assumption.
Qed.

Lemma compare_preserves_inputs_witness :
  heap (snd (compare aliasing_globals (PFrame 0) (PFrame 1) (PList ["x"; "y"])
               (PBool true) (PBool true) (PBool true) (PBool true)
               (mkState [spec_A; spec_B] [] ∅))) !! 0 = Some spec_A /\
  heap (snd (compare aliasing_globals (PFrame 0) (PFrame 1) (PList ["x"; "y"])
               (PBool true) (PBool true) (PBool true) (PBool true)
               (mkState [spec_A; spec_B] [] ∅))) !! 1 = Some spec_B.
Proof.
  apply (compare_preserves_inputs aliasing_globals (mkState [spec_A; spec_B] [] ∅) 0 1
           spec_A spec_B); reflexivity.
Defined.




(** C1: in the worked scenario the highlight row should read
    [{id: "-", v: "b/c"}].  The step reads the tables from a module-level
    name [dict_comp] that the module never binds: it raises [NameError],
    the failure is printed, and the result holds no ['highlight'] entry. *)
Theorem highlight_missing_in_scenario :
  let r := call module_globals spec_A spec_B (PList ["df1"; "df2"])
             (PBool false) (PBool false) (PBool false) (PBool true) in
  table r "df1_not_df2" = Some (mkDF ["id"; "v"] [(1, [VInt 2; VStr "b"])]) /\
  table r "df2_not_df1" = Some (mkDF ["id"; "v"] [(1, [VInt 2; VStr "c"])]) /\
  entry r "highlight" = None /\
  stdout (snd r) = ["Unable to calculate highlight"].
Proof. vm_compute. repeat split. Qed.

(** The highlight step fails the same way on every call made from the
    module as it stands. *)
Lemma highlight_body_NameError s :
  highlight_body module_globals s = (Raise (NameError "dict_comp"), s).
Proof. reflexivity. Qed.

(** Had [dict_comp] been bound to the result of an earlier call with
    [names = ['df1', 'df2']], as in an interactive session, the step would
    produce the row the scenario expects. *)
Lemma highlight_with_bound_dict_comp :
  let r1 := call module_globals spec_A spec_B (PList ["df1"; "df2"])
              (PBool false) (PBool false) (PBool false) (PBool true) in
  forall d, returned r1 = Some d ->
  let r2 := compare (<["dict_comp" := GDict d]> module_globals) (PFrame 0) (PFrame 1)
              (PList ["df1"; "df2"]) (PBool false) (PBool false) (PBool false)
              (PBool true) (snd r1) in
  table r2 "highlight" = Some (mkDF ["id"; "v"] [(1, [VStr "-"; VStr "b/c"])]).
Proof. intros r1 d Hd. vm_compute in Hd. injection Hd as <-. vm_compute. reflexivity. Qed.

(** C2: ['same'] and [onlyInFirst] together should give back the rows of
    the first input.  For [A = [{x:1},{x:1}]] and [B = [{x:2}]] both are
    empty: the row that [A] holds twice is in neither. *)
Theorem repeated_row_lost :
  let r := call module_globals (column_x [1; 1]%Z) (column_x [2]%Z) (PList ["x"; "y"])
             (PBool false) (PBool false) (PBool false) (PBool true) in
  table r "same_values" = Some (mkDF ["x"] []) /\
  table r "x_not_y" = Some (mkDF ["x"] []) /\
  cells (pd.drop_duplicates pd.KeepFirst (column_x [1; 1]%Z)) = [[VInt 1]].
Proof. vm_compute. repeat split. Qed.


(** C4: [compare(A, A)] should report the tables equal.  For
    [A = [{x:1},{x:1}]] the residual tables are empty and ['same'] is the
    deduplicated [A], but the flag is [False]: the shape of [A] is (2, 1)
    and that of ['same'] is (1, 1). *)
Theorem self_compare_with_repeated_row :
  let r := call module_globals (column_x [1; 1]%Z) (column_x [1; 1]%Z) (PList ["x"; "y"])
             (PBool false) (PBool true) (PBool false) (PBool true) in
  entry r "Same" = Some (PBool false) /\
  table r "same_values" = Some (mkDF ["x"] [(0, [VInt 1])]) /\
  table r "x_not_y" = Some (mkDF ["x"] []) /\
  table r "y_not_x" = Some (mkDF ["x"] []).
Proof. vm_compute. repeat split. Qed.

(** C7: a call with a wrong argument should raise [ValueError] before
    anything is computed.  The [highlight] flag is not part of the
    [isinstance] chain: with [highlight = 'yes'] the call runs every step
    and returns a dictionary. *)
Theorem highlight_flag_not_validated :
  let r := call module_globals spec_A spec_B (PList ["x"; "y"])
             (PBool false) (PBool true) (PBool false) (PStr "yes") in
  entry r "Same" = Some (PBool false) /\
  table r "same_values" = Some (mkDF ["id"; "v"] [(0, [VInt 1; VStr "a"])]) /\
  length (heap (snd r)) = 5.
Proof. vm_compute. repeat split. Qed.

(** C5: with the equality flag enabled, ['Same'] is [True] exactly when
    the shapes of [A], of [B] and of ['same'] coincide.  It is a shape
    check only and may report [True] when the rows differ: the table
    holding the int 2^53 + 1 and the table holding the float 2^53 are
    reported the same, since [merge] compares an int64 key with a float64
    key as floats and 2^53 + 1 rounds to 2^53. *)
Theorem equality_flag_is_shape_check g s lx ly X Y l bd bc highlight :
  heap s !! lx = Some X -> heap s !! ly = Some Y -> is_frame highlight = false ->
  (exists d s',
     compare g (PFrame lx) (PFrame ly) (PList l) (PBool bd) (PBool true) (PBool bc)
       highlight s = (Ok d, s') /\
     (d !! "Same" = Some (PBool true) <->
      exists J, table_of d s' "same_values" = Some J /\
                shape X = shape Y /\ shape X = shape J)) /\
  (let r := call module_globals int_above_2_53 float_2_53 (PList ["x"; "y"])
              (PBool false) (PBool true) (PBool false) (PBool true) in
   entry r "Same" = Some (PBool true) /\
   table r "same_values" = Some int_above_2_53 /\
   cells int_above_2_53 = [[VInt 9007199254740993]] /\
   cells float_2_53 = [[VFloat 9007199254740992]] /\
   ~ cells int_above_2_53 ≡ₚ cells float_2_53).
Proof.
  intros HX HY Hh. split.
  - destruct (same_true_iff_shapes g lx ly l bd bc highlight X Y s HX HY Hh)
      as (d & s' & Hrun & Hiff).
    exists d, s'. split; [exact Hrun | exact Hiff].
  - cbv zeta. split; [vm_compute; reflexivity|]. split; [vm_compute; reflexivity|].
    split; [reflexivity|]. split; [reflexivity|].
    intros H. apply Permutation_singleton_l in H. discriminate.
Qed.

Lemma equality_flag_is_shape_check_witness :
  (exists d s',
     compare module_globals (PFrame 0) (PFrame 1) (PList ["x"; "y"])
       (PBool false) (PBool true) (PBool false) (PBool true)
       (mkState [column_x [1; 2]%Z; column_x [2; 1]%Z] [] ∅) = (Ok d, s') /\
     (d !! "Same" = Some (PBool true) <->
      exists J, table_of d s' "same_values" = Some J /\
                shape (column_x [1; 2]%Z) = shape (column_x [2; 1]%Z) /\
                shape (column_x [1; 2]%Z) = shape J)) /\
  (let r := call module_globals int_above_2_53 float_2_53 (PList ["x"; "y"])
              (PBool false) (PBool true) (PBool false) (PBool true) in
   entry r "Same" = Some (PBool true) /\
   table r "same_values" = Some int_above_2_53 /\
   cells int_above_2_53 = [[VInt 9007199254740993]] /\
   cells float_2_53 = [[VFloat 9007199254740992]] /\
   ~ cells int_above_2_53 ≡ₚ cells float_2_53).
Proof.
  apply (equality_flag_is_shape_check module_globals
           (mkState [column_x [1; 2]%Z; column_x [2; 1]%Z] [] ∅) 0 1
           (column_x [1; 2]%Z) (column_x [2; 1]%Z) ["x"; "y"] false false (PBool true));
    reflexivity.
Defined.

(** C8, as stated, fails: the columns of the two tables differ, yet
    ['same'] is not empty. *)
Lemma shared_column_join_not_empty :
  let r := call module_globals left_iv right_iw (PList ["x"; "y"])
             (PBool false) (PBool false) (PBool false) (PBool true) in
  ~ (forall c, c ∈ columns left_iv <-> c ∈ columns right_iw) /\
  table r "same_values" =
    Some (mkDF ["id"; "v"; "w"] [(0, [VInt 1; VStr "a"; VStr "b"])]).
Proof.
  split; [|vm_compute; reflexivity].
  intros H. specialize (H "v"). simpl in H.
  assert (Hv : "v" ∈ ["id"; "w"]) by (apply H; right; left).
  apply elem_of_cons in Hv as [Hv|Hv]; [discriminate|].
  apply elem_of_cons in Hv as [Hv|Hv]; [discriminate | inversion Hv].
Qed.

(** C8 (as amended): for two tables whose columns differ the call does not
    raise and returns a dictionary.  When they share no column the join
    fails and is caught: the failure is printed and ['same_values'] is
    absent.  For tables of strings and of ints that fit int64: when a
    shared column holds ints in one table and strings in the other, the
    join fails in the same way; when they share a column and every shared
    column holds ints in both tables or strings in both, ['same_values']
    is the inner join
    on the shared columns, with the columns of the first table followed by
    the other columns of the second, labelled [0, 1, ...]; its rows are
    the rows of the first table followed by the other cells of a row of
    the second table that has the same cells under the shared columns. *)
Theorem mismatched_columns_join g s lx ly X Y l bd bs bc highlight :
  heap s !! lx = Some X -> heap s !! ly = Some Y ->
  wf_frame X -> wf_frame Y -> is_frame highlight = false ->
  ~ (forall c, c ∈ columns X <-> c ∈ columns Y) ->
  exists d s',
    compare g (PFrame lx) (PFrame ly) (PList l) (PBool bd) (PBool bs) (PBool bc) highlight s
      = (Ok d, s') /\
    (pd.common_cols X Y = [] ->
     d !! "same_values" = None /\ "Unable to identify same values" ∈ stdout s') /\
    (exact_table X = true -> exact_table Y = true ->
     (exists c, c ∈ pd.common_cols X Y /\
                ((int_column X c /\ str_column Y c) \/ (str_column X c /\ int_column Y c))) ->
     d !! "same_values" = None /\ "Unable to identify same values" ∈ stdout s') /\
    (exact_table X = true -> exact_table Y = true ->
     pd.common_cols X Y <> [] ->
     (forall c, c ∈ pd.common_cols X Y -> kinds_agree X Y c) ->
     exists J,
       pd.merge (pd.drop_duplicates pd.KeepFirst X) (pd.drop_duplicates pd.KeepFirst Y)
         = Some J /\
       table_of d s' "same_values" = Some J /\
       columns J =
         columns X ++ List.filter (fun c => negb (memb c (pd.common_cols X Y))) (columns Y) /\
       labels J = seq 0 (length (cells J)) /\
       forall r,
         r ∈ cells J <->
         exists ra rb,
           ra ∈ cells X /\ rb ∈ cells Y /\
           (forall c, c ∈ pd.common_cols X Y ->
              get_cell (columns X) ra c = get_cell (columns Y) rb c) /\
           r = ra ++ map (fun c => default VNaN (get_cell (columns Y) rb c))
                         (List.filter (fun c => negb (memb c (pd.common_cols X Y)))
                            (columns Y))).
Proof.
  intros HX HY WX WY Hh _.
  rewrite (compare_steps g lx ly l bd bs bc highlight s Hh).
  eexists _, _. split; [reflexivity|].
  pose proof (join_outcome g lx ly l bd bs bc highlight X Y s HX HY) as Hj. simpl in Hj.
  split; [|split].
  - intros E. rewrite (merge_fails_disjoint X Y E) in Hj. exact Hj.
  - intros _ _ (c & Hc & Hk). rewrite (merge_fails_kinds X Y c Hc Hk) in Hj. exact Hj.
  - intros _ _ Hne Hk. destruct (merge_succeeds X Y WX WY Hne Hk) as (J & HJ & Hc).
    rewrite HJ in Hj. exists J.
    split; [exact HJ|]. split; [exact Hj|]. split; [exact Hc|].
    split; [exact (merge_labels _ _ J HJ) | exact (merge_drop_rows X Y J Hk HJ)].
Qed.

Lemma mismatched_columns_join_witness :
  exists d s',
    compare module_globals (PFrame 0) (PFrame 1) (PList ["x"; "y"])
      (PBool false) (PBool false) (PBool false) (PBool true)
      (mkState [left_iv; right_iw] [] ∅) = (Ok d, s') /\
    (pd.common_cols left_iv right_iw = [] ->
     d !! "same_values" = None /\ "Unable to identify same values" ∈ stdout s') /\
    (exact_table left_iv = true -> exact_table right_iw = true ->
     (exists c, c ∈ pd.common_cols left_iv right_iw /\
                ((int_column left_iv c /\ str_column right_iw c) \/
                 (str_column left_iv c /\ int_column right_iw c))) ->
     d !! "same_values" = None /\ "Unable to identify same values" ∈ stdout s') /\
    (exact_table left_iv = true -> exact_table right_iw = true ->
     pd.common_cols left_iv right_iw <> [] ->
     (forall c, c ∈ pd.common_cols left_iv right_iw -> kinds_agree left_iv right_iw c) ->
     exists J,
       pd.merge (pd.drop_duplicates pd.KeepFirst left_iv)
         (pd.drop_duplicates pd.KeepFirst right_iw) = Some J /\
       table_of d s' "same_values" = Some J /\
       columns J =
         columns left_iv
         ++ List.filter (fun c => negb (memb c (pd.common_cols left_iv right_iw)))
              (columns right_iw) /\
       labels J = seq 0 (length (cells J)) /\
       forall r,
         r ∈ cells J <->
         exists ra rb,
           ra ∈ cells left_iv /\ rb ∈ cells right_iw /\
           (forall c, c ∈ pd.common_cols left_iv right_iw ->
              get_cell (columns left_iv) ra c = get_cell (columns right_iw) rb c) /\
           r = ra ++ map (fun c => default VNaN (get_cell (columns right_iw) rb c))
                         (List.filter
                            (fun c => negb (memb c (pd.common_cols left_iv right_iw)))
                            (columns right_iw))).
Proof.
  apply (mismatched_columns_join module_globals (mkState [left_iv; right_iw] [] ∅) 0 1
           left_iv right_iw ["x"; "y"] false false false (PBool true));
    [reflexivity | reflexivity | wf_closed | wf_closed | reflexivity |].
  intros H. specialize (H "v"). simpl in H.
  assert (Hv : "v" ∈ ["id"; "w"]) by (apply H; right; left).
  apply elem_of_cons in Hv as [Hv|Hv]; [discriminate|].
  apply elem_of_cons in Hv as [Hv|Hv]; [discriminate | inversion Hv].
Defined.




(** The part of C7 that holds: an argument rejected by the [isinstance]
    chain makes the call raise [ValueError] at once, the state untouched. *)
Lemma rejected_argument_raises_first g x y names dups same comment highlight s :
  is_frame x && is_frame y && is_list names && is_bool dups && is_bool same
    && is_bool comment = false ->
  exists msg,
    compare g x y names dups same comment highlight s = (Raise (ValueError msg), s).
Proof.
  intros H. rewrite compare_eq, bind_eq. unfold validate.
  destruct (is_frame x); simpl in *; [|eauto].
  destruct (is_frame y); simpl in *; [|eauto].
  destruct (is_list names); simpl in *; [|eauto].
  destruct (is_bool dups); simpl in *; [|eauto].
  destruct (is_bool same); simpl in *; [|eauto].
  destruct (is_bool comment); simpl in *; [discriminate | eauto].
Qed.


(** * Further properties *)

(** ** Slices, ranges and pieces *)

Lemma clamp_nat (n i : nat) : clamp n (Z.of_nat i) = Nat.min i n.
Proof.
  unfold clamp. destruct (Z.ltb_spec (Z.of_nat i) 0); [lia|].
  rewrite Nat2Z.id. reflexivity.
Qed.

Lemma py_slice_nat {A} (l : list A) (a b : nat) :
  a <= b ->
  py_slice l (Z.of_nat a) (Z.of_nat b) = take (b - a) (drop a l).
Proof.
  intros Hab. unfold py_slice. rewrite !clamp_nat.
  destruct (decide (a <= length l)) as [Ha|Ha].
  - rewrite (Nat.min_l a) by lia.
    destruct (decide (b <= length l)) as [Hb|Hb].
    + rewrite (Nat.min_l b) by lia. reflexivity.
    + rewrite (Nat.min_r b) by lia.
      rewrite !take_ge; [reflexivity | rewrite length_drop; lia | rewrite length_drop; lia].
  - rewrite (Nat.min_r a), (Nat.min_r b) by lia.
    rewrite !drop_ge by lia. rewrite !take_nil. reflexivity.
Qed.

Lemma chunks_aux_nil {A} (fuel w : nat) : chunks_aux fuel w ([] : list A) = [].
Proof. destruct fuel; reflexivity. Qed.

(** The slices [wrap] takes are the pieces of the string. *)
Lemma wrap_slices {A} (l : list A) (w : nat) (fuel t : nat) :
  0 < w ->
  map (fun t => py_slice l t (t + Z.of_nat w))
      (range_up fuel (Z.of_nat t) (Z.of_nat (length l)) (Z.of_nat w))
  = chunks_aux fuel w (drop t l).
Proof.
  intros Hw. revert t. induction fuel as [|fuel IH]; intros t; simpl; [reflexivity|].
  destruct (Z.ltb_spec (Z.of_nat t) (Z.of_nat (length l))) as [Hlt|Hge].
  - destruct (drop t l) as [|a rest] eqn:Ed.
    { apply (f_equal length) in Ed. rewrite length_drop in Ed. simpl in Ed. lia. }
    rewrite <- Ed. simpl. f_equal.
    + rewrite <- Nat2Z.inj_add. rewrite py_slice_nat by lia.
      f_equal. lia.
    + rewrite <- Nat2Z.inj_add, IH. rewrite drop_drop. reflexivity.
  - rewrite drop_ge by lia. reflexivity.
Qed.

(** The slices [fracture_list] takes are the pieces of the list. *)
Lemma fracture_slices {A} (l : list A) (w k : nat) (fuel i : nat) :
  0 < w -> (k - 1) * w < length l -> fuel = k - i -> i <= k ->
  map (fun j => py_slice l (Z.of_nat w * j) (Z.of_nat w * (j + 1)))
      (range_up fuel (Z.of_nat i) (Z.of_nat k) 1)
  = chunks_aux fuel w (drop (i * w) l).
Proof.
  intros Hw Hk. revert i. induction fuel as [|fuel IH]; intros i Hf Hi; simpl; [reflexivity|].
  destruct (Z.ltb_spec (Z.of_nat i) (Z.of_nat k)) as [Hlt|Hge]; [|lia].
  assert (Hlen : i * w < length l) by nia.
  destruct (drop (i * w) l) as [|a rest] eqn:Ed.
  { apply (f_equal length) in Ed. rewrite length_drop in Ed. simpl in Ed. lia. }
  rewrite <- Ed. simpl. f_equal.
  - replace (Z.of_nat w * Z.of_nat i)%Z with (Z.of_nat (i * w)) by lia.
    replace (Z.of_nat w * (Z.of_nat i + 1))%Z with (Z.of_nat (i * w + w)) by lia.
    rewrite py_slice_nat by lia. f_equal. lia.
  - replace (Z.of_nat i + 1)%Z with (Z.of_nat (S i)) by lia.
    rewrite IH by lia. rewrite drop_drop. f_equal. f_equal. lia.
Qed.

Lemma chunks_aux_fuel {A} (w : nat) (l : list A) (f f' : nat) :
  length l <= w * f -> length l <= w * f' -> chunks_aux f w l = chunks_aux f' w l.
Proof.
  revert f' l. induction f as [|f IH]; intros f' l H1 H2.
  - destruct l; [|simpl in H1; lia]. rewrite !chunks_aux_nil. reflexivity.
  - destruct l as [|a l]; [rewrite !chunks_aux_nil; reflexivity|].
    destruct f' as [|f']; [simpl in H2; lia|].
    simpl. f_equal. apply IH; rewrite length_drop; simpl in *; lia.
Qed.

Lemma chunks_aux_concat {A} (w : nat) (l : list A) (fuel : nat) :
  0 < w -> length l <= fuel -> concat (chunks_aux fuel w l) = l.
Proof.
  intros Hw. revert l. induction fuel as [|fuel IH]; intros l Hl.
  - destruct l; [reflexivity | simpl in Hl; lia].
  - destruct l as [|a l]; [reflexivity|].
    change (concat (chunks_aux (S fuel) w (a :: l)))
      with (take w (a :: l) ++ concat (chunks_aux fuel w (drop w (a :: l)))).
    rewrite IH; [apply take_drop|]. rewrite length_drop. simpl in *. lia.
Qed.

Lemma chunks_aux_pieces {A} (w : nat) (l : list A) (fuel : nat) :
  0 < w -> pieces_of w (chunks_aux fuel w l).
Proof.
  intros Hw. revert l. induction fuel as [|fuel IH]; intros l.
  - split; [constructor | intros i c H; inversion H].
  - destruct l as [|a l]; [split; [constructor | intros i c H; inversion H]|].
    change (chunks_aux (S fuel) w (a :: l))
      with (take w (a :: l) :: chunks_aux fuel w (drop w (a :: l))).
    destruct (IH (drop w (a :: l))) as [IH1 IH2]. split.
    + constructor; [|exact IH1]. split.
      * destruct w; [lia|]. discriminate.
      * rewrite length_take. lia.
    + intros [|i] c Hc Hi; simpl in *.
      * injection Hc as <-.
        destruct (chunks_aux fuel w (drop w (a :: l))) as [|c' cs] eqn:E;
          [simpl in Hi; lia|].
        destruct fuel as [|fuel']; [discriminate|].
        simpl in E. destruct (drop w (a :: l)) as [|b rest] eqn:Ed; [discriminate|].
        rewrite length_take.
        apply (f_equal length) in Ed. rewrite length_drop in Ed. simpl in *. lia.
      * apply (IH2 i c Hc). lia.
Qed.

Lemma chunks_pieces {A} (w : nat) (l : list A) :
  0 < w -> concat (chunks w l) = l /\ pieces_of w (chunks w l).
Proof.
  intros Hw. split; [apply chunks_aux_concat; [exact Hw | lia] | apply chunks_aux_pieces, Hw].
Qed.

Lemma wrap_run (string : pystr) (max_width : Z) :
  (0 < max_width)%Z ->
  wrap string max_width = Return (join [newline] (chunks (Z.to_nat max_width) string)).
Proof.
  intros Hw. unfold wrap, py_range.
  destruct (Z.eqb_spec max_width 0) as [|_]; [lia|].
  destruct (Z.ltb_spec 0 max_width) as [_|]; [|lia].
  f_equal. f_equal. rewrite Z.sub_0_r, Nat2Z.id.
  pose proof (wrap_slices string (Z.to_nat max_width) (length string) 0) as H.
  rewrite Z2Nat.id in H by lia. simpl in H. apply H. lia.
Qed.

Lemma ceil_div_bounds (len n : Z) :
  (0 < n)%Z -> (n <= len)%Z ->
  let K := (- (- len / n))%Z in
  (1 <= K)%Z /\ (len <= n * K)%Z /\ (n * (K - 1) < len)%Z.
Proof.
  intros Hn Hlen K.
  pose proof (Z.mul_div_le (- len) n Hn) as H1.
  pose proof (Z.mul_succ_div_gt (- len) n Hn) as H2.
  unfold K. nia.
Qed.

Lemma fracture_list_run {A} (l : list A) (n : Z) :
  (0 < n)%Z -> (n <= Z.of_nat (length l))%Z ->
  fracture_list l n = Return (chunks (Z.to_nat n) l).
Proof.
  intros Hn Hlen. unfold fracture_list.
  destruct (Z.leb_spec n (Z.of_nat (length l))) as [_|]; [|lia]. simpl.
  destruct (Z.eqb_spec n 0) as [|_]; [lia|].
  destruct (ceil_div_bounds _ _ Hn Hlen) as (K1 & K2 & K3).
  set (K := (- (- Z.of_nat (length l) / n))%Z) in *.
  unfold py_range. change (1 =? 0)%Z with false. change (0 <? 1)%Z with true.
  cbv iota. f_equal. rewrite Z.sub_0_r.
  pose proof (fracture_slices l (Z.to_nat n) (Z.to_nat K) (Z.to_nat K) 0) as H.
  rewrite !Z2Nat.id in H by lia. change (Z.of_nat 0) with 0%Z in H.
  rewrite H by nia.
  unfold chunks. apply chunks_aux_fuel; nia.
Qed.

(** ** [wrap] *)

(** X1: for a positive width, [wrap] returns the pieces of the string joined
    by newlines: the pieces put together give the string back, none is
    empty or longer than the width, and all but the last are full. *)
Theorem wrap_pieces (string : pystr) (max_width : Z) :
  (0 < max_width)%Z ->
  exists lines,
    wrap string max_width = Return (join [newline] lines) /\
    concat lines = string /\ pieces_of (Z.to_nat max_width) lines.
Proof.
  intros Hw. exists (chunks (Z.to_nat max_width) string).
  split; [apply wrap_run, Hw|]. apply chunks_pieces. lia.
Qed.

Lemma wrap_pieces_witness :
  exists lines,
    wrap (String.list_ascii_of_string "abcdefgh") 3 = Return (join [newline] lines) /\
    concat lines = String.list_ascii_of_string "abcdefgh" /\
    pieces_of (Z.to_nat 3) lines.
Proof. apply (wrap_pieces (String.list_ascii_of_string "abcdefgh") 3). lia. Defined.

Lemma filter_join {A} (P : A -> bool) (sep : A) (parts : list (list A)) :
  P sep = false -> List.filter P (join [sep] parts) = List.filter P (concat parts).
Proof.
  intros Hs. induction parts as [|p parts IH]; [reflexivity|].
  destruct parts as [|q parts].
  - simpl. rewrite app_nil_r. reflexivity.
  - change (join [sep] (p :: q :: parts)) with (p ++ [sep] ++ join [sep] (q :: parts)).
    change (concat (p :: q :: parts)) with (p ++ concat (q :: parts)).
    rewrite !List.filter_app, IH. simpl. rewrite Hs. reflexivity.
Qed.

(** X2: [wrap] changes the text by newlines only: with the newlines taken
    out, its result and the string read the same. *)
Theorem wrap_inserts_newlines_only (string : pystr) (max_width : Z) :
  (0 < max_width)%Z ->
  exists r,
    wrap string max_width = Return r /\
    List.filter (fun c => negb (bool_decide (c = newline))) r
    = List.filter (fun c => negb (bool_decide (c = newline))) string.
Proof.
  intros Hw. eexists. split; [apply wrap_run, Hw|].
  rewrite filter_join by (rewrite bool_decide_eq_true_2; reflexivity).
  destruct (chunks_pieces (Z.to_nat max_width) string) as [-> _]; [lia | reflexivity].
Qed.

Lemma wrap_inserts_newlines_only_witness :
  exists r,
    wrap (String.list_ascii_of_string "abcdefgh") 3 = Return r /\
    List.filter (fun c => negb (bool_decide (c = newline))) r
    = List.filter (fun c => negb (bool_decide (c = newline)))
        (String.list_ascii_of_string "abcdefgh").
Proof.
  apply (wrap_inserts_newlines_only (String.list_ascii_of_string "abcdefgh") 3). lia.
Defined.

(** X3: a string no longer than the width comes back unchanged. *)
Theorem wrap_short (string : pystr) (max_width : Z) :
  (0 < max_width)%Z -> (Z.of_nat (length string) <= max_width)%Z ->
  wrap string max_width = Return string.
Proof.
  intros Hw Hlen. rewrite wrap_run by exact Hw. f_equal. unfold chunks.
  destruct string as [|a l]; [reflexivity|].
  change (chunks_aux (length (a :: l)) (Z.to_nat max_width) (a :: l))
    with (take (Z.to_nat max_width) (a :: l)
          :: chunks_aux (length l) (Z.to_nat max_width) (drop (Z.to_nat max_width) (a :: l))).
  rewrite take_ge, drop_ge by lia. rewrite chunks_aux_nil. reflexivity.
Qed.

Lemma wrap_short_witness :
  wrap (String.list_ascii_of_string "abc") 3 = Return (String.list_ascii_of_string "abc").
Proof. apply (wrap_short (String.list_ascii_of_string "abc") 3); simpl; lia. Defined.

(** X4: a zero width raises [ValueError]; a negative width raises nothing
    and returns the empty string, whatever the string was. *)
Theorem wrap_edges (string : pystr) (max_width : Z) :
  (max_width = 0%Z ->
   wrap string max_width = Throw (EValueError "range() arg 3 must not be zero")) /\
  ((max_width < 0)%Z -> wrap string max_width = Return []).
Proof.
  split.
  - intros ->. reflexivity.
  - intros Hw. unfold wrap, py_range.
    destruct (Z.eqb_spec max_width 0) as [|_]; [lia|].
    destruct (Z.ltb_spec 0 max_width) as [|_]; [lia|].
    replace (Z.to_nat (0 - Z.of_nat (length string))) with 0 by lia. reflexivity.
Qed.

Lemma wrap_edges_witness :
  wrap (String.list_ascii_of_string "abc") 0
    = Throw (EValueError "range() arg 3 must not be zero") /\
  wrap (String.list_ascii_of_string "abc") (-2) = Return [].
Proof.
  split.
  - apply (proj1 (wrap_edges (String.list_ascii_of_string "abc") 0)). reflexivity.
  - apply (proj2 (wrap_edges (String.list_ascii_of_string "abc") (-2))). lia.
Defined.

(** ** [fracture_list] *)

(** X5: for [0 < n <= len(l)], [fracture_list] returns pieces that put
    together give the list back, none empty or longer than [n], all but
    the last of [n] elements. *)
Theorem fracture_list_pieces {A} (l : list A) (n : Z) :
  (0 < n)%Z -> (n <= Z.of_nat (length l))%Z ->
  exists parts,
    fracture_list l n = Return parts /\
    concat parts = l /\ pieces_of (Z.to_nat n) parts.
Proof.
  intros Hn Hlen. exists (chunks (Z.to_nat n) l).
  split; [apply fracture_list_run; assumption|]. apply chunks_pieces. lia.
Qed.

Lemma fracture_list_pieces_witness :
  exists parts,
    fracture_list [1; 2; 3; 4; 5] 2 = Return parts /\
    concat parts = [1; 2; 3; 4; 5] /\ pieces_of (Z.to_nat 2) parts.
Proof. apply (fracture_list_pieces [1; 2; 3; 4; 5] 2); simpl; lia. Defined.

(** X6: a list shorter than [n] fails the assertion (so does the empty list
    for any positive [n]); [n = 0] raises [ZeroDivisionError]; a negative
    [n] raises nothing and returns no piece at all. *)
Theorem fracture_list_edges {A} (l : list A) (n : Z) :
  ((Z.of_nat (length l) < n)%Z ->
   exists msg, fracture_list l n = Throw (EAssertionError msg)) /\
  (n = 0%Z -> fracture_list l n = Throw EZeroDivisionError) /\
  ((n < 0)%Z -> fracture_list l n = Return []).
Proof.
  unfold fracture_list. split; [|split].
  - intros H. destruct (Z.leb_spec n (Z.of_nat (length l))); [lia|]. simpl. eauto.
  - intros ->. destruct (Z.leb_spec 0 (Z.of_nat (length l))); [|lia]. reflexivity.
  - intros H. destruct (Z.leb_spec n (Z.of_nat (length l))); [|lia]. simpl.
    destruct (Z.eqb_spec n 0) as [|_]; [lia|].
    assert (Hq : (0 <= - Z.of_nat (length l) / n)%Z).
    { rewrite <- Z.div_opp_opp by lia. rewrite Z.opp_involutive.
      apply Z.div_pos; lia. }
    unfold py_range. simpl.
    replace (Z.to_nat (- (- Z.of_nat (length l) / n) - 0)) with 0 by lia. reflexivity.
Qed.

Lemma fracture_list_edges_witness :
  (exists msg, fracture_list [1; 2] 3 = Throw (EAssertionError msg)) /\
  fracture_list [1; 2] 0 = Throw EZeroDivisionError /\
  fracture_list [1; 2] (-1) = Return [].
Proof.
  split; [|split].
  - apply (proj1 (fracture_list_edges [1; 2] 3)). simpl. lia.
  - apply (proj1 (proj2 (fracture_list_edges [1; 2] 0))). reflexivity.
  - apply (proj2 (proj2 (fracture_list_edges [1; 2] (-1)))). lia.
Defined.

(** X7: where both are defined, [wrap] is [fracture_list] followed by a
    join: the lines of [wrap(s, n)] are the pieces [fracture_list(s, n)]. *)
Theorem wrap_is_joined_fracture (string : pystr) (n : Z) :
  (0 < n)%Z -> (n <= Z.of_nat (length string))%Z ->
  exists parts,
    fracture_list string n = Return parts /\
    wrap string n = Return (join [newline] parts).
Proof.
  intros Hn Hlen. exists (chunks (Z.to_nat n) string).
  split; [apply fracture_list_run; assumption | apply wrap_run, Hn].
Qed.

Lemma wrap_is_joined_fracture_witness :
  exists parts,
    fracture_list (String.list_ascii_of_string "abcdefgh") 3 = Return parts /\
    wrap (String.list_ascii_of_string "abcdefgh") 3 = Return (join [newline] parts).
Proof.
  apply (wrap_is_joined_fracture (String.list_ascii_of_string "abcdefgh") 3); simpl; lia.
Defined.

(** ** [isPalindrome] *)

Lemma lower_char_idem (c : ascii) : lower_char (lower_char c) = lower_char c.
Proof. destruct c as [[] [] [] [] [] [] [] []]; vm_compute; reflexivity. Qed.

Lemma squash_fixed (t : pystr) :
  Forall (fun c => lower_char c = c /\ c <> space) t -> squash t = t.
Proof.
  unfold squash. induction 1 as [|c t [Hc Hs] Ht IH]; [reflexivity|].
  simpl. rewrite Hc. rewrite bool_decide_eq_false_2 by exact Hs. simpl.
  f_equal. exact IH.
Qed.

Lemma squash_squashed (s : pystr) :
  Forall (fun c => lower_char c = c /\ c <> space) (squash s).
Proof.
  unfold squash. induction s as [|c s IH]; simpl; [constructor|].
  destruct (decide (lower_char c = space)) as [E|E].
  - rewrite bool_decide_eq_true_2 by exact E. exact IH.
  - rewrite bool_decide_eq_false_2 by exact E. simpl.
    constructor; [|exact IH]. split; [apply lower_char_idem | exact E].
Qed.

Lemma two_ends {A} (t : list A) :
  2 <= length t -> exists a mid b, t = a :: mid ++ [b].
Proof.
  intros H. destruct t as [|a t]; [simpl in H; lia|].
  destruct (decide (t = [])) as [->|Hne]; [simpl in H; lia|].
  destruct (exists_last Hne) as (mid & b & ->). eauto.
Qed.

Lemma py_slice_inner {A} (a b : A) (mid : list A) :
  py_slice (a :: mid ++ [b]) 1 (-1) = mid.
Proof.
  unfold py_slice, clamp.
  change (1 <? 0)%Z with false. change (-1 <? 0)%Z with true. cbv iota.
  assert (Hl : length (a :: mid ++ [b]) = S (S (length mid))).
  { simpl. rewrite length_app. simpl. lia. }
  rewrite Hl.
  replace (Z.to_nat (Z.max 0 (Z.of_nat (S (S (length mid))) + -1))) with (S (length mid))
    by lia.
  replace (Nat.min (Z.to_nat 1) (S (S (length mid)))) with 1 by lia.
  simpl. replace (length mid - 0) with (length mid) by lia.
  rewrite drop_0, take_app_length. reflexivity.
Qed.

Lemma palindrome_ends {A} (a b : A) (mid : list A) :
  a :: mid ++ [b] = rev (a :: mid ++ [b]) <-> a = b /\ mid = rev mid.
Proof.
  simpl. rewrite rev_app_distr. simpl. split.
  - intros H. injection H as -> H. apply app_inj_tail in H as [H _]. auto.
  - intros [-> H]. rewrite <- H. reflexivity.
Qed.

Lemma ends_compare {A} (a b : A) (mid : list A) :
  (a :: mid ++ [b]) !! 0 = last (a :: mid ++ [b]) <-> a = b.
Proof.
  change (a :: mid ++ [b]) with ((a :: mid) ++ [b]).
  rewrite last_snoc. simpl.
  split; [intros H; injection H; auto | intros ->; reflexivity].
Qed.

(** X8: given enough depth (more calls than half the letters),
    [isPalindrome] answers whether the string, lowered and with its spaces
    removed, reads the same backwards. *)
Theorem isPalindrome_correct (depth : nat) (string : pystr) :
  length (squash string) < 2 * depth ->
  isPalindrome depth string = Return (bool_decide (squash string = rev (squash string))).
Proof.
  revert string. induction depth as [|depth IH]; intros string Hd; [lia|].
  simpl. set (t := squash string) in *.
  destruct (memb (length t) [0; 1]) eqn:Em.
  - apply memb_true in Em. apply (f_equal (@Return bool)). symmetry. apply bool_decide_eq_true.
    destruct t as [|a [|b t']]; try reflexivity.
    rewrite !elem_of_cons in Em. simpl in Em.
    destruct Em as [Em|[Em|Em]]; try discriminate. inversion Em.
  - apply memb_false in Em.
    destruct (two_ends t) as (a & mid & b & Et).
    { destruct t as [|a [|b t']]; simpl; try lia; exfalso; apply Em.
      - left.
      - right. left. }
    assert (Hsq : Forall (fun c => lower_char c = c /\ c <> space) mid).
    { pose proof (squash_squashed string) as Hs. fold t in Hs. rewrite Et in Hs.
      apply Forall_cons in Hs as [_ Hs]. apply Forall_app in Hs as [Hs _]. exact Hs. }
    rewrite Et. rewrite (bool_decide_ext _ _ (ends_compare a b mid)), py_slice_inner.
    destruct (decide (a = b)) as [->|Hne].
    + rewrite bool_decide_eq_true_2 by reflexivity.
      rewrite IH.
      * rewrite (squash_fixed mid Hsq). apply (f_equal (@Return bool)). apply bool_decide_ext.
        pose proof (palindrome_ends b b mid). tauto.
      * rewrite (squash_fixed mid Hsq). rewrite Et in Hd. simpl in Hd.
        rewrite length_app in Hd. simpl in Hd. lia.
    + rewrite bool_decide_eq_false_2 by exact Hne. apply (f_equal (@Return bool)). symmetry.
      apply bool_decide_eq_false. pose proof (palindrome_ends a b mid). tauto.
Qed.

Lemma isPalindrome_correct_witness :
  isPalindrome 11 (String.list_ascii_of_string "A man a plan a canal Panama")
  = Return (bool_decide
              (squash (String.list_ascii_of_string "A man a plan a canal Panama")
               = rev (squash (String.list_ascii_of_string "A man a plan a canal Panama")))).
Proof.
  apply (isPalindrome_correct 11 (String.list_ascii_of_string "A man a plan a canal Panama")).
  vm_compute. lia.
Defined.

(** X9: on a palindrome with at least twice as many letters as there are
    calls left, [isPalindrome] does not answer: it raises
    [RecursionError]. *)
Theorem isPalindrome_runs_out (depth : nat) (string : pystr) :
  squash string = rev (squash string) ->
  2 * depth <= length (squash string) ->
  isPalindrome depth string = Throw ERecursionError.
Proof.
  revert string. induction depth as [|depth IH]; intros string Hp Hd; [reflexivity|].
  simpl. set (t := squash string) in *.
  destruct (two_ends t) as (a & mid & b & Et); [lia|].
  assert (Hsq : Forall (fun c => lower_char c = c /\ c <> space) mid).
  { pose proof (squash_squashed string) as Hs. fold t in Hs. rewrite Et in Hs.
    apply Forall_cons in Hs as [_ Hs]. apply Forall_app in Hs as [Hs _]. exact Hs. }
  assert (Hlen : length t = S (S (length mid))).
  { rewrite Et. simpl. rewrite length_app. simpl. lia. }
  rewrite Et in Hp. apply palindrome_ends in Hp as [-> Hmid].
  destruct (memb (length t) [0; 1]) eqn:Em.
  { apply memb_true in Em. rewrite Hlen, !elem_of_cons in Em.
    destruct Em as [Em|[Em|Em]]; try discriminate. inversion Em. }
  rewrite Et, (bool_decide_ext _ _ (ends_compare b b mid)), py_slice_inner.
  rewrite bool_decide_eq_true_2 by reflexivity.
  apply IH; rewrite (squash_fixed mid Hsq); [exact Hmid | lia].
Qed.

Lemma isPalindrome_runs_out_witness :
  isPalindrome 3 (String.list_ascii_of_string "Never odd or even") = Throw ERecursionError.
Proof.
  apply (isPalindrome_runs_out 3 (String.list_ascii_of_string "Never odd or even")).
  - vm_compute. reflexivity.
  - vm_compute. lia.
Defined.

(** ** [file_search] *)

Lemma prefix_empty (file : string) : String.prefix "" file = true.
Proof. destruct file; reflexivity. Qed.

Lemma contains_empty (file : string) : contains "" file = true.
Proof. destruct file; reflexivity. Qed.

Lemma prefix_spec (x file : string) :
  String.prefix x file = true <-> exists post, file = x +:+ post.
Proof.
  revert file. induction x as [|c x IH]; intros file.
  - rewrite prefix_empty. split; [intros _; exists file; reflexivity | reflexivity].
  - destruct file as [|d file]; simpl.
    + split; [discriminate | intros [post H]; discriminate].
    + destruct (Ascii.ascii_dec c d) as [->|Hne].
      * rewrite IH. split; intros [post H]; exists post; [rewrite H; reflexivity|].
        injection H as H. exact H.
      * split; [discriminate | intros [post H]; injection H as E _; congruence].
Qed.

(** [x in file]: [x] occurs in [file] as a run of consecutive characters. *)
Lemma contains_spec (x file : string) :
  contains x file = true <-> exists pre post, file = pre +:+ x +:+ post.
Proof.
  induction file as [|d file IH].
  - change (contains x "") with (String.prefix x "" || false).
    rewrite orb_false_r, prefix_spec. split.
    + intros [post H]. exists "", post. exact H.
    + intros (pre & post & H). destruct pre; [exists post; exact H | discriminate].
  - change (contains x (String d file))
      with (String.prefix x (String d file) || contains x file).
    rewrite orb_true_iff, prefix_spec, IH. split.
    + intros [[post H]|(pre & post & H)].
      * exists "", post. exact H.
      * exists (String d pre), post. rewrite H. reflexivity.
    + intros (pre & post & H). destruct pre as [|e pre].
      * left. exists post. exact H.
      * right. injection H as _ H. exists pre, post. exact H.
Qed.

Lemma append_assoc (a b c : string) : (a +:+ b) +:+ c = a +:+ (b +:+ c).
Proof.
  induction a as [|x a IH]; [reflexivity|].
  change (String x ((a +:+ b) +:+ c) = String x (a +:+ (b +:+ c))).
  rewrite IH. reflexivity.
Qed.

Lemma append_nil_r (a : string) : a +:+ "" = a.
Proof.
  induction a as [|x a IH]; [reflexivity|].
  change (String x (a +:+ "") = String x a). rewrite IH. reflexivity.
Qed.

Lemma last_component_dots (acc file : string) :
  count_char "."%char (last_component acc file) <= count_char "."%char acc.
Proof.
  revert acc. induction file as [|c file IH]; intros acc; simpl; [lia|].
  destruct (decide (c = "."%char)) as [->|Hne].
  - rewrite bool_decide_eq_true_2 by reflexivity.
    etransitivity; [apply IH|]. simpl. lia.
  - rewrite bool_decide_eq_false_2 by exact Hne.
    etransitivity; [apply IH|]. rewrite count_char_app. simpl.
    rewrite bool_decide_eq_false_2 by exact Hne. lia.
Qed.

(** What [file.split('.')[-1]] is: the part after the last dot, the whole
    name when it has none. *)
Lemma last_component_spec (acc file ext : string) :
  last_component acc file = ext <->
  (count_char "."%char file = 0 /\ ext = acc +:+ file) \/
  (count_char "."%char ext = 0 /\ exists stem, file = stem +:+ "." +:+ ext).
Proof.
  revert acc. induction file as [|c file IH]; intros acc.
  - simpl. rewrite append_nil_r. split.
    + intros <-. left. auto.
    + intros [[_ H]|[_ [stem H]]]; [auto|]. destruct stem; discriminate.
  - simpl. destruct (decide (c = "."%char)) as [->|Hne].
    + rewrite bool_decide_eq_true_2 by reflexivity. rewrite IH.
      change ("" +:+ file) with file. split.
      * intros [[H0 H]|[Hd [stem H]]].
        -- right. subst ext. split; [exact H0|]. exists "". reflexivity.
        -- right. split; [exact Hd|]. exists (String "." stem). rewrite H. reflexivity.
      * intros [[H0 _]|[Hd [stem H]]]; [lia|].
        destruct stem as [|e stem].
        -- injection H as H. left. subst file. split; [exact Hd | reflexivity].
        -- injection H as _ H. right. split; [exact Hd|]. exists stem. exact H.
    + rewrite bool_decide_eq_false_2 by exact Hne. rewrite IH.
      rewrite append_assoc. change (String c "" +:+ file) with (String c file). split.
      * intros [[H0 H]|[Hd [stem H]]].
        -- left. split; [lia | exact H].
        -- right. split; [exact Hd|]. exists (String c stem). rewrite H. reflexivity.
      * intros [[H0 H]|[Hd [stem H]]].
        -- left. split; [lia | exact H].
        -- right. split; [exact Hd|]. destruct stem as [|e stem].
           ++ injection H as H _. congruence.
           ++ injection H as _ H. exists stem. exact H.
Qed.

Lemma filter_sublist_impl {A} (f g : A -> bool) (l : list A) :
  (forall x, f x = true -> g x = true) ->
  sublist (List.filter f l) (List.filter g l).
Proof.
  intros Hfg. induction l as [|a l IH]; simpl; [constructor|].
  destruct (f a) eqn:Ef.
  - rewrite (Hfg a Ef). constructor. exact IH.
  - destruct (g a); [constructor|]; exact IH.
Qed.


Lemma filter_false {A} (f : A -> bool) (l : list A) :
  (forall x, f x = false) -> List.filter f l = [].
Proof.
  intros H. induction l as [|a l IH]; simpl; [reflexivity|]. rewrite H. exact IH.
Qed.

(** X10: with the default [like = ['']] nothing is filtered on the name:
    [file_search] returns, in the order of the listing, every entry whose
    part after the last dot is [doctype], whatever [strict] is. *)
Theorem file_search_default_like
    (listdir : string -> option (list string)) (p ext : string) (b : bool)
    (files : list string) :
  listdir p = Some files ->
  file_search listdir (PStr p) (PStr ext) (PList [""]) (PBool b)
  = Return (List.filter (fun file => String.eqb (last_component "" file) ext) files).
Proof.
  intros Hl. unfold file_search. rewrite Hl. apply (f_equal (@Return (list string))).
  apply filter_ext. intros file. simpl. rewrite contains_empty.
  destruct b; simpl; rewrite andb_true_r; reflexivity.
Qed.

Lemma file_search_default_like_witness :
  file_search (fun _ => Some ["a.csv"; "b.txt"; "csv"; "c.tar.csv"])
    (PStr ".") (PStr "csv") (PList [""]) (PBool false)
  = Return (List.filter (fun file => String.eqb (last_component "" file) "csv")
              ["a.csv"; "b.txt"; "csv"; "c.tar.csv"]).
Proof.
  apply (file_search_default_like (fun _ => Some ["a.csv"; "b.txt"; "csv"; "c.tar.csv"])
           "." "csv" false).
  reflexivity.
Defined.

(** X11: an empty [like] list is not "no filter": without [strict] nothing
    is returned ([any] of nothing is false), with [strict] every file of the
    type is ([all] of nothing is true). *)
Theorem file_search_empty_like
    (listdir : string -> option (list string)) (p ext : string) (files : list string) :
  listdir p = Some files ->
  file_search listdir (PStr p) (PStr ext) (PList []) (PBool false) = Return [] /\
  file_search listdir (PStr p) (PStr ext) (PList []) (PBool true)
  = Return (List.filter (fun file => String.eqb (last_component "" file) ext) files).
Proof.
  intros Hl. unfold file_search. rewrite Hl. split; apply (f_equal (@Return (list string))).
  - apply filter_false. intros file. simpl. apply andb_false_r.
  - apply filter_ext. intros file. simpl. apply andb_true_r.
Qed.

Lemma file_search_empty_like_witness :
  file_search (fun _ => Some ["a.csv"; "b.txt"]) (PStr ".") (PStr "csv") (PList []) (PBool false)
  = Return [] /\
  file_search (fun _ => Some ["a.csv"; "b.txt"]) (PStr ".") (PStr "csv") (PList []) (PBool true)
  = Return (List.filter (fun file => String.eqb (last_component "" file) "csv")
              ["a.csv"; "b.txt"]).
Proof.
  apply (file_search_empty_like (fun _ => Some ["a.csv"; "b.txt"]) "." "csv").
  reflexivity.
Defined.

(** X12: a [doctype] that contains a dot (as in 'tar.gz') matches no file:
    the result is empty whatever the directory holds. *)
Theorem file_search_dotted_doctype
    (listdir : string -> option (list string)) (p ext : string) (words : list string)
    (b : bool) (files : list string) :
  0 < count_char "."%char ext ->
  listdir p = Some files ->
  file_search listdir (PStr p) (PStr ext) (PList words) (PBool b) = Return [].
Proof.
  intros Hd Hl. unfold file_search. rewrite Hl. apply (f_equal (@Return (list string))).
  apply filter_false. intros file. apply andb_false_iff. left.
  apply String.eqb_neq. intros E.
  pose proof (last_component_dots "" file) as H. rewrite E in H. simpl in H. lia.
Qed.

Lemma file_search_dotted_doctype_witness :
  file_search (fun _ => Some ["a.tar.gz"; "tar.gz"]) (PStr ".") (PStr "tar.gz")
    (PList [""]) (PBool false) = Return [].
Proof.
  apply (file_search_dotted_doctype (fun _ => Some ["a.tar.gz"; "tar.gz"]) "." "tar.gz"
           [""] false ["a.tar.gz"; "tar.gz"]).
  - vm_compute. lia.
  - reflexivity.
Defined.

(** X13: with at least one word in [like], every file found by the strict
    search is found by the search that is not strict, in the same order. *)
Theorem file_search_strict_sublist
    (listdir : string -> option (list string)) (p ext : string) (words : list string)
    (files : list string) :
  words <> [] ->
  listdir p = Some files ->
  exists ls ln,
    file_search listdir (PStr p) (PStr ext) (PList words) (PBool true) = Return ls /\
    file_search listdir (PStr p) (PStr ext) (PList words) (PBool false) = Return ln /\
    sublist ls ln.
Proof.
  intros Hw Hl. unfold file_search. rewrite Hl.
  eexists _, _. split; [reflexivity|]. split; [reflexivity|].
  apply filter_sublist_impl. intros file H.
  apply andb_true_iff in H as [Ht Ha]. apply andb_true_iff. split; [exact Ht|].
  destruct words as [|x words]; [congruence|].
  simpl in Ha. apply andb_true_iff in Ha as [Hx _]. simpl. rewrite Hx. reflexivity.
Qed.

Lemma file_search_strict_sublist_witness :
  exists ls ln,
    file_search (fun _ => Some ["Data_AprF_2019.csv"; "Data_JunF_2019_v1.csv"; "Data_SepP_2019.csv"])
      (PStr ".") (PStr "csv") (PList ["F"; "v1"]) (PBool true) = Return ls /\
    file_search (fun _ => Some ["Data_AprF_2019.csv"; "Data_JunF_2019_v1.csv"; "Data_SepP_2019.csv"])
      (PStr ".") (PStr "csv") (PList ["F"; "v1"]) (PBool false) = Return ln /\
    sublist ls ln.
Proof.
  apply (file_search_strict_sublist
           (fun _ => Some ["Data_AprF_2019.csv"; "Data_JunF_2019_v1.csv"; "Data_SepP_2019.csv"])
           "." "csv" ["F"; "v1"]
           ["Data_AprF_2019.csv"; "Data_JunF_2019_v1.csv"; "Data_SepP_2019.csv"]).
  - discriminate.
  - reflexivity.
Defined.

(** X14: the arguments are checked in the order path, doctype, like,
    strict, and the first one of the wrong type decides the [ValueError];
    the directory is not read before all four have passed. *)
Theorem file_search_validation
    (listdir : string -> option (list string)) (path doctype like strict : pyval) :
  (is_str path = false ->
   file_search listdir path doctype like strict
   = Throw (EValueError "Please input path as a string")) /\
  (is_str path = true -> is_str doctype = false ->
   file_search listdir path doctype like strict
   = Throw (EValueError "Please input doctype as a string")) /\
  (is_str path = true -> is_str doctype = true -> (forall l, like <> PList l) ->
   file_search listdir path doctype like strict
   = Throw (EValueError "Please input like as a list")) /\
  (is_str path = true -> is_str doctype = true -> (exists l, like = PList l) ->
   (forall b, strict <> PBool b) ->
   file_search listdir path doctype like strict
   = Throw (EValueError "Please input strict as a bool")).
Proof.
  repeat split.
  - intros H. destruct path; try discriminate; reflexivity.
  - intros Hp H. destruct path; try discriminate.
    destruct doctype; try discriminate; reflexivity.
  - intros Hp Hd H. destruct path; try discriminate. destruct doctype; try discriminate.
    destruct like; try reflexivity. exfalso. eapply H. reflexivity.
  - intros Hp Hd [l ->] H. destruct path; try discriminate. destruct doctype; try discriminate.
    destruct strict; try reflexivity. exfalso. eapply H. reflexivity.
Qed.

Lemma file_search_validation_witness :
  file_search (fun _ => None) (PInt 3) (PStr "csv") (PList [""]) (PBool false)
  = Throw (EValueError "Please input path as a string") /\
  file_search (fun _ => None) (PStr ".") PNone (PStr "x") (PInt 0)
  = Throw (EValueError "Please input doctype as a string") /\
  file_search (fun _ => None) (PStr ".") (PStr "csv") (PStr "F") (PInt 0)
  = Throw (EValueError "Please input like as a list") /\
  file_search (fun _ => None) (PStr ".") (PStr "csv") (PList ["F"]) (PInt 0)
  = Throw (EValueError "Please input strict as a bool").
Proof.
  split; [|split; [|split]].
  - apply (file_search_validation (fun _ => None) (PInt 3) (PStr "csv") (PList [""]) (PBool false)).
    reflexivity.
  - apply (file_search_validation (fun _ => None) (PStr ".") PNone (PStr "x") (PInt 0));
      reflexivity.
  - apply (file_search_validation (fun _ => None) (PStr ".") (PStr "csv") (PStr "F") (PInt 0));
      try reflexivity. discriminate.
  - apply (file_search_validation (fun _ => None) (PStr ".") (PStr "csv") (PList ["F"]) (PInt 0));
      try reflexivity; [eexists; reflexivity | discriminate].
Defined.

(** X15: for a [doctype] without a dot, a name is in the result exactly
    when it is in the listing, it is [doctype] itself or ends in a dot
    followed by [doctype], and one of the words of [like] (every one of
    them when [strict]) occurs in it; the result keeps the order of the
    listing. *)
Theorem file_search_result
    (listdir : string -> option (list string)) (p ext : string) (words : list string)
    (b : bool) (files : list string) :
  count_char "."%char ext = 0 ->
  listdir p = Some files ->
  exists found,
    file_search listdir (PStr p) (PStr ext) (PList words) (PBool b) = Return found /\
    sublist found files /\
    forall file,
      file ∈ found <->
      file ∈ files /\
      (file = ext \/ exists stem, file = stem +:+ "." +:+ ext) /\
      (if b
       then forall x, x ∈ words -> exists pre post, file = pre +:+ x +:+ post
       else exists x, x ∈ words /\ exists pre post, file = pre +:+ x +:+ post).
Proof.
  intros Hd Hl. unfold file_search. rewrite Hl. eexists. split; [reflexivity|].
  split; [apply filter_sublist|]. intros file.
  rewrite !list_elem_of_In, filter_In, andb_true_iff, String.eqb_eq, last_component_spec.
  change ("" +:+ file) with file.
  assert (Ht : (count_char "."%char file = 0 /\ ext = file) \/
               (count_char "."%char ext = 0 /\ exists stem, file = stem +:+ "." +:+ ext)
               <-> file = ext \/ exists stem, file = stem +:+ "." +:+ ext).
  { split.
    - intros [[_ H]|[_ H]]; [left; auto | right; exact H].
    - intros [H|H]; [left; subst file; auto | right; auto]. }
  rewrite Ht. destruct b.
  - rewrite forallb_forall. setoid_rewrite contains_spec.
    setoid_rewrite list_elem_of_In. tauto.
  - rewrite existsb_exists. setoid_rewrite contains_spec.
    setoid_rewrite list_elem_of_In. tauto.
Qed.

Lemma file_search_result_witness :
  exists found,
    file_search (fun _ => Some ["Data_AprF_2019.csv"; "Data_JunF_2019_v1.csv"; "notes.txt"])
      (PStr ".") (PStr "csv") (PList ["F"; "v1"]) (PBool true) = Return found /\
    sublist found ["Data_AprF_2019.csv"; "Data_JunF_2019_v1.csv"; "notes.txt"] /\
    forall file,
      file ∈ found <->
      file ∈ ["Data_AprF_2019.csv"; "Data_JunF_2019_v1.csv"; "notes.txt"] /\
      (file = "csv" \/ exists stem, file = stem +:+ "." +:+ "csv") /\
      (if true
       then forall x, x ∈ ["F"; "v1"] -> exists pre post, file = pre +:+ x +:+ post
       else exists x, x ∈ ["F"; "v1"] /\ exists pre post, file = pre +:+ x +:+ post).
Proof.
  apply (file_search_result
           (fun _ => Some ["Data_AprF_2019.csv"; "Data_JunF_2019_v1.csv"; "notes.txt"])
           "." "csv" ["F"; "v1"] true
           ["Data_AprF_2019.csv"; "Data_JunF_2019_v1.csv"; "notes.txt"]).
  - reflexivity.
  - reflexivity.
Defined.

(** ** More on [compare] *)

(** X16: for two tables of ints and strings over the same columns,
    [same_values] has those columns, fresh labels [0 .. n-1], and as rows
    the first occurrence of every row of the first table that the second
    table also holds, in the order of the first table; this does not
    depend on [names] or on the flags. *)
Theorem same_values_rows g s lx ly X Y l bd bs bc highlight :
  heap s !! lx = Some X -> heap s !! ly = Some Y ->
  wf_frame X -> wf_frame Y -> columns X = columns Y -> columns X <> [] ->
  same_kinds X Y = true ->
  is_frame highlight = false ->
  exists d s' J,
    compare g (PFrame lx) (PFrame ly) (PList l) (PBool bd) (PBool bs) (PBool bc) highlight s
    = (Ok d, s') /\
    table_of d s' "same_values" = Some J /\
    columns J = columns X /\
    labels J = seq 0 (length (cells J)) /\
    cells J = List.filter (fun r => memb r (cells Y)) (first_occ [] (cells X)) /\
    NoDup (cells J) /\
    forall r, r ∈ cells J <-> r ∈ cells X /\ r ∈ cells Y.
Proof.
  intros HX HY WX WY Hcols Hne Hk Hh.
  destruct (merge_identical_cols X Y WX WY Hcols Hne Hk) as (J & HJ & HcJ & HJc & HJl).
  pose proof (join_outcome g lx ly l bd bs bc highlight X Y s HX HY) as Hjoin.
  cbv zeta in Hjoin. rewrite HJ in Hjoin.
  eexists _, _, J. split; [apply compare_steps, Hh|].
  split; [exact Hjoin|]. split; [exact HcJ|]. split; [exact HJl|]. split; [exact HJc|].
  rewrite HJc.
  split; [apply NoDup_list_filter, NoDup_first_occ|].
  intros r. rewrite elem_of_filter_memb, elem_of_first_occ.
  split; [tauto|]. intros [H1 H2]. split; [split; [exact H1 | apply not_elem_of_nil] | exact H2].
Qed.

Lemma same_values_rows_witness :
  exists d s' J,
    compare module_globals (PFrame 0) (PFrame 1) (PList ["x"; "y"])
      (PBool false) (PBool false) (PBool false) (PBool true)
      (mkState [spec_A; spec_B] [] ∅) = (Ok d, s') /\
    table_of d s' "same_values" = Some J /\
    columns J = columns spec_A /\
    labels J = seq 0 (length (cells J)) /\
    cells J = List.filter (fun r => memb r (cells spec_B)) (first_occ [] (cells spec_A)) /\
    NoDup (cells J) /\
    forall r, r ∈ cells J <-> r ∈ cells spec_A /\ r ∈ cells spec_B.
Proof.
  apply (same_values_rows module_globals (mkState [spec_A; spec_B] [] ∅) 0 1 spec_A spec_B
           ["x"; "y"] false false false (PBool true));
    [reflexivity | reflexivity | wf_closed | wf_closed | reflexivity | discriminate
    | reflexivity | reflexivity].
Defined.

Lemma occurrences_repeats r seen l :
  pd.occurrences r (pd.select (pd.duplicated_first seen l) l) =
    if memb r seen then pd.occurrences r l else pd.occurrences r l - 1.
Proof.
  revert seen. induction l as [|a l IH]; intros seen.
  - simpl. destruct (memb r seen); reflexivity.
  - simpl. rewrite (occurrences_cons r a l).
    assert (Hs : memb r (a :: seen) = bool_decide (a = r) || memb r seen).
    { unfold memb. apply eq_true_iff_eq.
      rewrite orb_true_iff, !bool_decide_eq_true, elem_of_cons. intuition congruence. }
    destruct (memb a seen) eqn:Ea.
    + rewrite occurrences_cons, IH, Hs.
      destruct (bool_decide (a = r)) eqn:E; simpl.
      * apply bool_decide_eq_true in E. subst a. rewrite Ea. reflexivity.
      * reflexivity.
    + rewrite IH, Hs.
      destruct (bool_decide (a = r)) eqn:E; simpl.
      * apply bool_decide_eq_true in E. subst a. rewrite Ea. lia.
      * reflexivity.
Qed.

Lemma lookup_app_second {A} (l : list A) (a b : A) :
  (l ++ [a; b]) !! S (length l) = Some b.
Proof. rewrite lookup_app_r by lia. replace (S (length l) - length l) with 1 by lia. reflexivity. Qed.

Lemma dups_body_run lx ly X Y n0 n1 rest t :
  heap t !! lx = Some X -> heap t !! ly = Some Y ->
  dups_body (PFrame lx) (PFrame ly) (PList (n0 :: n1 :: rest)) t =
    (Ok tt,
     mkState (heap t ++ [pd.boolean_index X (pd.duplicated pd.KeepFirst X);
                         pd.boolean_index Y (pd.duplicated pd.KeepFirst Y)])
       (stdout t)
       (<[n1 +:+ "_dups" := PFrame (S (length (heap t)))]>
          (<[n0 +:+ "_dups" := PFrame (length (heap t))]> (dict_temp t)))).
Proof.
  intros HX HY. unfold dups_body. rewrite bind_eq, (duplicates_of_run lx X t HX).
  rewrite bind_eq.
  change (dups_key (PList (n0 :: n1 :: rest)) 0 _) with
    (@Ok string (n0 +:+ "_dups"),
     mkState (heap t ++ [pd.boolean_index X (pd.duplicated pd.KeepFirst X)])
       (stdout t) (dict_temp t)).
  cbv beta iota. rewrite bind_eq. unfold dict_set at 1. cbv beta iota.
  rewrite bind_eq.
  match goal with |- context [duplicates_of _ ?u] => set (t2 := u) end.
  rewrite (duplicates_of_run ly Y t2) by (simpl; apply lookup_app_l_Some, HY).
  rewrite bind_eq. unfold t2. simpl.
  rewrite length_app. simpl. rewrite <- app_assoc. simpl.
  replace (length (heap t) + 1) with (S (length (heap t))) by lia. reflexivity.
Qed.

Lemma duplicated_first_eq df :
  columns df <> [] -> pd.duplicated pd.KeepFirst df = pd.duplicated_first [] (cells df).
Proof. intros H. unfold pd.duplicated. rewrite bool_decide_eq_false_2 by exact H. reflexivity. Qed.

Lemma omap_ext_elem {A B} (f h : A -> option B) (l : list A) :
  (forall a, a ∈ l -> f a = h a) -> omap f l = omap h l.
Proof.
  induction l as [|a l IH]; intros H; [reflexivity|]. csimpl.
  rewrite (H a) by left. rewrite IH; [reflexivity|]. intros b Hb. apply H. right. exact Hb.
Qed.

Lemma omap_seq_shift {B} (f : nat -> option B) (a n : nat) :
  omap f (seq (S a) n) = omap (fun i => f (S i)) (seq a n).
Proof.
  revert a. induction n as [|n IH]; intros a; [reflexivity|].
  csimpl. rewrite IH. reflexivity.
Qed.

Lemma select_later_copies (seen seen' : list row) (rs : list (nat * row)) :
  (forall x, x ∈ seen <-> x ∈ seen') ->
  pd.select (pd.duplicated_first seen (map snd rs)) rs
  = omap (fun i =>
            lr ← rs !! i;
            if memb (snd lr) (seen' ++ take i (map snd rs)) then Some lr else None)
         (seq 0 (length rs)).
Proof.
  revert seen seen'. induction rs as [|lr rs IH]; intros seen seen' Hs; [reflexivity|].
  set (f := fun i : nat =>
              lr0 ← (lr :: rs) !! i;
              if memb (snd lr0) (seen' ++ take i (map snd (lr :: rs)))
              then Some lr0 else None).
  change (seq 0 (length (lr :: rs))) with (0 :: seq 1 (length rs)).
  change (omap f (0 :: seq 1 (length rs)))
    with (match f 0 with
          | Some y => y :: omap f (seq 1 (length rs))
          | None => omap f (seq 1 (length rs))
          end).
  assert (Hm : memb (snd lr) seen = memb (snd lr) seen').
  { unfold memb. apply bool_decide_ext, Hs. }
  assert (F0 : f 0 = if memb (snd lr) seen then Some lr else None).
  { unfold f. change ((lr :: rs) !! 0) with (Some lr).
    change (take 0 (map snd (lr :: rs))) with (@nil row).
    rewrite app_nil_r, Hm. reflexivity. }
  assert (Hrest : pd.select (pd.duplicated_first (snd lr :: seen) (map snd rs)) rs
                  = omap f (seq 1 (length rs))).
  { rewrite (IH (snd lr :: seen) (seen' ++ [snd lr])).
    2:{ intros x. rewrite elem_of_cons, elem_of_app, list_elem_of_singleton, Hs. tauto. }
    rewrite omap_seq_shift. apply omap_ext_elem. intros i _.
    unfold f. change ((lr :: rs) !! S i) with (rs !! i).
    destruct (rs !! i) as [lr0|]; [|reflexivity].
    change (take (S i) (map snd (lr :: rs))) with (snd lr :: take i (map snd rs)).
    cbn [mbind option_bind]. rewrite <- app_assoc. reflexivity. }
  rewrite F0, <- Hrest.
  change (pd.duplicated_first seen (map snd (lr :: rs)))
    with (memb (snd lr) seen :: pd.duplicated_first (snd lr :: seen) (map snd rs)).
  cbn [pd.select]. destruct (memb (snd lr) seen); reflexivity.
Qed.

Lemma rows_later_copies df :
  columns df <> [] ->
  rows (pd.boolean_index df (pd.duplicated pd.KeepFirst df)) = later_copies (rows df).
Proof.
  intros Hne. rewrite (duplicated_first_eq df Hne). unfold pd.boolean_index, cells.
  cbn [rows]. apply (select_later_copies [] [] (rows df)). reflexivity.
Qed.

(** X17: with [dups = True] and two names the result holds, for each
    table (with at least one column, of strings and of ints that fit
    int64), the rows that repeat an earlier row
    of that table, under their labels and in their order: the row at
    position [i] is returned when its cells are those of one of the first
    [i] rows, so that a row occurring [k + 1] times in the table occurs
    [k] times there.  This step does not depend on the join. *)
Theorem duplicate_tables g s lx ly X Y n0 n1 rest bs bc highlight :
  heap s !! lx = Some X -> heap s !! ly = Some Y -> is_frame highlight = false ->
  columns X <> [] -> columns Y <> [] ->
  exact_table X = true -> exact_table Y = true ->
  exists d s' D1 D2,
    compare g (PFrame lx) (PFrame ly) (PList (n0 :: n1 :: rest))
      (PBool true) (PBool bs) (PBool bc) highlight s = (Ok d, s') /\
    table_of d s' (n1 +:+ "_dups") = Some D2 /\
    (n0 +:+ "_dups" <> n1 +:+ "_dups" -> table_of d s' (n0 +:+ "_dups") = Some D1) /\
    columns D1 = columns X /\ rows D1 = later_copies (rows X) /\
    (forall r, pd.occurrences r (cells D1) = pd.occurrences r (cells X) - 1) /\
    columns D2 = columns Y /\ rows D2 = later_copies (rows Y) /\
    (forall r, pd.occurrences r (cells D2) = pd.occurrences r (cells Y) - 1).
Proof.
  intros HX HY Hh NX NY _ _.
  set (names := PList (n0 :: n1 :: rest)).
  set (t2 := st2 (PFrame lx) (PFrame ly) names s).
  set (t3 := st3 (PFrame lx) (PFrame ly) names (PBool true) s).
  set (t6 := st6 g (PFrame lx) (PFrame ly) names (PBool true) (PBool bs) (PBool bc)
               highlight s).
  destruct (extends_st0_st2 (PFrame lx) (PFrame ly) names s) as (Hheap02 & _ & _).
  assert (HX2 : heap t2 !! lx = Some X) by (apply Hheap02, HX).
  assert (HY2 : heap t2 !! ly = Some Y) by (apply Hheap02, HY).
  assert (E3 : t3 = mkState
            (heap t2 ++ [pd.boolean_index X (pd.duplicated pd.KeepFirst X);
                         pd.boolean_index Y (pd.duplicated pd.KeepFirst Y)])
            (stdout t2)
            (<[n1 +:+ "_dups" := PFrame (S (length (heap t2)))]>
               (<[n0 +:+ "_dups" := PFrame (length (heap t2))]> (dict_temp t2)))).
  { unfold t3, st3, guarded. simpl flag_on. cbv iota.
    apply caught_ok. fold t2. apply dups_body_run; assumption. }
  destruct (extends_st3_st6 g (PFrame lx) (PFrame ly) names (PBool true) (PBool bs)
              (PBool bc) highlight s) as (Hheap & _ & Hdict).
  fold t3 t6 in Hheap, Hdict.
  assert (Hk : forall a, ~ (a +:+ "_dups" = "Same" \/ a +:+ "_dups" = "highlight")).
  { intros a [E|E]; revert E; apply dups_key_fixed; [right; left | right; right; left]. }
  exists (dict_temp t6), t6,
    (pd.boolean_index X (pd.duplicated pd.KeepFirst X)),
    (pd.boolean_index Y (pd.duplicated pd.KeepFirst Y)).
  split; [apply compare_steps, Hh|].
  split; [|split].
  - unfold table_of. rewrite (Hdict _ (Hk n1)), E3. cbn [dict_temp].
    rewrite lookup_insert_eq. apply Hheap. rewrite E3. apply lookup_app_second.
  - intros Hne. unfold table_of. rewrite (Hdict _ (Hk n0)), E3. cbn [dict_temp].
    rewrite lookup_insert_ne by congruence. rewrite lookup_insert_eq.
    apply Hheap. rewrite E3. apply lookup_app_length.
  - split; [reflexivity|]. split; [apply rows_later_copies, NX|].
    split.
    { intros r. rewrite cells_boolean_index, (duplicated_first_eq X NX).
      apply (occurrences_repeats r [] (cells X)). }
    split; [reflexivity|]. split; [apply rows_later_copies, NY|].
    intros r. rewrite cells_boolean_index, (duplicated_first_eq Y NY).
    apply (occurrences_repeats r [] (cells Y)).
Qed.

Lemma duplicate_tables_witness :
  exists d s' D1 D2,
    compare module_globals (PFrame 0) (PFrame 1) (PList ["x"; "y"])
      (PBool true) (PBool false) (PBool false) (PBool true)
      (mkState [column_x [1; 1; 2; 1]%Z; column_x [3]%Z] [] ∅) = (Ok d, s') /\
    table_of d s' "y_dups" = Some D2 /\
    ("x" +:+ "_dups" <> "y" +:+ "_dups" -> table_of d s' "x_dups" = Some D1) /\
    columns D1 = columns (column_x [1; 1; 2; 1]%Z) /\
    rows D1 = later_copies (rows (column_x [1; 1; 2; 1]%Z)) /\
    (forall r, pd.occurrences r (cells D1)
               = pd.occurrences r (cells (column_x [1; 1; 2; 1]%Z)) - 1) /\
    columns D2 = columns (column_x [3]%Z) /\
    rows D2 = later_copies (rows (column_x [3]%Z)) /\
    (forall r, pd.occurrences r (cells D2) = pd.occurrences r (cells (column_x [3]%Z)) - 1).
Proof.
  apply (duplicate_tables module_globals
           (mkState [column_x [1; 1; 2; 1]%Z; column_x [3]%Z] [] ∅) 0 1
           (column_x [1; 1; 2; 1]%Z) (column_x [3]%Z) "x" "y" [] false false (PBool true));
    [reflexivity | reflexivity | reflexivity | discriminate | discriminate
    | reflexivity | reflexivity].
Defined.

(** X18: called from the module as it is written, [compare] never returns
    a ['highlight'] entry, whatever the tables, the names and the flags:
    the step reads the unbound name [dict_comp], and when the flag is on
    (the default) its failure message is printed instead. *)
Theorem no_highlight_entry lx ly l bd bs bc highlight s :
  is_frame highlight = false ->
  exists d s',
    compare module_globals (PFrame lx) (PFrame ly) (PList l)
      (PBool bd) (PBool bs) (PBool bc) highlight s = (Ok d, s') /\
    d !! "highlight" = None /\
    (flag_on highlight = true -> "Unable to calculate highlight" ∈ stdout s').
Proof.
  intros Hh.
  set (x := PFrame lx). set (y := PFrame ly). set (names := PList l).
  set (t4 := st4 x y names (PBool bd) (PBool bs) s).
  set (t5 := st5 module_globals x y names (PBool bd) (PBool bs) highlight s).
  set (t6 := st6 module_globals x y names (PBool bd) (PBool bs) (PBool bc) highlight s).
  exists (dict_temp t6), t6. split; [apply compare_steps, Hh|].
  assert (H4 : dict_temp t4 !! "highlight" = None).
  { destruct (extends_st0_st4 x y names (PBool bd) (PBool bs) s) as (_ & _ & Hd).
    fold t4 in Hd. rewrite Hd; [reflexivity|].
    intros [E|[E|[E|E]]]; try discriminate.
    - revert E. apply fixed_not_not_keys. right. right. left.
    - revert E. apply fixed_not_dups_keys. right. right. left. }
  assert (E5 : t5 = if flag_on highlight
                    then mkState (heap t4) (stdout t4 ++ ["Unable to calculate highlight"])
                           (dict_temp t4)
                    else t4).
  { unfold t5, st5, guarded. fold t4. destruct (flag_on highlight); [|reflexivity].
    apply (caught_raise _ _ _ _ _ (highlight_body_NameError t4)). }
  destruct (extends_st5_st6 module_globals x y names (PBool bd) (PBool bs) (PBool bc)
              highlight s) as (_ & Hout & Hd).
  fold t5 t6 in Hout, Hd. split.
  - rewrite Hd by tauto. rewrite E5. destruct (flag_on highlight); exact H4.
  - intros Hon. apply (list_le_elem _ _ _ Hout). rewrite E5, Hon. simpl.
    apply elem_of_app. right. left.
Qed.

Lemma no_highlight_entry_witness :
  exists d s',
    compare module_globals (PFrame 0) (PFrame 1) (PList ["df1"; "df2"])
      (PBool true) (PBool true) (PBool true) (PBool true)
      (mkState [spec_A; spec_B] [] ∅) = (Ok d, s') /\
    d !! "highlight" = None /\
    (flag_on (PBool true) = true -> "Unable to calculate highlight" ∈ stdout s').
Proof.
  apply (no_highlight_entry 0 1 ["df1"; "df2"] true true true (PBool true)
           (mkState [spec_A; spec_B] [] ∅)).
  reflexivity.
Defined.

(** X19: the [isinstance] chain checks x, y, names, dups, same and comment
    in this order; the first argument of the wrong type decides the message
    of the [ValueError], and nothing has been printed or stored by then. *)
Theorem compare_validation g x y names dups same comment highlight s :
  (is_frame x = false ->
   compare g x y names dups same comment highlight s
   = (Raise (ValueError "Please input x as a pandas.DataFrame"), s)) /\
  (is_frame x = true -> is_frame y = false ->
   compare g x y names dups same comment highlight s
   = (Raise (ValueError "Please input y as a pandas.DataFrame"), s)) /\
  (is_frame x = true -> is_frame y = true -> is_list names = false ->
   compare g x y names dups same comment highlight s
   = (Raise (ValueError "Please input names as a list"), s)) /\
  (is_frame x = true -> is_frame y = true -> is_list names = true ->
   is_bool dups = false ->
   compare g x y names dups same comment highlight s
   = (Raise (ValueError "Please input dups as a bool"), s)) /\
  (is_frame x = true -> is_frame y = true -> is_list names = true ->
   is_bool dups = true -> is_bool same = false ->
   compare g x y names dups same comment highlight s
   = (Raise (ValueError "Please input same as a bool"), s)) /\
  (is_frame x = true -> is_frame y = true -> is_list names = true ->
   is_bool dups = true -> is_bool same = true -> is_bool comment = false ->
   compare g x y names dups same comment highlight s
   = (Raise (ValueError "Please input comment as a bool"), s)).
Proof.
  rewrite compare_eq, bind_eq. unfold validate.
  repeat split; intros; repeat match goal with H : _ = _ |- _ => rewrite H; clear H end;
    reflexivity.
Qed.

Lemma compare_validation_witness :
  compare module_globals (PStr "a.csv") (PFrame 1) (PList ["x"; "y"])
    (PBool false) (PBool false) (PBool false) (PBool true) (mkState [spec_A; spec_B] [] ∅)
  = (Raise (ValueError "Please input x as a pandas.DataFrame"), mkState [spec_A; spec_B] [] ∅) /\
  compare module_globals (PFrame 0) (PFrame 1) (PList ["x"; "y"])
    (PInt 1) (PBool false) (PBool false) (PBool true) (mkState [spec_A; spec_B] [] ∅)
  = (Raise (ValueError "Please input dups as a bool"), mkState [spec_A; spec_B] [] ∅).
Proof.
  split.
  - apply (compare_validation module_globals (PStr "a.csv") (PFrame 1) (PList ["x"; "y"])
             (PBool false) (PBool false) (PBool false) (PBool true)
             (mkState [spec_A; spec_B] [] ∅)).
    reflexivity.
  - apply (compare_validation module_globals (PFrame 0) (PFrame 1) (PList ["x"; "y"])
             (PInt 1) (PBool false) (PBool false) (PBool true)
             (mkState [spec_A; spec_B] [] ∅)); reflexivity.
Defined.


Lemma occurrences_NoDup r l :
  NoDup l -> pd.occurrences r l = if memb r l then 1 else 0.
Proof.
  induction 1 as [|a l Hn Hl IH].
  - reflexivity.
  - rewrite occurrences_cons, IH. unfold memb.
    destruct (decide (a = r)) as [->|Hne].
    + rewrite bool_decide_eq_true_2 by reflexivity.
      rewrite (bool_decide_eq_false_2 (r ∈ l)) by exact Hn.
      rewrite bool_decide_eq_true_2 by left. reflexivity.
    + rewrite bool_decide_eq_false_2 by exact Hne.
      destruct (decide (r ∈ l)) as [Hin|Hin].
      * rewrite !bool_decide_eq_true_2; [reflexivity | right; exact Hin | exact Hin].
      * rewrite !bool_decide_eq_false_2; [reflexivity| |exact Hin].
        intros H. apply elem_of_cons in H as [?|?]; [congruence | contradiction].
Qed.

Lemma residual_same_rows V J J' :
  wf_frame V -> wf_frame J -> wf_frame J' ->
  columns V = columns J -> columns V = columns J' -> columns V <> [] ->
  plain_rows (length (columns V)) (cells V) ->
  NoDup (cells J) -> NoDup (cells J') ->
  (forall r, r ∈ cells J -> r ∈ cells V) ->
  (forall r, r ∈ cells J <-> r ∈ cells J') ->
  residual V J = residual V J'.
Proof.
  intros WV WJ WJ' Hc Hc' Hne Hplain HN HN' Hsub Hiff.
  rewrite (residual_explicit V J), (residual_explicit V J'); auto.
  2:{ intros r Hr. apply Hsub, Hiff, Hr. }
  f_equal. apply filter_ext. intros [i r]. unfold once. cbn [snd].
  rewrite !occurrences_app, (occurrences_NoDup r _ HN), (occurrences_NoDup r _ HN').
  replace (memb r (cells J')) with (memb r (cells J)); [reflexivity|].
  unfold memb. apply bool_decide_ext, Hiff.
Qed.


(** X20: swapping the two tables (and the two names) changes nothing but
    the order of the rows of [same_values]: for tables of ints and strings
    over the same columns the two residual tables of [compare(y, x)] are
    those of [compare(x, y)], labels included. *)
Theorem swapped_inputs g s lx ly X Y n0 n1 rest bd bs bc highlight :
  heap s !! lx = Some X -> heap s !! ly = Some Y ->
  wf_frame X -> wf_frame Y -> columns X = columns Y -> columns X <> [] ->
  same_kinds X Y = true ->
  is_frame highlight = false ->
  n0 +:+ "_not_" +:+ n1 <> n1 +:+ "_not_" +:+ n0 ->
  exists d1 s1 d2 s2 J1 J2 R1 R2,
    compare g (PFrame lx) (PFrame ly) (PList (n0 :: n1 :: rest))
      (PBool bd) (PBool bs) (PBool bc) highlight s = (Ok d1, s1) /\
    compare g (PFrame ly) (PFrame lx) (PList (n1 :: n0 :: rest))
      (PBool bd) (PBool bs) (PBool bc) highlight s = (Ok d2, s2) /\
    table_of d1 s1 "same_values" = Some J1 /\
    table_of d2 s2 "same_values" = Some J2 /\
    cells J1 ≡ₚ cells J2 /\
    table_of d1 s1 (n0 +:+ "_not_" +:+ n1) = Some R1 /\
    table_of d2 s2 (n0 +:+ "_not_" +:+ n1) = Some R1 /\
    table_of d1 s1 (n1 +:+ "_not_" +:+ n0) = Some R2 /\
    table_of d2 s2 (n1 +:+ "_not_" +:+ n0) = Some R2.
Proof.
  intros HX HY WX WY Hcols Hne Hk Hh Hkeys.
  assert (Hne' : columns Y <> []) by congruence.
  pose proof (same_kinds_sym X Y Hcols Hk) as Hk'.
  destruct (merge_identical_cols X Y WX WY Hcols Hne Hk) as (J1 & HJ1 & Hc1 & Hr1 & _).
  destruct (merge_identical_cols Y X WY WX (eq_sym Hcols) Hne' Hk')
    as (J2 & HJ2 & Hc2 & Hr2 & _).
  destruct (compare_entries g lx ly n0 n1 rest bd bs bc highlight X Y J1 s HX HY HJ1 Hh)
    as (d1 & s1 & Hrun1 & Hs1 & Hb1 & Ha1 & _).
  destruct (compare_entries g ly lx n1 n0 rest bd bs bc highlight Y X J2 s HY HX HJ2 Hh)
    as (d2 & s2 & Hrun2 & Hs2 & Hb2 & Ha2 & _).
  destruct (same_kinds_rows X Y WX WY Hcols Hk) as [PX PY].
  pose proof (wf_join X Y J1 WX Hc1 Hr1) as WJ1.
  pose proof (wf_join Y X J2 WY Hc2 Hr2) as WJ2.
  assert (Hin1 : forall r, r ∈ cells J1 <-> r ∈ cells X /\ r ∈ cells Y).
  { intros r. rewrite Hr1, elem_of_filter_memb, elem_of_first_occ.
    split; [tauto|]. intros [H1 H2]. split; [split; [exact H1 | apply not_elem_of_nil] | exact H2]. }
  assert (Hin2 : forall r, r ∈ cells J2 <-> r ∈ cells Y /\ r ∈ cells X).
  { intros r. rewrite Hr2, elem_of_filter_memb, elem_of_first_occ.
    split; [tauto|]. intros [H1 H2]. split; [split; [exact H1 | apply not_elem_of_nil] | exact H2]. }
  assert (N1 : NoDup (cells J1)) by (rewrite Hr1; apply NoDup_list_filter, NoDup_first_occ).
  assert (N2 : NoDup (cells J2)) by (rewrite Hr2; apply NoDup_list_filter, NoDup_first_occ).
  assert (Hiff : forall r, r ∈ cells J1 <-> r ∈ cells J2).
  { intros r. rewrite Hin1, Hin2. tauto. }
  exists d1, s1, d2, s2, J1, J2, (residual X J1), (residual Y J1).
  split; [exact Hrun1|]. split; [exact Hrun2|]. split; [exact Hs1|]. split; [exact Hs2|].
  split; [apply NoDup_Permutation; assumption|].
  split; [exact (Ha1 Hkeys)|].
  split.
  - rewrite Hb2. f_equal. symmetry. apply residual_same_rows; auto; try congruence.
    intros r Hr. apply Hin1 in Hr. tauto.
  - split; [exact Hb1|]. rewrite (Ha2 (fun E => Hkeys (eq_sym E))). f_equal. symmetry.
    apply residual_same_rows; auto; try congruence.
    intros r Hr. apply Hin1 in Hr. tauto.
Qed.

Lemma swapped_inputs_witness :
  exists d1 s1 d2 s2 J1 J2 R1 R2,
    compare module_globals (PFrame 0) (PFrame 1) (PList ["x"; "y"])
      (PBool false) (PBool false) (PBool false) (PBool true)
      (mkState [spec_A; spec_B] [] ∅) = (Ok d1, s1) /\
    compare module_globals (PFrame 1) (PFrame 0) (PList ["y"; "x"])
      (PBool false) (PBool false) (PBool false) (PBool true)
      (mkState [spec_A; spec_B] [] ∅) = (Ok d2, s2) /\
    table_of d1 s1 "same_values" = Some J1 /\
    table_of d2 s2 "same_values" = Some J2 /\
    cells J1 ≡ₚ cells J2 /\
    table_of d1 s1 "x_not_y" = Some R1 /\
    table_of d2 s2 "x_not_y" = Some R1 /\
    table_of d1 s1 "y_not_x" = Some R2 /\
    table_of d2 s2 "y_not_x" = Some R2.
Proof.
  apply (swapped_inputs module_globals (mkState [spec_A; spec_B] [] ∅) 0 1 spec_A spec_B
           "x" "y" [] false false false (PBool true));
    [reflexivity | reflexivity | wf_closed | wf_closed | reflexivity | discriminate
    | reflexivity | reflexivity | discriminate].
Defined.












